(** * Saferoom3D map population: [populate_map.py]

    A shallow embedding of the tile-grid codec ([decode_tile_data]), the
    floor indexer ([find_floor_positions]), the spacing helpers
    ([distance_from_spawn], [get_tier_for_distance], [is_position_clear])
    and of the three placement loops and the merge of [populate_map],
    followed by the properties of the level-population pipeline.

    Conventions of the embedding.
    - Python integers are [Z]; counters that only count up from 0 are [nat].
    - A Python exception is a value of [exn]; code that may raise returns
      [result].
    - [bytes] is [list byte].
    - Python floats that only carry data (angles, jitter, scale) are exact
      rationals [Q]; rounding is not modelled.
    - The Euclidean distance [(dx**2 + dz**2) ** 0.5] is kept symbolically as
      the square root of its integer radicand ([root]).  The source only ever
      compares it with integers (the literals 2, 5, 10, 15, 30, ..., 150 and
      the [min_dist] argument), and the comparison with a positive integer
      is decided on the squares: the float square root is monotone and exact
      on the perfect squares involved, so for radicands that a float holds
      exactly this is the answer Python computes.
    - The file system is a finite map from paths to parsed documents;
      printing is not modelled. *)

From Stdlib Require Import ZArith QArith Qround Lia Lqa List Permutation.
From Stdlib Require Import Strings.Byte.
From stdpp Require Import gmap strings list fin_maps.
Import ListNotations.

Local Open Scope Z_scope.

(** ** Exceptions and the error monad *)

Inductive exn : Set :=
| TypeError
| IndexError
| DecodeError
| FileNotFoundError.

Inductive result (A : Type) : Type :=
| Ok (a : A)
| Raise (e : exn).

Arguments Ok {A} a.
Arguments Raise {A} e.

Definition bind {A B : Type} (m : result A) (k : A -> result B) : result B :=
  match m with
  | Ok a => k a
  | Raise e => Raise e
  end.

Notation "x <- m ;; k" := (bind m (fun x => k))
  (at level 100, m at next level, right associativity).

(** ** Python sequence indexing

    [l[i]] with Python's wrap-around of negative indices; out of range
    raises [IndexError]. *)

Definition py_slot {A : Type} (l : list A) (i : Z) : option nat :=
  let n := Z.of_nat (length l) in
  if (0 <=? i) && (i <? n) then Some (Z.to_nat i)
  else if (i <? 0) && (- n <=? i) then Some (Z.to_nat (n + i))
  else None.

Definition getitem {A : Type} (l : list A) (i : Z) : result A :=
  match py_slot l i with
  | Some k => match l !! k with Some a => Ok a | None => Raise IndexError end
  | None => Raise IndexError
  end.

Definition setitem {A : Type} (l : list A) (i : Z) (a : A) : result (list A) :=
  match py_slot l i with
  | Some k => Ok (<[k := a]> l)
  | None => Raise IndexError
  end.

(** ** The tile grid *)

Abbreviation grid := (list (list Z)).

(** [tiles[x][z]] *)
Definition getitem2 (tiles : grid) (x z : Z) : result Z :=
  row <- getitem tiles x ;; getitem row z.

(** [tiles[x][z] = value]: the row object is updated in place. *)
Definition setitem2 (tiles : grid) (x z value : Z) : result grid :=
  row <- getitem tiles x ;;
  row' <- setitem row z value ;;
  setitem tiles x row'.

(** [[[0] * depth for _ in range(width)]]; a negative factor or range bound
    gives the empty list. *)
Definition blank_grid (width depth : Z) : grid :=
  repeat (repeat 0 (Z.to_nat depth)) (Z.to_nat width).

(** ** [decode_tile_data] *)

Definition byte_val (b : byte) : Z := Z.of_N (Byte.to_N b).

(** The loop state of the decoder: the grid and the write cursor [(x, z)]. *)
Record cursor : Type := Cursor { cur_tiles : grid; cur_x : Z; cur_z : Z }.

(** The inner [for _ in range(count)] loop (lines 50-56). *)
Fixpoint fill (count : nat) (value width depth : Z) (c : cursor) : result cursor :=
  match count with
  | O => Ok c
  | S count' =>
      if (cur_x c <? width) && (cur_z c <? depth) then
        tiles <- setitem2 (cur_tiles c) (cur_x c) (cur_z c) value ;;
        let z := cur_z c + 1 in
        if depth <=? z
        then fill count' value width depth (Cursor tiles (cur_x c + 1) 0)
        else fill count' value width depth (Cursor tiles (cur_x c) z)
      else fill count' value width depth c
  end.

(** The [while i < len(decompressed) and x < width] loop (lines 40-56); the
    argument [bs] is the unread suffix [decompressed[i:]]. *)
Fixpoint rle_loop (bs : list byte) (width depth : Z) (c : cursor) : result cursor :=
  match bs with
  | [] => Ok c
  | value :: rest =>
      if cur_x c <? width then
        match rest with
        | sentinel :: rest' =>
            if Byte.eqb sentinel xff then
              match rest' with
              | count :: rest'' =>
                  match fill (N.to_nat (Byte.to_N count)) (byte_val value) width depth c with
                  | Ok c' => rle_loop rest'' width depth c'
                  | Raise e => Raise e
                  end
              | [] => fill 1 (byte_val value) width depth c
              end
            else
              match fill 1 (byte_val value) width depth c with
              | Ok c' => rle_loop rest width depth c'
              | Raise e => Raise e
              end
        | [] => fill 1 (byte_val value) width depth c
        end
      else Ok c
  end.

(** The RLE stage of [decode_tile_data] (lines 36-58). *)
Definition rle_decode (decompressed : list byte) (width depth : Z) : result grid :=
  c <- rle_loop decompressed width depth (Cursor (blank_grid width depth) 0 0) ;;
  Ok (cur_tiles c).

(** The run grammar in the words of the specification: a value byte, then
    optionally the sentinel 0xFF and a count byte; a run without the pair
    has length 1.  [rle_expand] is the sequence of values the whole stream
    denotes. *)
Fixpoint rle_expand (bs : list byte) : list Z :=
  match bs with
  | [] => []
  | value :: rest =>
      match rest with
      | sentinel :: rest' =>
          if Byte.eqb sentinel xff then
            match rest' with
            | count :: rest'' =>
                repeat (byte_val value) (N.to_nat (Byte.to_N count)) ++ rle_expand rest''
            | [] => [byte_val value]
            end
          else byte_val value :: rle_expand rest
      | [] => [byte_val value]
      end
  end.

(** ** [find_floor_positions] *)

Definition pos : Type := (Z * Z)%type.

(** [range(n)] *)
Definition range (n : Z) : list Z := map Z.of_nat (seq 0 (Z.to_nat n)).

(** The inner loop [for z in range(depth)] (lines 64-66). *)
Fixpoint scan_row (tiles : grid) (x : Z) (zs : list Z) (positions : list pos)
  : result (list pos) :=
  match zs with
  | [] => Ok positions
  | z :: zs' =>
      t <- getitem2 tiles x z ;;
      scan_row tiles x zs' (if t =? 1 then positions ++ [(x, z)] else positions)
  end.

(** The outer loop [for x in range(width)] (line 63). *)
Fixpoint scan_rows (tiles : grid) (depth : Z) (xs : list Z) (positions : list pos)
  : result (list pos) :=
  match xs with
  | [] => Ok positions
  | x :: xs' =>
      positions' <- scan_row tiles x (range depth) positions ;;
      scan_rows tiles depth xs' positions'
  end.

Definition find_floor_positions (tiles : grid) (width depth : Z) : result (list pos) :=
  scan_rows tiles depth (range width) [].

(** ** Distances, tiers and the clearance check *)

(** An element of [placed_positions]: Python does not type the list, so an
    element is whatever was put there, a bare integer or a position pair. *)
Inductive entry : Type :=
| Scalar (n : Z)
| Pair (p : pos).

(** [e[i]]: an integer is not subscriptable. *)
Definition subscript (e : entry) (i : Z) : result Z :=
  match e with
  | Scalar _ => Raise TypeError
  | Pair (a, b) =>
      if i =? 0 then Ok a else if i =? 1 then Ok b else Raise IndexError
  end.

(** The value [radicand ** 0.5]. *)
Record root : Set := Sqrt { radicand : Z }.

(** [r < k], [r > k] and [r >= k] for an integer [k].  A square root is
    never negative: against a positive [k] the comparison is decided on the
    squares, against a [k] that is not positive by the sign of [k] alone
    ([r < k] is false for [k <= 0], [r > k] is true for [k < 0]). *)
Definition root_lt (r : root) (k : Z) : bool := (0 <? k) && (radicand r <? k * k).
Definition root_gt (r : root) (k : Z) : bool := (k <? 0) || (k * k <? radicand r).
Definition root_ge (r : root) (k : Z) : Prop := k <= 0 \/ k * k <= radicand r.

(** [pos] is always a tuple at the call sites; [spawn_pos] is whatever the
    caller passes (lines 69-71). *)
Definition distance_from_spawn (p : pos) (spawn_pos : entry) : result root :=
  sx <- subscript spawn_pos 0 ;;
  sz <- subscript spawn_pos 1 ;;
  Ok (Sqrt ((fst p - sx) ^ 2 + (snd p - sz) ^ 2)).

(** The Euclidean distance of two positions. *)
Definition euclid (p q : pos) : root :=
  Sqrt ((fst p - fst q) ^ 2 + (snd p - snd q) ^ 2).

Definition get_tier_for_distance (dist : root) : Z :=
  if root_lt dist 30 then 1
  else if root_lt dist 60 then 2
  else if root_lt dist 100 then 3
  else if root_lt dist 150 then 4
  else 5.

Fixpoint is_position_clear (p : pos) (existing_positions : list entry) (min_dist : Z)
  : result bool :=
  match existing_positions with
  | [] => Ok true
  | existing :: more =>
      d <- distance_from_spawn p existing ;;
      if root_lt d min_dist then Ok false
      else is_position_clear p more min_dist
  end.

(** ** The type tables *)

Local Open Scope string_scope.

Definition TIER1_MONSTERS : list string := ["dungeon_rat"; "slime"; "goblin"].
Definition TIER2_MONSTERS : list string :=
  ["goblin_shaman"; "goblin_thrower"; "spider"; "mushroom"; "bat"].
Definition TIER3_MONSTERS : list string :=
  ["skeleton"; "wolf"; "lizard"; "eye"; "badlama"].
Definition TIER4_MONSTERS : list string :=
  ["crawler_killer"; "shadow_stalker"; "mimic"; "flesh_golem"].
Definition TIER5_MONSTERS : list string :=
  ["living_armor"; "plague_bearer"; "lava_elemental"; "void_spawn"].
Definition BOSSES : list string :=
  ["skeleton_lord"; "dragon_king"; "spider_queen"; "the_butcher"; "mordecai"; "mongo"].

Definition DUNGEON_PROPS : list string :=
  ["barrel"; "crate"; "pot"; "torch"; "bone_pile"; "skull_pile"; "rubble_heap"].
Definition TREASURE_PROPS : list string :=
  ["chest"; "treasure_chest"; "scattered_coins"; "ancient_scroll"].
Definition SPOOKY_PROPS : list string :=
  ["blood_pool"; "coiled_chains"; "manacles"; "discarded_sword"; "forgotten_shield"].
Definition NATURE_PROPS : list string :=
  ["moss_patch"; "glowing_mushrooms"; "water_puddle"; "thorny_vines"].
Definition CAMP_PROPS : list string :=
  ["campfire"; "abandoned_campfire"; "rat_nest"; "moldy_bread"].

Local Close Scope string_scope.

(** ** The level document *)

Record enemy : Type := Enemy {
  en_type : string;
  en_roomId : Z;
  en_position : pos;
  en_level : Z;
  en_isBoss : bool;
  en_rotationY : Q
}.

Record prop : Type := Prop_ {
  pr_type : string;
  pr_x : Q;
  pr_y : Q;
  pr_z : Q;
  pr_rotationY : Q;
  pr_scale : Q
}.

Record spawn_position : Type := SpawnPosition {
  sp_x : option Z;
  sp_z : option Z
}.

(** The keys [populate_map] reads or writes; a key may be absent. *)
Record document : Type := Document {
  doc_width : option Z;
  doc_depth : option Z;
  doc_spawnPosition : option spawn_position;
  doc_tileData : option string;
  doc_enemies : option (list enemy);
  doc_placedProps : option (list prop);
  doc_name : option string
}.

(** [d.get(key, default)] *)
Definition get {A : Type} (field : option A) (default : A) : A :=
  match field with
  | Some a => a
  | None => default
  end.

(** ** The random module

    The generator is an interface: a state, the three primitive draws the
    program relies on, and what the library documents about them. *)

Record RandomSource : Type := {
  rs_state : Type;
  (** [random.random()], a float in [0, 1) *)
  rs_random : rs_state -> Q * rs_state;
  (** the index draw behind [random.choice] and [random.randint] *)
  rs_randbelow : nat -> rs_state -> nat * rs_state;
  (** [random.shuffle] *)
  rs_shuffle : list pos -> rs_state -> list pos * rs_state;
  rs_random_range : forall s, (0 <= fst (rs_random s) /\ fst (rs_random s) < 1)%Q;
  rs_randbelow_lt : forall n s, (0 < n)%nat -> (fst (rs_randbelow n s) < n)%nat;
  rs_shuffle_perm : forall l s, Permutation l (fst (rs_shuffle l s))
}.

(** [q1 < q2] on rationals, as a boolean. *)
Definition Qltb (a b : Q) : bool :=
  (Qnum a * Zpos (Qden b) <? Qnum b * Zpos (Qden a))%Z.

(** [int(q)]: truncation towards zero. *)
Definition py_int (q : Q) : Z := Z.quot (Qnum q) (Zpos (Qden q)).

(** [l[::k]] *)
Fixpoint slice_from {A : Type} (k skip : nat) (l : list A) : list A :=
  match l with
  | [] => []
  | a :: l' =>
      match skip with
      | O => a :: slice_from k (k - 1) l'
      | S skip' => slice_from k skip' l'
      end
  end.

Definition slice_step {A : Type} (k : nat) (l : list A) : list A := slice_from k 0 l.

(** [list(spawn_pos)]: the elements of the tuple, one list element each. *)
Definition list_of_tuple (t : pos) : list entry := [Scalar (fst t); Scalar (snd t)].

(** The local variables of [populate_map] that the placement loops update. *)
Record state (rng : Type) : Type := State {
  placed_positions : list entry;
  new_enemies : list enemy;
  new_props : list prop;
  monsters_placed : nat;
  props_placed : nat;
  groups_placed : nat;
  gen : rng
}.

Arguments State {rng}.
Arguments placed_positions {rng}.
Arguments new_enemies {rng}.
Arguments new_props {rng}.
Arguments monsters_placed {rng}.
Arguments props_placed {rng}.
Arguments groups_placed {rng}.
Arguments gen {rng}.

(** The locals as they stand at the end of each placement loop. *)
Record run (rng : Type) : Type := Run {
  after_monsters : state rng;
  after_props : state rng;
  after_groups : state rng
}.

Arguments Run {rng}.
Arguments after_monsters {rng}.
Arguments after_props {rng}.
Arguments after_groups {rng}.

Section Pipeline.

(** [base64.b64decode] and [gzip.decompress]: library code, [None] when the
    library raises. *)
Variable b64decode : string -> option (list byte).
Variable gzip_decompress : list byte -> option (list byte).

Variable R : RandomSource.
Abbreviation rng := (rs_state R).

Definition decode_tile_data (tile_data : string) (width depth : Z) : result grid :=
  match b64decode tile_data with
  | None => Raise DecodeError
  | Some compressed =>
      match gzip_decompress compressed with
      | None => Raise DecodeError
      | Some decompressed => rle_decode decompressed width depth
      end
  end.

(** [random.uniform(a, b)] *)
Definition uniform (a b : Q) (g : rng) : Q * rng :=
  let (u, g') := rs_random R g in ((a + (b - a) * u)%Q, g').

(** [random.choice(seq)] *)
Definition choice (seq : list string) (g : rng) : result (string * rng) :=
  match seq with
  | [] => Raise IndexError
  | d :: _ =>
      let (i, g') := rs_randbelow R (length seq) g in
      Ok (nth i seq d, g')
  end.

(** [random.randint(a, b)] *)
Definition randint (a b : Z) (g : rng) : Z * rng :=
  let (i, g') := rs_randbelow R (Z.to_nat (b - a + 1)) g in
  (a + Z.of_nat i, g').

(** Lines 148-157. *)
Definition tier_pool (tier : Z) : list string :=
  if tier =? 1 then TIER1_MONSTERS
  else if tier =? 2 then TIER2_MONSTERS
  else if tier =? 3 then TIER3_MONSTERS
  else if tier =? 4 then TIER4_MONSTERS
  else TIER5_MONSTERS.

(** Lines 160-163; [random.random()] is drawn only when [dist > 120]. *)
Definition boss_override (dist : root) (monster_type : string) (g : rng)
  : result (string * bool * rng) :=
  if root_gt dist 120 then
    let (u, g1) := rs_random R g in
    if Qltb u (2 # 100) then
      r <- choice BOSSES g1 ;;
      Ok (fst r, true, snd r)
    else Ok (monster_type, false, g1)
  else Ok (monster_type, false, g).

(** Phase A, the loop of lines 131-175. *)
Fixpoint place_monsters (floor_positions : list pos) (target_monsters : nat)
    (spawn_pos : pos) (st : state rng) : result (state rng) :=
  match floor_positions with
  | [] => Ok st
  | p :: rest =>
      if (target_monsters <=? monsters_placed st)%nat then Ok st
      else
        dist <- distance_from_spawn p (Pair spawn_pos) ;;
        if root_lt dist 15 then place_monsters rest target_monsters spawn_pos st
        else
          clear <- is_position_clear p (placed_positions st) 5 ;;
          if negb clear then place_monsters rest target_monsters spawn_pos st
          else
            let tier := get_tier_for_distance dist in
            r <- choice (tier_pool tier) (gen st) ;;
            b <- boss_override dist (fst r) (snd r) ;;
            let '(monster_type, is_boss, g2) := b in
            let (rotation, g3) := uniform 0 (628 # 100) g2 in
            place_monsters rest target_monsters spawn_pos
              (State (placed_positions st ++ [Pair p])
                 (new_enemies st ++
                    [Enemy monster_type (-1) p (Z.max 1 tier) is_boss rotation])
                 (new_props st)
                 (S (monsters_placed st)) (props_placed st) (groups_placed st) g3)
  end.

(** Lines 194-201. *)
Definition prop_pool (dist : root) : list string :=
  if root_lt dist 30 then DUNGEON_PROPS ++ CAMP_PROPS
  else if root_lt dist 80 then DUNGEON_PROPS ++ NATURE_PROPS
  else if root_lt dist 130 then DUNGEON_PROPS ++ SPOOKY_PROPS ++ TREASURE_PROPS
  else SPOOKY_PROPS ++ TREASURE_PROPS.

(** Phase B, the loop of lines 183-215. *)
Fixpoint place_props (floor_positions : list pos) (target_props : nat)
    (spawn_pos : pos) (st : state rng) : result (state rng) :=
  match floor_positions with
  | [] => Ok st
  | p :: rest =>
      if (target_props <=? props_placed st)%nat then Ok st
      else
        dist <- distance_from_spawn p (Pair spawn_pos) ;;
        clear <- is_position_clear p (placed_positions st) 2 ;;
        if negb clear then place_props rest target_props spawn_pos st
        else
          r <- choice (prop_pool dist) (gen st) ;;
          let (jx, g2) := uniform (- (3 # 10)) (3 # 10) (snd r) in
          let (jz, g3) := uniform (- (3 # 10)) (3 # 10) g2 in
          let (rotation, g4) := uniform 0 (628 # 100) g3 in
          let (scale, g5) := uniform (8 # 10) (12 # 10) g4 in
          place_props rest target_props spawn_pos
            (State (placed_positions st ++ [Pair p])
               (new_enemies st)
               (new_props st ++
                  [Prop_ (fst r) (inject_Z (fst p) + jx)%Q 0%Q
                     (inject_Z (snd p) + jz)%Q rotation scale])
               (monsters_placed st) (S (props_placed st)) (groups_placed st) g5)
  end.

(** Lines 235-240. *)
Definition cluster_pool (tier : Z) : list string :=
  if tier <=? 2 then TIER1_MONSTERS ++ TIER2_MONSTERS
  else if tier <=? 3 then TIER2_MONSTERS ++ TIER3_MONSTERS
  else TIER3_MONSTERS ++ TIER4_MONSTERS.

(** The member loop [for i in range(cluster_size)] of lines 242-261. *)
Fixpoint place_cluster (cluster_size : nat) (tiles : grid) (width depth : Z)
    (p : pos) (tier : Z) (monster_pool : list string)
    (enemies : list enemy) (g : rng) : result (list enemy * rng) :=
  match cluster_size with
  | O => Ok (enemies, g)
  | S more =>
      let (offset_x, g1) := uniform (- 4) 4 g in
      let (offset_z, g2) := uniform (- 4) 4 g1 in
      let monster_pos : pos :=
        (py_int (inject_Z (fst p) + offset_x), py_int (inject_Z (snd p) + offset_z)) in
      if (fst monster_pos <? 0) || (width <=? fst monster_pos)
      then place_cluster more tiles width depth p tier monster_pool enemies g2
      else if (snd monster_pos <? 0) || (depth <=? snd monster_pos)
      then place_cluster more tiles width depth p tier monster_pool enemies g2
      else
        t <- getitem2 tiles (fst monster_pos) (snd monster_pos) ;;
        if negb (t =? 1)
        then place_cluster more tiles width depth p tier monster_pool enemies g2
        else
          r <- choice monster_pool g2 ;;
          let (rotation, g4) := uniform 0 (628 # 100) (snd r) in
          place_cluster more tiles width depth p tier monster_pool
            (enemies ++ [Enemy (fst r) (-1) monster_pos (Z.max 1 tier) false rotation])
            g4
  end.

(** Phase C, the loop of lines 223-264 over [floor_positions[::50]]. *)
Fixpoint place_groups (tiles : grid) (width depth : Z) (anchors : list pos)
    (groups_to_add : nat) (spawn_pos : pos) (st : state rng) : result (state rng) :=
  match anchors with
  | [] => Ok st
  | p :: rest =>
      if (groups_to_add <=? groups_placed st)%nat then Ok st
      else
        dist <- distance_from_spawn p (Pair spawn_pos) ;;
        if root_lt dist 40
        then place_groups tiles width depth rest groups_to_add spawn_pos st
        else
          clear <- is_position_clear p (placed_positions st) 10 ;;
          if negb clear
          then place_groups tiles width depth rest groups_to_add spawn_pos st
          else
            let (cluster_size, g1) := randint 3 5 (gen st) in
            let tier := get_tier_for_distance dist in
            c <- place_cluster (Z.to_nat cluster_size) tiles width depth p tier
                   (cluster_pool tier) (new_enemies st) g1 ;;
            place_groups tiles width depth rest groups_to_add spawn_pos
              (State (placed_positions st ++ [Pair p])
                 (fst c) (new_props st)
                 (monsters_placed st) (props_placed st) (S (groups_placed st))
                 (snd c))
  end.

(** The placement engine, lines 121-266: the shuffle and the three loops,
    started from the occupancy register [placed]. *)
Definition place (tiles : grid) (width depth : Z) (floor_positions : list pos)
    (spawn_pos : pos) (placed : list entry) (g : rng) : result (run rng) :=
  let (shuffled, g0) := rs_shuffle R floor_positions g in
  let n := length shuffled in
  a <- place_monsters shuffled (n / 100)%nat spawn_pos (State placed [] [] 0 0 0 g0) ;;
  b <- place_props shuffled (n / 50)%nat spawn_pos a ;;
  c <- place_groups tiles width depth (slice_step 50 shuffled)
         (Nat.min 20 (n / 500)) spawn_pos b ;;
  Ok (Run a b c).

(** Lines 95-100. *)
Definition width_of (map_data : document) : Z := get (doc_width map_data) 100.
Definition depth_of (map_data : document) : Z := get (doc_depth map_data) 100.
Definition spawn_of (map_data : document) : pos :=
  let sp := get (doc_spawnPosition map_data) (SpawnPosition None None) in
  (get (sp_x sp) (width_of map_data / 2), get (sp_z sp) (depth_of map_data / 2)).

(** Lines 114-119: the occupancy register before placement. *)
Definition initial_positions (map_data : document) : list entry :=
  fold_left (fun placed e => placed ++ [Pair (en_position e)])
    (get (doc_enemies map_data) []) (list_of_tuple (spawn_of map_data)).

(** Lines 268-271. *)
Definition merge (map_data : document) (enemies : list enemy) (props : list prop)
  : document :=
  {| doc_width := doc_width map_data;
     doc_depth := doc_depth map_data;
     doc_spawnPosition := doc_spawnPosition map_data;
     doc_tileData := doc_tileData map_data;
     doc_enemies := Some (get (doc_enemies map_data) [] ++ enemies);
     doc_placedProps := Some (get (doc_placedProps map_data) [] ++ props);
     doc_name := Some (String.append (get (doc_name map_data) "Map"%string) " (Populated)"%string) |}.

(** Lines 121-271: the placement engine and the merge of what it generated,
    started from the occupancy register [placed]. *)
Definition generate (map_data : document) (tiles : grid) (floor_positions : list pos)
    (placed : list entry) (g : rng) : result document :=
  r <- place tiles (width_of map_data) (depth_of map_data) floor_positions
         (spawn_of map_data) placed g ;;
  Ok (merge map_data (new_enemies (after_groups r)) (new_props (after_groups r))).

(** Lines 110-271: from the tile blob to the merged document. *)
Definition populate (map_data : document) (tile_data : string) (g : rng)
  : result document :=
  let width := width_of map_data in
  let depth := depth_of map_data in
  tiles <- decode_tile_data tile_data width depth ;;
  floor_positions <- find_floor_positions tiles width depth ;;
  generate map_data tiles floor_positions (initial_positions map_data) g.

(** [populate_map]: the files are a map from paths to parsed documents; the
    result is the file system afterwards and how the call ended. *)
Definition populate_map (input_path output_path : string)
    (fs : gmap string document) (g : rng) : gmap string document * result unit :=
  match fs !! input_path with
  | None => (fs, Raise FileNotFoundError)
  | Some map_data =>
      let tile_data := get (doc_tileData map_data) EmptyString in
      if String.eqb tile_data EmptyString then (fs, Ok tt)
      else
        match populate map_data tile_data g with
        | Ok populated => (<[output_path := populated]> fs, Ok tt)
        | Raise e => (fs, Raise e)
        end
  end.

End Pipeline.

(** ** Predicates used in the statements *)

(** A grid of [width] rows of [depth] cells each. *)
Definition shaped (width depth : Z) (tiles : grid) : Prop :=
  length tiles = Z.to_nat width /\
  Forall (fun row => length row = Z.to_nat depth) tiles.

(** The decoder's loop invariant: after the values [ws] have been consumed,
    the cursor stands at linear index [min (length ws) (width * depth)] and
    the cells before it hold [ws], the others 0. *)
Definition written (width depth : Z) (c : cursor) (ws : list Z) : Prop :=
  shaped width depth (cur_tiles c) /\
  0 <= cur_x c <= width /\
  0 <= cur_z c < depth /\
  (cur_x c = width -> cur_z c = 0) /\
  cur_x c * depth + cur_z c = Z.min (Z.of_nat (length ws)) (width * depth) /\
  forall x z, 0 <= x < width -> 0 <= z < depth ->
    getitem2 (cur_tiles c) x z =
      Ok (if x * depth + z <? cur_x c * depth + cur_z c
          then nth (Z.to_nat (x * depth + z)) ws 0
          else 0).

(** [p] is a floor cell of [tiles]. *)
Definition floor_cell (tiles : grid) (p : pos) : Prop :=
  getitem2 tiles (fst p) (snd p) = Ok 1.

(** The positions [cells] were appended to the register [placed] one after
    the other, each one after passing the clearance check at [min_dist]
    against the register as it stood. *)
Inductive registered (min_dist : Z) : list entry -> list pos -> Prop :=
| registered_nil (placed : list entry) : registered min_dist placed []
| registered_cons (placed : list entry) (p : pos) (cells : list pos) :
    is_position_clear p placed min_dist = Ok true ->
    registered min_dist (placed ++ [Pair p]) cells ->
    registered min_dist placed (p :: cells).

(** Any two of [cells] are at Euclidean distance at least [k]. *)
Definition apart (k : Z) (cells : list pos) : Prop :=
  ForallOrdPairs (fun p q => root_ge (euclid p q) k) cells.

(** The prop [pr] sits on the cell [p], within the jitter of 0.3 per axis. *)
Definition on_cell (pr : prop) (p : pos) : Prop :=
  (inject_Z (fst p) - (3 # 10) <= pr_x pr /\ pr_x pr <= inject_Z (fst p) + (3 # 10))%Q /\
  (inject_Z (snd p) - (3 # 10) <= pr_z pr /\ pr_z pr <= inject_Z (snd p) + (3 # 10))%Q.

(** [e] is a cluster member emitted around [anchor]: in the grid, on a
    floor cell, not a boss, at the level of the tier of [anchor]. *)
Definition cluster_member (tiles : grid) (width depth : Z) (spawn_pos anchor : pos)
    (e : enemy) : Prop :=
  0 <= fst (en_position e) < width /\
  0 <= snd (en_position e) < depth /\
  floor_cell tiles (en_position e) /\
  en_isBoss e = false /\
  en_level e = get_tier_for_distance (euclid anchor spawn_pos).

(** The register before Phase A in the words of the specification: the
    spawn position, then one position for each pre-existing entity of the
    document, the enemies and the placed props. *)
Definition register_as_specified (map_data : document) (placed : list entry) : Prop :=
  exists prop_cells : list pos,
    length prop_cells = length (get (doc_placedProps map_data) []) /\
    placed = Pair (spawn_of map_data)
               :: map (fun e => Pair (en_position e)) (get (doc_enemies map_data) [])
               ++ map Pair prop_cells.

(** The integers an entry of the register carries, in order. *)
Definition coordinates (e : entry) : list Z :=
  match e with
  | Scalar n => [n]
  | Pair (a, b) => [a; b]
  end.

(** The register holds the coordinates of the spawn position first, in
    whatever entries they were put, followed by exactly the position pairs
    [cells] and nothing else. *)
Definition spawn_then (spawn_pos : pos) (cells : list pos) (placed : list entry) : Prop :=
  exists spawn_entries : list entry,
    placed = spawn_entries ++ map Pair cells /\
    concat (map coordinates spawn_entries) = [fst spawn_pos; snd spawn_pos].

(** ** A concrete generator, codec and documents for worked examples *)

(** A linear congruential generator on [N]; its shuffle reverses the list. *)
Definition lcg_next (s : N) : N := ((s * 75 + 74) mod 65537)%N.

Definition lcg_source : RandomSource.
Proof.
  refine {| rs_state := N;
            rs_random := fun s => (Z.of_N (s mod 1000) # 1000, lcg_next s);
            rs_randbelow := fun n s => (N.to_nat (s mod N.of_nat n), lcg_next s);
            rs_shuffle := fun l s => (rev l, lcg_next s) |}.
  - intros s. cbn [fst]. unfold Qle, Qlt. cbn [Qnum Qden].
    pose proof (N.mod_lt s 1000 ltac:(discriminate)) as H.
    revert H. generalize (s mod 1000)%N. intros m H. lia.
  - intros n s Hn. cbn [fst].
    pose proof (N.mod_lt s (N.of_nat n) ltac:(lia)) as H.
    revert H. generalize (s mod N.of_nat n)%N. intros m H. lia.
  - intros l s. cbn [fst]. apply Permutation_rev.
Defined.

(** Stand-ins for the two library decoders: the text is the byte stream. *)
Definition plain_b64decode (s : string) : option (list byte) := Some (String.list_byte_of_string s).
Definition stored_decompress (bs : list byte) : option (list byte) := Some bs.

(** A 10 x 10 map, all floor, spawn at the centre, nothing placed yet. *)
Definition doc_all_floor : document :=
  {| doc_width := Some 10;
     doc_depth := Some 10;
     doc_spawnPosition := Some (SpawnPosition (Some 5) (Some 5));
     doc_tileData := Some (String.string_of_list_byte [x01; xff; x64]);
     doc_enemies := None;
     doc_placedProps := None;
     doc_name := Some "Steves Place"%string |}.

(** The same map with 7 x 7 = 49 floor cells: one run of 49 cells. *)
Definition doc_small : document :=
  {| doc_width := Some 7;
     doc_depth := Some 7;
     doc_spawnPosition := None;
     doc_tileData := Some (String.string_of_list_byte [x01; xff; x31]);
     doc_enemies :=
       Some [Enemy "slime"%string 3 (1, 1) 1 false 0%Q];
     doc_placedProps := None;
     doc_name := None |}.

(** A map without tile data. *)
Definition doc_no_tiles : document :=
  {| doc_width := Some 10;
     doc_depth := Some 10;
     doc_spawnPosition := None;
     doc_tileData := None;
     doc_enemies := None;
     doc_placedProps := None;
     doc_name := Some "Empty"%string |}.

(** A 7 x 7 map, all floor (one run of 49 cells), with the spawn at (3, 3),
    one enemy and two placed props. *)
Definition doc_with_prop : document :=
  {| doc_width := Some 7;
     doc_depth := Some 7;
     doc_spawnPosition := Some (SpawnPosition (Some 3) (Some 3));
     doc_tileData := Some (String.string_of_list_byte [x01; xff; x31]);
     doc_enemies :=
       Some [Enemy "slime"%string 3 (1, 1) 1 false 0%Q];
     doc_placedProps :=
       Some [Prop_ "barrel"%string (inject_Z 2) 0%Q (inject_Z 2) 0%Q 1%Q;
             Prop_ "crate"%string (inject_Z 5) 0%Q (inject_Z 4) 0%Q 1%Q];
     doc_name := None |}.

(** A 60 x 10 map, all floor (runs of 255, 255 and 90 cells), with the spawn
    at (0, 0), one enemy and one placed prop. *)
Definition doc_60_10 : document :=
  {| doc_width := Some 60;
     doc_depth := Some 10;
     doc_spawnPosition := Some (SpawnPosition (Some 0) (Some 0));
     doc_tileData :=
       Some (String.string_of_list_byte
               [x01; xff; xff; x01; xff; xff; x01; xff; x5a]);
     doc_enemies :=
       Some [Enemy "slime"%string 3 (1, 1) 1 false 0%Q];
     doc_placedProps :=
       Some [Prop_ "barrel"%string (inject_Z 2) 0%Q (inject_Z 2) 0%Q 1%Q];
     doc_name := Some "Steves Place"%string |}.

(** A 60 x 10 grid, all floor, and its floor list. *)
Definition tiles_60_10 : grid := repeat (repeat 1 10%nat) 60%nat.
Definition floor_60_10 : list pos :=
  flat_map (fun x => map (fun z => (x, z)) (range 10)) (range 60).


(** File systems holding one input document. *)
Definition fs_all_floor : gmap string document := {[ "in.json"%string := doc_all_floor ]}.
Definition fs_small : gmap string document := {[ "in.json"%string := doc_small ]}.
Definition fs_no_tiles : gmap string document := {[ "in.json"%string := doc_no_tiles ]}.
Definition fs_with_prop : gmap string document := {[ "in.json"%string := doc_with_prop ]}.

(** The 10 x 10 grid of [doc_all_floor] and its floor list. *)
Definition tiles_10_10 : grid := repeat (repeat 1 10%nat) 10%nat.
Definition floor_10_10 : list pos :=
  flat_map (fun x => map (fun z => (x, z)) (range 10)) (range 10).

(** A register entry that is a position pair. *)
Definition is_pair (e : entry) : Prop := exists q, e = Pair q.

(** ** Reference descriptions of the codec and the indexer *)

(** The cells of a [width] x [depth] grid in scan order: [x] outermost. *)
Definition cells (width depth : Z) : list pos :=
  flat_map (fun x => map (fun z => (x, z)) (range depth)) (range width).

(** [tiles[x][z] == 1], false where the subscript would raise. *)
Definition is_floor (tiles : grid) (p : pos) : bool :=
  match getitem2 tiles (fst p) (snd p) with
  | Ok t => t =? 1
  | Raise _ => false
  end.

(** The values [ws] laid out over a [width] x [depth] grid, [z] running
    fastest, with 0 where [ws] has run out. *)
Definition reshape (ws : list Z) (width depth : Z) : grid :=
  map (fun x => map (fun z => nth (Z.to_nat (x * depth + z)) ws 0) (range depth))
    (range width).

(** The Chebyshev distance of two positions is at most [k]. *)
Definition within (k : Z) (p q : pos) : Prop :=
  Z.abs (fst p - fst q) <= k /\ Z.abs (snd p - snd q) <= k.

(** What Phase A promises of a monster it emits, [spawn_pos] being the
    spawn point. *)
Definition single_monster (spawn_pos : pos) (e : enemy) : Prop :=
  let dist := euclid (en_position e) spawn_pos in
  root_ge dist 15 /\
  en_level e = get_tier_for_distance dist /\
  en_roomId e = -1 /\
  (0 <= en_rotationY e /\ en_rotationY e <= 628 # 100)%Q /\
  (en_isBoss e = true -> root_gt dist 120 = true /\ In (en_type e) BOSSES) /\
  (en_isBoss e = false ->
   In (en_type e)
      (if en_level e =? 1 then TIER1_MONSTERS
       else if en_level e =? 2 then TIER2_MONSTERS
       else if en_level e =? 3 then TIER3_MONSTERS
       else if en_level e =? 4 then TIER4_MONSTERS
       else TIER5_MONSTERS)).

(** What Phase B promises of a prop it emits on the cell [c]. *)
Definition placed_prop (spawn_pos : pos) (pr : prop) (c : pos) : Prop :=
  let dist := euclid c spawn_pos in
  on_cell pr c /\
  (pr_y pr == 0)%Q /\
  (0 <= pr_rotationY pr /\ pr_rotationY pr <= 628 # 100)%Q /\
  (8 # 10 <= pr_scale pr /\ pr_scale pr <= 12 # 10)%Q /\
  In (pr_type pr)
     (if root_lt dist 30 then DUNGEON_PROPS ++ CAMP_PROPS
      else if root_lt dist 80 then DUNGEON_PROPS ++ NATURE_PROPS
      else if root_lt dist 130 then DUNGEON_PROPS ++ SPOOKY_PROPS ++ TREASURE_PROPS
      else SPOOKY_PROPS ++ TREASURE_PROPS).

(** What Phase C promises of a member emitted around the anchor [a]. *)
Definition group_member (spawn_pos : pos) (a : pos) (e : enemy) : Prop :=
  let tier := get_tier_for_distance (euclid a spawn_pos) in
  within 4 (en_position e) a /\
  en_level e = tier /\
  2 <= en_level e /\
  en_roomId e = -1 /\
  en_isBoss e = false /\
  (0 <= en_rotationY e /\ en_rotationY e <= 628 # 100)%Q /\
  In (en_type e)
     (if tier <=? 2 then TIER1_MONSTERS ++ TIER2_MONSTERS
      else if tier <=? 3 then TIER2_MONSTERS ++ TIER3_MONSTERS
      else TIER3_MONSTERS ++ TIER4_MONSTERS).

(** ** The source-patching scripts

    Text is [string]; a text file is the text Python reads from it in text
    mode, and the files are a finite map from paths to texts. *)

Definition newline : Ascii.ascii := Ascii.ascii_of_nat 10.

(** [s.find(sub)] *)
Definition str_find (s sub : string) : Z :=
  match String.index 0 sub s with
  | Some n => Z.of_nat n
  | None => -1
  end.

(** [sub in s] *)
Definition str_in (sub s : string) : bool :=
  match String.index 0 sub s with
  | Some _ => true
  | None => false
  end.

(** The place a slice bound [i] denotes in a sequence of length [len]. *)
Definition slice_bound (len i : Z) : nat :=
  Z.to_nat (if i <? 0 then Z.max 0 (len + i) else Z.min i len).

(** [s[:i]] and [s[i:]] on text *)
Definition str_to (s : string) (i : Z) : string :=
  String.substring 0 (slice_bound (Z.of_nat (String.length s)) i) s.
Definition str_from (s : string) (i : Z) : string :=
  let k := slice_bound (Z.of_nat (String.length s)) i in
  String.substring k (String.length s - k) s.

(** [l[:i]] and [l[i:]] on lists *)
Definition list_to {A : Type} (l : list A) (i : Z) : list A :=
  firstn (slice_bound (Z.of_nat (length l)) i) l.
Definition list_from {A : Type} (l : list A) (i : Z) : list A :=
  skipn (slice_bound (Z.of_nat (length l)) i) l.

(** [f.readlines()]: the lines of a text, each with its line feed. *)
Fixpoint readlines (s : string) : list string :=
  match s with
  | EmptyString => []
  | String c rest =>
      if Ascii.eqb c newline then String c EmptyString :: readlines rest
      else
        match readlines rest with
        | [] => [String c EmptyString]
        | line :: lines => String c line :: lines
        end
  end.

(** [f.writelines(lines)]: the text written. *)
Definition writelines (lines : list string) : string :=
  fold_right String.append EmptyString lines.

(** How a script ends. *)
Inductive script_end : Type :=
| Completed
| SystemExit (code : Z)
| Uncaught (e : exn).

Module ReplaceSkeleton.

(** The loop of lines 11-16: the indices found, -1 for none.  [i] is the
    index of the head of [lines]. *)
Fixpoint find_markers (start_marker end_marker : string) (lines : list string)
    (i start_idx : Z) : Z * Z :=
  match lines with
  | [] => (start_idx, -1)
  | line :: rest =>
      let start_idx := if str_in start_marker line then i else start_idx in
      if negb (start_idx =? -1) && str_in end_marker line && (start_idx <? i)
      then (start_idx, i + 1)
      else find_markers start_marker end_marker rest (i + 1) start_idx
  end.

Definition replace_method (lines : list string) (start_marker end_marker : string)
    (new_content : list string) : list string :=
  let (start_idx, end_idx) := find_markers start_marker end_marker lines 0 (-1) in
  if (start_idx =? -1) || (end_idx =? -1) then lines
  else list_to lines start_idx ++ new_content ++ list_from lines end_idx.

Definition factory_path : string :=
  "C:\Claude\SafeRoom3D\Scripts\Enemies\MonsterMeshFactory.cs".
Definition skeleton_path : string := "C:\Claude\SafeRoom3D\skeleton_enhanced.txt".
Definition skeleton_lord_path : string := "C:\Claude\SafeRoom3D\skeleton_lord_enhanced.txt".

Definition skeleton_start : string :=
  "    private static void CreateSkeletonMesh(Node3D parent, LimbNodes limbs)".
Definition skeleton_end : string :=
  "    private static void CreateSkeletonArm(Node3D parent, LimbNodes limbs".
Definition skeleton_lord_start : string :=
  "    private static void CreateSkeletonLordMesh(Node3D parent, LimbNodes limbs)".
Definition skeleton_lord_end : string :=
  "    private static void CreateDragonKingMesh(Node3D parent, LimbNodes limbs)".

Definition main (fs : gmap string string) : gmap string string * result unit :=
  match fs !! factory_path with
  | None => (fs, Raise FileNotFoundError)
  | Some text =>
      let lines := readlines text in
      match fs !! skeleton_path with
      | None => (fs, Raise FileNotFoundError)
      | Some skeleton_text =>
          let skeleton_content := readlines skeleton_text in
          match fs !! skeleton_lord_path with
          | None => (fs, Raise FileNotFoundError)
          | Some skeleton_lord_text =>
              let skeleton_lord_content := readlines skeleton_lord_text in
              let lines :=
                replace_method lines skeleton_start skeleton_end skeleton_content in
              let lines :=
                replace_method lines skeleton_lord_start skeleton_lord_end
                  skeleton_lord_content in
              (<[factory_path := writelines lines]> fs, Ok tt)
          end
      end
  end.

End ReplaceSkeleton.

Module ReplaceSlime.

Definition factory_path : string := "Scripts/Enemies/MonsterMeshFactory.cs".
Definition enhanced_path : string := "enhanced_slime_methods.cs".

Definition start_marker : string :=
  "    private static void CreateSlimeMesh(Node3D parent, LimbNodes limbs, Color? skinColorOverride)".
Definition end_marker : string :=
  "    private static void CreateSkeletonMesh(Node3D parent, LimbNodes limbs)".

(** The script, lines 4-31. *)
Definition script (fs : gmap string string) : gmap string string * script_end :=
  match fs !! factory_path with
  | None => (fs, Uncaught FileNotFoundError)
  | Some content =>
      match fs !! enhanced_path with
      | None => (fs, Uncaught FileNotFoundError)
      | Some enhanced =>
          let start_idx := str_find content start_marker in
          let end_idx := str_find content end_marker in
          if (start_idx =? -1) || (end_idx =? -1) then (fs, SystemExit 1)
          else
            let before := str_to content start_idx in
            let after := str_from content end_idx in
            let new_content :=
              String.append before
                (String.append enhanced
                   (String.append (String newline (String newline EmptyString)) after)) in
            (<[factory_path := new_content]> fs, Completed)
      end
  end.

End ReplaceSlime.

Module ReplaceMushroom.

Definition factory_path : string :=
  "C:\Claude\SafeRoom3D\Scripts\Enemies\MonsterMeshFactory.cs".
Definition methods_path : string := "C:\Claude\SafeRoom3D\mushroom_methods_temp.cs".

(** The literal head of the pattern and the literal after [^]. *)
Definition header : string :=
  "    private static void CreateMushroomMesh(Node3D parent, LimbNodes limbs, Color? colorOverride)".
Definition closing : string := "    }".

(** The tail of the pattern, a lazy run of any characters and then
    "    }" at the beginning of a line, matched against [s]: the length
    of the shortest match.  [bol] tells whether [s] starts a line. *)
Fixpoint match_tail (bol : bool) (s : string) {struct s} : option nat :=
  if bol && String.prefix closing s then Some (String.length closing)
  else
    match s with
    | EmptyString => None
    | String c s' => option_map S (match_tail (Ascii.eqb c newline) s')
    end.

(** The whole pattern matched at the start of [s]: the length of the match.
    The header does not end in a line feed, so its end starts no line. *)
Definition match_here (s : string) : option nat :=
  if String.prefix header s then
    option_map (Nat.add (String.length header))
      (match_tail false
         (String.substring (String.length header) (String.length s - String.length header) s))
  else None.

(** [re.search(pattern, content, re.MULTILINE)]: start and end of the
    leftmost match. *)
Fixpoint search (s : string) : option (nat * nat) :=
  match match_here s with
  | Some n => Some (0%nat, n)
  | None =>
      match s with
      | EmptyString => None
      | String _ s' => option_map (fun m => (S (fst m), S (snd m))) (search s')
      end
  end.

(** [s.rstrip()], [isspace] being the whitespace test of the library. *)
Fixpoint rstrip (isspace : Ascii.ascii -> bool) (s : string) : string :=
  match s with
  | EmptyString => EmptyString
  | String c s' =>
      match rstrip isspace s' with
      | EmptyString => if isspace c then EmptyString else String c EmptyString
      | stripped => String c stripped
      end
  end.

(** The script, lines 4-30. *)
Definition script (isspace : Ascii.ascii -> bool) (fs : gmap string string)
  : gmap string string * script_end :=
  match fs !! factory_path with
  | None => (fs, Uncaught FileNotFoundError)
  | Some content =>
      match fs !! methods_path with
      | None => (fs, Uncaught FileNotFoundError)
      | Some new_methods =>
          match search content with
          | Some (match_start, match_end) =>
              let new_content :=
                String.append (str_to content (Z.of_nat match_start))
                  (String.append (rstrip isspace new_methods)
                     (str_from content (Z.of_nat match_end))) in
              (<[factory_path := new_content]> fs, Completed)
          | None => (fs, Completed)
          end
      end
  end.

End ReplaceMushroom.

(** [body] ends in a line feed. *)
Definition ends_line (body : string) : Prop :=
  exists b, body = String.append b (String newline EmptyString).

(** [body] may stand between a position and a "    }" that starts a line:
    it ends in a line feed, or it is empty and the position starts a line. *)
Definition fits (bol : bool) (body : string) : Prop :=
  (bol = true /\ body = EmptyString) \/ ends_line body.

(** ** Texts and files for worked examples of the scripts *)

Definition nl : string := String newline EmptyString.

(** A factory text with the slime method before the skeleton method. *)
Definition slime_text : string :=
  String.append "// factory"
    (String.append nl
       (String.append ReplaceSlime.start_marker
          (String.append nl
             (String.append "    { old slime }"
                (String.append nl
                   (String.append ReplaceSlime.end_marker
                      (String.append nl "    { bones }"))))))).

(** The same with the two methods in the other order. *)
Definition slime_text_reversed : string :=
  String.append "// factory"
    (String.append nl
       (String.append ReplaceSlime.end_marker
          (String.append nl
             (String.append "    { bones }"
                (String.append nl
                   (String.append ReplaceSlime.start_marker
                      (String.append nl "    { old slime }"))))))).

Definition fs_slime (text : string) : gmap string string :=
  <[ReplaceSlime.factory_path := text]>
    (<[ReplaceSlime.enhanced_path := "    NEW SLIME"%string]> ∅).

(** A factory text with a mushroom method of three lines. *)
Definition mushroom_text : string :=
  String.append "// factory"
    (String.append nl
       (String.append ReplaceMushroom.header
          (String.append nl
             (String.append "    {"
                (String.append nl
                   (String.append "        if (x) { }"
                      (String.append nl
                         (String.append "    }"
                            (String.append nl "    // after"))))))))).

Definition fs_mushroom (text : string) : gmap string string :=
  <[ReplaceMushroom.factory_path := text]>
    (<[ReplaceMushroom.methods_path := String.append "    NEW MUSHROOM  " nl]> ∅).

(** Blank, tab and the line ends: a whitespace test for the examples. *)
Definition ascii_space (c : Ascii.ascii) : bool :=
  (Ascii.nat_of_ascii c =? 32)%nat || (Ascii.nat_of_ascii c =? 9)%nat
  || (Ascii.nat_of_ascii c =? 10)%nat || (Ascii.nat_of_ascii c =? 13)%nat.

Definition fs_skeleton (text : string) : gmap string string :=
  <[ReplaceSkeleton.factory_path := text]>
    (<[ReplaceSkeleton.skeleton_path := "skeleton"%string]>
       (<[ReplaceSkeleton.skeleton_lord_path := "lord"%string]> ∅)).

(** * Properties *)

(** ** Indexing *)

Lemma py_slot_in {A : Type} (l : list A) (i : Z) :
  0 <= i < Z.of_nat (length l) -> py_slot l i = Some (Z.to_nat i).
Proof.
  intros Hi. unfold py_slot.
  destruct (0 <=? i) eqn:E1; [|lia].
  destruct (i <? Z.of_nat (length l)) eqn:E2; [reflexivity|lia].
Qed.

Lemma getitem_in {A : Type} (l : list A) (i : Z) :
  0 <= i < Z.of_nat (length l) ->
  exists a, l !! Z.to_nat i = Some a /\ getitem l i = Ok a.
Proof.
  intros Hi. unfold getitem. rewrite py_slot_in by exact Hi.
  destruct (l !! Z.to_nat i) as [a|] eqn:E.
  - exists a. split; reflexivity.
  - apply lookup_ge_None in E. lia.
Qed.

Lemma setitem_in {A : Type} (l : list A) (i : Z) (a : A) :
  0 <= i < Z.of_nat (length l) -> setitem l i a = Ok (<[Z.to_nat i := a]> l).
Proof. intros Hi. unfold setitem. now rewrite py_slot_in. Qed.

Lemma shaped_row (width depth : Z) (tiles : grid) (x : Z) :
  shaped width depth tiles -> 0 <= x < width ->
  exists row, tiles !! Z.to_nat x = Some row /\ getitem tiles x = Ok row /\
              length row = Z.to_nat depth.
Proof.
  intros [Hlen Hrows] Hx.
  destruct (getitem_in tiles x) as [row [Hrow Hget]]; [lia|].
  exists row. repeat split; try assumption.
  rewrite Forall_forall in Hrows. apply Hrows.
  apply list_elem_of_lookup. eauto.
Qed.

Lemma getitem2_shaped (width depth : Z) (tiles : grid) (x z : Z) :
  shaped width depth tiles -> 0 <= x < width -> 0 <= z < depth ->
  exists row v, tiles !! Z.to_nat x = Some row /\ row !! Z.to_nat z = Some v /\
                getitem2 tiles x z = Ok v.
Proof.
  intros Hs Hx Hz.
  destruct (shaped_row _ _ _ _ Hs Hx) as [row [Hrow [Hget Hlen]]].
  destruct (getitem_in row z) as [v [Hv Hgetv]]; [lia|].
  exists row, v. repeat split; try assumption.
  unfold getitem2. rewrite Hget. exact Hgetv.
Qed.

Lemma blank_grid_shaped (width depth : Z) : shaped width depth (blank_grid width depth).
Proof.
  unfold shaped, blank_grid. split.
  - apply repeat_length.
  - apply Forall_forall. intros row Hin. apply list_elem_of_In in Hin.
    apply repeat_spec in Hin. subst row. apply repeat_length.
Qed.

Lemma setitem2_shaped (width depth : Z) (tiles : grid) (x z v : Z) :
  shaped width depth tiles -> 0 <= x < width -> 0 <= z < depth ->
  exists row, tiles !! Z.to_nat x = Some row /\
    setitem2 tiles x z v = Ok (<[Z.to_nat x := <[Z.to_nat z := v]> row]> tiles) /\
    shaped width depth (<[Z.to_nat x := <[Z.to_nat z := v]> row]> tiles).
Proof.
  intros Hs Hx Hz.
  destruct (shaped_row _ _ _ _ Hs Hx) as [row [Hrow [Hget Hlen]]].
  exists row. split; [exact Hrow|]. split.
  - unfold setitem2. rewrite Hget. cbn [bind].
    rewrite setitem_in by lia. cbn [bind].
    destruct Hs as [Hl _]. apply setitem_in. lia.
  - destruct Hs as [Hl Hrows]. split.
    + rewrite length_insert. exact Hl.
    + apply Forall_insert; [exact Hrows|]. rewrite length_insert. exact Hlen.
Qed.

Lemma getitem2_insert (width depth : Z) (tiles : grid) (row : list Z) (x z v x' z' : Z) :
  shaped width depth tiles ->
  0 <= x < width -> 0 <= z < depth -> 0 <= x' < width -> 0 <= z' < depth ->
  tiles !! Z.to_nat x = Some row ->
  getitem2 (<[Z.to_nat x := <[Z.to_nat z := v]> row]> tiles) x' z' =
    if (x' =? x) && (z' =? z) then Ok v else getitem2 tiles x' z'.
Proof.
  intros Hs Hx Hz Hx' Hz' Hrow.
  assert (Hlen : length row = Z.to_nat depth).
  { destruct (shaped_row _ _ _ _ Hs Hx) as [r [Hr [_ Hl]]]. congruence. }
  destruct Hs as [Hl Hrows].
  unfold getitem2, getitem.
  rewrite !py_slot_in by (rewrite ?length_insert; lia).
  destruct (Z.eqb_spec x' x) as [->|Hne].
  - rewrite list_lookup_insert_eq by lia. cbn [bind andb].
    rewrite Hrow. cbn [bind].
    rewrite !py_slot_in by (rewrite ?length_insert; lia).
    destruct (Z.eqb_spec z' z) as [->|Hnz].
    + rewrite list_lookup_insert_eq by lia. reflexivity.
    + rewrite list_lookup_insert_ne by lia. reflexivity.
  - rewrite list_lookup_insert_ne by lia. reflexivity.
Qed.

(** ** The decoder never fails and keeps the grid's shape *)

Lemma fill_shaped (count : nat) (value width depth : Z) :
  forall c, shaped width depth (cur_tiles c) -> 0 <= cur_x c -> 0 <= cur_z c ->
  exists c', fill count value width depth c = Ok c' /\
             shaped width depth (cur_tiles c') /\ 0 <= cur_x c' /\ 0 <= cur_z c'.
Proof.
  induction count as [|n IH]; intros c Hs Hx Hz; cbn [fill].
  - exists c. auto.
  - destruct (cur_x c <? width) eqn:Ex; cbn [andb]; [|apply IH; assumption].
    destruct (cur_z c <? depth) eqn:Ez; [|apply IH; assumption].
    destruct (setitem2_shaped width depth (cur_tiles c) (cur_x c) (cur_z c) value)
      as [row [_ [Hset Hs']]]; [assumption|lia|lia|].
    rewrite Hset. cbn [bind].
    destruct (depth <=? cur_z c + 1); apply IH; cbn; try assumption; lia.
Qed.

Lemma rle_loop_shaped (width depth : Z) (k : nat) :
  forall bs c, (length bs <= k)%nat ->
  shaped width depth (cur_tiles c) -> 0 <= cur_x c -> 0 <= cur_z c ->
  exists c', rle_loop bs width depth c = Ok c' /\
             shaped width depth (cur_tiles c') /\ 0 <= cur_x c' /\ 0 <= cur_z c'.
Proof.
  induction k as [|k IH]; intros bs c Hk Hs Hx Hz.
  - destruct bs; [|cbn in Hk; lia]. exists c. cbn. auto.
  - destruct bs as [|value rest]; [exists c; cbn; auto|].
    cbn [rle_loop]. destruct (cur_x c <? width); [|exists c; auto].
    destruct rest as [|sentinel rest'].
    { apply fill_shaped; assumption. }
    destruct (Byte.eqb sentinel xff).
    + destruct rest' as [|count rest''].
      { apply fill_shaped; assumption. }
      destruct (fill_shaped (N.to_nat (Byte.to_N count)) (byte_val value) width depth c)
        as [c1 [E1 [Hs1 [Hx1 Hz1]]]]; try assumption.
      rewrite E1. apply IH; try assumption. cbn in Hk. lia.
    + destruct (fill_shaped 1 (byte_val value) width depth c)
        as [c1 [E1 [Hs1 [Hx1 Hz1]]]]; try assumption.
      rewrite E1. apply IH; try assumption. cbn in Hk. cbn. lia.
Qed.

Lemma rle_decode_shaped (bs : list byte) (width depth : Z) :
  exists tiles, rle_decode bs width depth = Ok tiles /\ shaped width depth tiles.
Proof.
  unfold rle_decode.
  destruct (rle_loop_shaped width depth (length bs) bs
              (Cursor (blank_grid width depth) 0 0)) as [c [E [Hs _]]];
    cbn; try lia; [apply blank_grid_shaped|].
  rewrite E. cbn. eauto.
Qed.

(** ** The decoder writes the stream in column-major order *)

Lemma linear_index_lt (depth x z x' z' : Z) :
  0 <= z < depth -> 0 <= z' < depth ->
  (x * depth + z <? x' * depth + z') = (x <? x') || ((x =? x') && (z <? z')).
Proof.
  intros Hz Hz'.
  destruct (Z.ltb_spec x x') as [H1|H1]; cbn [orb].
  - apply Z.ltb_lt. nia.
  - destruct (Z.eqb_spec x x') as [->|H2]; cbn [andb].
    + destruct (Z.ltb_spec z z'); [apply Z.ltb_lt|apply Z.ltb_ge]; lia.
    + apply Z.ltb_ge. nia.
Qed.

Lemma written_full (width depth : Z) (c : cursor) (ws more : list Z) :
  written width depth c ws -> cur_x c = width -> written width depth c (ws ++ more).
Proof.
  intros (Hs & Hx & Hz & Hfull & Hk & Hcells) Hw.
  specialize (Hfull Hw).
  split; [assumption|]. split; [assumption|]. split; [assumption|].
  split; [intros _; assumption|]. split.
  - rewrite length_app. lia.
  - intros x z Hxr Hzr. rewrite (Hcells x z Hxr Hzr).
    destruct (x * depth + z <? cur_x c * depth + cur_z c) eqn:E; [|reflexivity].
    apply Z.ltb_lt in E. rewrite app_nth1; [reflexivity|lia].
Qed.

Lemma written_step (value width depth : Z) (c : cursor) (ws : list Z) :
  written width depth c ws ->
  exists c', fill 1 value width depth c = Ok c' /\
             written width depth c' (ws ++ [value]).
Proof.
  intros Hw. cbn [fill].
  destruct (cur_x c <? width) eqn:Ex; cbn [andb].
  2:{ exists c. split; [reflexivity|]. apply written_full; [assumption|].
      destruct Hw as (_ & Hx & _). apply Z.ltb_ge in Ex. lia. }
  destruct Hw as (Hs & Hx & Hz & Hfull & Hk & Hcells).
  apply Z.ltb_lt in Ex.
  assert (Ez : (cur_z c <? depth) = true) by (apply Z.ltb_lt; lia).
  rewrite Ez.
  destruct (setitem2_shaped width depth (cur_tiles c) (cur_x c) (cur_z c) value)
    as [row [Hrow [Hset Hs']]]; [assumption|lia|lia|].
  rewrite Hset. cbn [bind].
  assert (Hlt : cur_x c * depth + cur_z c < width * depth) by nia.
  assert (Hlen : Z.of_nat (length ws) = cur_x c * depth + cur_z c) by lia.
  assert (Hcells' : forall x z, 0 <= x < width -> 0 <= z < depth ->
            getitem2 (<[Z.to_nat (cur_x c) := <[Z.to_nat (cur_z c) := value]> row]>
                        (cur_tiles c)) x z =
            Ok (if x * depth + z <? cur_x c * depth + cur_z c + 1
                then nth (Z.to_nat (x * depth + z)) (ws ++ [value]) 0 else 0)).
  { intros x z Hxr Hzr.
    rewrite (getitem2_insert width depth) by (assumption || lia).
    destruct (Z.eqb_spec x (cur_x c)) as [->|Hnx]; cbn [andb].
    - destruct (Z.eqb_spec z (cur_z c)) as [->|Hnz].
      + replace (cur_x c * depth + cur_z c <? cur_x c * depth + cur_z c + 1) with true
          by (symmetry; apply Z.ltb_lt; lia).
        rewrite app_nth2 by nia.
        replace (Z.to_nat (cur_x c * depth + cur_z c) - length ws)%nat with 0%nat by lia.
        reflexivity.
      + rewrite (Hcells _ _ Hxr Hzr).
        destruct (Z.ltb_spec (cur_x c * depth + z) (cur_x c * depth + cur_z c)).
        * replace (cur_x c * depth + z <? cur_x c * depth + cur_z c + 1) with true
            by (symmetry; apply Z.ltb_lt; lia).
          rewrite app_nth1 by nia. reflexivity.
        * replace (cur_x c * depth + z <? cur_x c * depth + cur_z c + 1) with false
            by (symmetry; apply Z.ltb_ge; lia).
          reflexivity.
    - rewrite (Hcells _ _ Hxr Hzr).
      destruct (Z.ltb_spec (x * depth + z) (cur_x c * depth + cur_z c)).
      + replace (x * depth + z <? cur_x c * depth + cur_z c + 1) with true
          by (symmetry; apply Z.ltb_lt; lia).
        rewrite app_nth1 by nia. reflexivity.
      + replace (x * depth + z <? cur_x c * depth + cur_z c + 1) with false
          by (symmetry; apply Z.ltb_ge; nia).
        reflexivity. }
  destruct (Z.leb_spec depth (cur_z c + 1)) as [Hwrap|Hstay]; cbn [fill].
  - eexists. split; [reflexivity|].
    split; [exact Hs'|]. cbn [cur_tiles cur_x cur_z].
    split; [lia|]. split; [lia|]. split; [lia|]. split.
    + rewrite length_app. cbn [length]. nia.
    + intros x z Hxr Hzr. rewrite (Hcells' x z Hxr Hzr).
      replace ((cur_x c + 1) * depth + 0) with (cur_x c * depth + cur_z c + 1) by nia.
      reflexivity.
  - eexists. split; [reflexivity|].
    split; [exact Hs'|]. cbn [cur_tiles cur_x cur_z].
    split; [lia|]. split; [lia|]. split; [lia|]. split.
    + rewrite length_app. cbn [length]. nia.
    + intros x z Hxr Hzr. rewrite (Hcells' x z Hxr Hzr).
      replace (cur_x c * depth + (cur_z c + 1)) with (cur_x c * depth + cur_z c + 1) by lia.
      reflexivity.
Qed.

Lemma fill_S (count : nat) (value width depth : Z) (c : cursor) :
  fill (S count) value width depth c =
    (c1 <- fill 1 value width depth c ;; fill count value width depth c1).
Proof.
  cbn [fill].
  destruct ((cur_x c <? width) && (cur_z c <? depth)); [|reflexivity].
  destruct (setitem2 (cur_tiles c) (cur_x c) (cur_z c) value); cbn [bind]; [|reflexivity].
  destruct (depth <=? cur_z c + 1); reflexivity.
Qed.

Lemma fill_written (count : nat) (value width depth : Z) :
  forall c ws, written width depth c ws ->
  exists c', fill count value width depth c = Ok c' /\
             written width depth c' (ws ++ repeat value count).
Proof.
  induction count as [|n IH]; intros c ws Hw.
  - exists c. cbn. rewrite app_nil_r. auto.
  - rewrite fill_S.
    destruct (written_step value width depth c ws Hw) as [c1 [E1 Hw1]].
    rewrite E1. cbn [bind repeat].
    destruct (IH c1 _ Hw1) as [c' [E' Hw']].
    exists c'. split; [exact E'|].
    rewrite <- app_assoc in Hw'. exact Hw'.
Qed.

Lemma rle_loop_written (width depth : Z) (k : nat) :
  forall bs c ws, (length bs <= k)%nat -> written width depth c ws ->
  exists c', rle_loop bs width depth c = Ok c' /\
             written width depth c' (ws ++ rle_expand bs).
Proof.
  induction k as [|k IH]; intros bs c ws Hk Hw.
  - destruct bs; [|cbn in Hk; lia]. exists c. cbn. rewrite app_nil_r. auto.
  - destruct bs as [|value rest]; [exists c; cbn; rewrite app_nil_r; auto|].
    cbn [rle_loop rle_expand].
    destruct (cur_x c <? width) eqn:Ex.
    2:{ exists c. split; [reflexivity|]. apply written_full; [assumption|].
        destruct Hw as (_ & Hx & _). apply Z.ltb_ge in Ex. lia. }
    destruct rest as [|sentinel rest'].
    { apply (fill_written 1); assumption. }
    destruct (Byte.eqb sentinel xff).
    + destruct rest' as [|count rest''].
      { apply (fill_written 1); assumption. }
      destruct (fill_written (N.to_nat (Byte.to_N count)) (byte_val value) width depth c ws Hw)
        as [c1 [E1 Hw1]].
      rewrite E1.
      destruct (IH rest'' c1 _ ltac:(cbn in Hk; lia) Hw1) as [c' [E' Hw']].
      exists c'. split; [exact E'|]. rewrite <- app_assoc in Hw'. exact Hw'.
    + destruct (fill_written 1 (byte_val value) width depth c ws Hw) as [c1 [E1 Hw1]].
      rewrite E1.
      destruct (IH (sentinel :: rest') c1 _ ltac:(cbn in Hk; cbn; lia) Hw1) as [c' [E' Hw']].
      exists c'. split; [exact E'|]. rewrite <- app_assoc in Hw'. exact Hw'.
Qed.

Lemma blank_grid_written (width depth : Z) :
  0 < width -> 0 < depth ->
  written width depth (Cursor (blank_grid width depth) 0 0) [].
Proof.
  intros Hw Hd. split; [apply blank_grid_shaped|]. cbn [cur_tiles cur_x cur_z length].
  split; [lia|]. split; [lia|]. split; [lia|]. split; [lia|].
  intros x z Hx Hz.
  destruct (getitem2_shaped width depth (blank_grid width depth) x z)
    as [row [v [Hrow [Hv Hget]]]]; try assumption; [apply blank_grid_shaped|].
  rewrite Hget. f_equal.
  replace (x * depth + z <? 0 * depth + 0) with false by (symmetry; apply Z.ltb_ge; nia).
  unfold blank_grid in Hrow.
  apply list_elem_of_lookup_2, list_elem_of_In, repeat_spec in Hrow. subst row.
  apply list_elem_of_lookup_2, list_elem_of_In, repeat_spec in Hv. exact Hv.
Qed.

(** The cell at [(x, z)] holds the value at linear index [x * depth + z] of
    the expanded stream, and 0 past its end. *)
Lemma rle_decode_cells (bs : list byte) (width depth : Z) :
  exists tiles, rle_decode bs width depth = Ok tiles /\ shaped width depth tiles /\
    forall x z, 0 <= x < width -> 0 <= z < depth ->
      getitem2 tiles x z = Ok (nth (Z.to_nat (x * depth + z)) (rle_expand bs) 0).
Proof.
  destruct (rle_decode_shaped bs width depth) as [tiles [E Hs]].
  exists tiles. split; [exact E|]. split; [exact Hs|].
  intros x z Hx Hz.
  destruct (rle_loop_written width depth (length bs) bs
              (Cursor (blank_grid width depth) 0 0) [] (le_n _))
    as [c [Ec Hw]]; [apply blank_grid_written; lia|].
  unfold rle_decode in E. rewrite Ec in E. cbn in E. injection E as <-.
  destruct Hw as (_ & Hcx & Hcz & _ & Hk & Hcells).
  rewrite (Hcells x z Hx Hz). f_equal. cbn [app] in *.
  destruct (Z.ltb_spec (x * depth + z) (cur_x c * depth + cur_z c)); [reflexivity|].
  symmetry. apply nth_overflow. nia.
Qed.

(** ** The floor indexer *)

Lemma in_range (n z : Z) : In z (range n) <-> 0 <= z < n.
Proof.
  unfold range. rewrite in_map_iff. split.
  - intros [k [<- Hk]]. apply in_seq in Hk. lia.
  - intros Hz. exists (Z.to_nat z). split; [lia|]. apply in_seq. lia.
Qed.

Lemma scan_row_spec (width depth : Z) (tiles : grid) (x : Z) :
  shaped width depth tiles -> 0 <= x < width ->
  forall zs acc, (forall z, In z zs -> 0 <= z < depth) ->
  exists out, scan_row tiles x zs acc = Ok out /\
    forall p, In p out <->
      In p acc \/ (fst p = x /\ In (snd p) zs /\ floor_cell tiles p).
Proof.
  intros Hs Hx. induction zs as [|z zs IH]; intros acc Hzs; cbn [scan_row].
  - exists acc. split; [reflexivity|]. intros p. cbn. tauto.
  - destruct (getitem2_shaped width depth tiles x z Hs Hx) as [row [v [_ [_ Hget]]]].
    { apply Hzs. now left. }
    rewrite Hget. cbn [bind].
    destruct (IH (if v =? 1 then acc ++ [(x, z)] else acc)) as [out [E Hout]].
    { intros z' Hz'. apply Hzs. now right. }
    exists out. split; [exact E|]. intros p. rewrite Hout. unfold floor_cell.
    destruct p as [px pz]. cbn [fst snd In].
    destruct (Z.eqb_spec v 1) as [->|Hv].
    + rewrite in_app_iff. cbn [In]. split.
      * intros [[H|[H|[]]]|H]; [tauto| |tauto].
        injection H as <- <-. right. tauto.
      * intros [H|[-> [[<-|H] Hf]]]; [tauto| |tauto].
        left. right. now left.
    + split; [tauto|].
      intros [H|[-> [[<-|H] Hf]]]; [tauto| |tauto].
      rewrite Hget in Hf. congruence.
Qed.

Lemma scan_rows_spec (width depth : Z) (tiles : grid) :
  shaped width depth tiles ->
  forall xs acc, (forall x, In x xs -> 0 <= x < width) ->
  exists out, scan_rows tiles depth xs acc = Ok out /\
    forall p, In p out <->
      In p acc \/ (In (fst p) xs /\ 0 <= snd p < depth /\ floor_cell tiles p).
Proof.
  intros Hs. induction xs as [|x xs IH]; intros acc Hxs; cbn [scan_rows].
  - exists acc. split; [reflexivity|]. intros p. cbn. tauto.
  - destruct (scan_row_spec width depth tiles x Hs (Hxs x (or_introl eq_refl))
                (range depth) acc) as [mid [E1 Hmid]].
    { intros z. apply in_range. }
    rewrite E1. cbn [bind].
    destruct (IH mid) as [out [E2 Hout]].
    { intros x' Hx'. apply Hxs. now right. }
    exists out. split; [exact E2|]. intros p. rewrite Hout, Hmid, in_range.
    cbn [In]. split.
    + intros [[H|[H1 [H2 H3]]]|H]; [tauto| |tauto]. right. auto.
    + intros [H|[[H|H] [H2 H3]]]; [tauto| |tauto]. left. right. auto.
Qed.

(** [find_floor_positions] returns, for a grid of the given shape, exactly
    the in-range cells holding code 1. *)
Lemma find_floor_positions_spec (width depth : Z) (tiles : grid) :
  shaped width depth tiles ->
  exists floor, find_floor_positions tiles width depth = Ok floor /\
    forall p, In p floor <->
      0 <= fst p < width /\ 0 <= snd p < depth /\ floor_cell tiles p.
Proof.
  intros Hs. unfold find_floor_positions.
  destruct (scan_rows_spec width depth tiles Hs (range width) [])
    as [floor [E Hfloor]].
  { intros x. apply in_range. }
  exists floor. split; [exact E|]. intros p. rewrite Hfloor, in_range. cbn [In]. tauto.
Qed.

(** ** Distances and the clearance check *)

Lemma distance_from_pair (p q : pos) :
  distance_from_spawn p (Pair q) = Ok (euclid p q).
Proof. destruct q as [a b]. reflexivity. Qed.

Lemma distance_from_scalar (p : pos) (n : Z) :
  distance_from_spawn p (Scalar n) = Raise TypeError.
Proof. reflexivity. Qed.

Lemma euclid_sym (p q : pos) : radicand (euclid p q) = radicand (euclid q p).
Proof. unfold euclid. cbn [radicand]. nia. Qed.

Lemma root_lt_literal (r : root) (k : Z) :
  0 < k -> root_lt r k = (radicand r <? k * k).
Proof.
  intros Hk. unfold root_lt.
  replace (0 <? k) with true by (symmetry; apply Z.ltb_lt; exact Hk). reflexivity.
Qed.

Lemma root_gt_literal (r : root) (k : Z) :
  0 <= k -> root_gt r k = (k * k <? radicand r).
Proof.
  intros Hk. unfold root_gt.
  replace (k <? 0) with false by (symmetry; apply Z.ltb_ge; exact Hk). reflexivity.
Qed.

Lemma root_ge_literal (r : root) (k : Z) :
  0 < k -> root_ge r k <-> k * k <= radicand r.
Proof. unfold root_ge. intros Hk. split; [intros [H|H]; [lia|exact H]|now right]. Qed.

Lemma root_lt_false (r : root) (k : Z) : root_lt r k = false <-> root_ge r k.
Proof.
  unfold root_lt, root_ge. rewrite andb_false_iff, !Z.ltb_ge. reflexivity.
Qed.

Lemma tier_range (dist : root) : 1 <= get_tier_for_distance dist <= 5.
Proof.
  unfold get_tier_for_distance.
  repeat match goal with |- context [root_lt ?d ?k] => destruct (root_lt d k) end; lia.
Qed.

Lemma is_position_clear_scalar (p : pos) (n : Z) (more : list entry) (min_dist : Z) :
  is_position_clear p (Scalar n :: more) min_dist = Raise TypeError.
Proof. reflexivity. Qed.

Lemma is_position_clear_true (p : pos) (min_dist : Z) (placed : list entry) :
  is_position_clear p placed min_dist = Ok true ->
  forall e, In e placed -> exists q, e = Pair q /\ root_ge (euclid p q) min_dist.
Proof.
  induction placed as [|existing more IH]; cbn [is_position_clear In]; [tauto|].
  intros H e He.
  destruct existing as [n|q]; [discriminate|].
  rewrite distance_from_pair in H. cbn [bind] in H.
  destruct (root_lt (euclid p q) min_dist) eqn:E; [discriminate|].
  destruct He as [<-|He].
  - exists q. split; [reflexivity|]. now apply root_lt_false.
  - now apply IH.
Qed.

Lemma registered_far (min_dist : Z) (placed : list entry) (cells : list pos) :
  registered min_dist placed cells ->
  apart min_dist cells /\
  forall c q, In c cells -> In (Pair q) placed -> root_ge (euclid c q) min_dist.
Proof.
  induction 1 as [placed|placed p cells Hclear Hreg [IHa IHf]].
  - split; [constructor|]. intros c q [].
  - split.
    + constructor; [|exact IHa].
      apply Forall_forall. intros c Hc. apply list_elem_of_In in Hc.
      unfold root_ge. rewrite euclid_sym. apply (IHf c p Hc).
      apply in_or_app. right. now left.
    + intros c q [<-|Hc] Hq.
      * destruct (is_position_clear_true _ _ _ Hclear _ Hq) as [q' [Heq Hge]].
        injection Heq as <-. exact Hge.
      * apply (IHf c q Hc). apply in_or_app. now left.
Qed.

Lemma slice_from_incl {A : Type} (k : nat) (l : list A) :
  forall skip a, In a (slice_from k skip l) -> In a l.
Proof.
  induction l as [|b l IH]; intros skip a; cbn [slice_from]; [tauto|].
  destruct skip as [|skip'].
  - intros [<-|H]; [now left|right; eauto].
  - intros H. right. eauto.
Qed.

(** [l[::k]] holds the elements of [l] at the indices 0, [k], [2 * k], ... *)
Lemma slice_from_stride {A : Type} (k : nat) :
  (1 <= k)%nat ->
  forall (l : list A) skip i, slice_from k skip l !! i = l !! (skip + k * i)%nat.
Proof.
  intros Hk. induction l as [|b l IH]; intros skip i; cbn [slice_from]; [reflexivity|].
  destruct skip as [|skip'].
  - destruct i as [|i'].
    + now rewrite Nat.mul_0_r.
    + cbn [lookup list_lookup]. rewrite IH.
      replace (0 + k * S i')%nat with (S (k - 1 + k * i')) by lia. reflexivity.
  - rewrite IH. reflexivity.
Qed.

Lemma slice_step_stride {A : Type} (k : nat) (l : list A) (i : nat) :
  (1 <= k)%nat -> slice_step k l !! i = l !! (k * i)%nat.
Proof. intros Hk. unfold slice_step. now rewrite slice_from_stride. Qed.

(** ** The placement loops *)

Section Placement.

Variable R : RandomSource.
Abbreviation rng := (rs_state R).

Lemma uniform_range (a b : Q) (g : rng) :
  (a <= b)%Q -> (a <= fst (uniform R a b g) /\ fst (uniform R a b g) <= b)%Q.
Proof.
  intros Hab. unfold uniform.
  pose proof (rs_random_range R g) as [H0 H1].
  destruct (rs_random R g) as [u g']. cbn [fst] in *.
  split; nra.
Qed.

(** What one run of the Phase-A loop does to the locals. *)
Lemma place_monsters_post (target : nat) (spawn_pos : pos) :
  forall floor_positions (st st' : state rng),
  place_monsters R floor_positions target spawn_pos st = Ok st' ->
  exists cells es,
    placed_positions st' = placed_positions st ++ map Pair cells /\
    registered 5 (placed_positions st) cells /\
    new_enemies st' = new_enemies st ++ es /\
    map en_position es = cells /\
    (forall c, In c cells -> In c floor_positions) /\
    new_props st' = new_props st /\
    monsters_placed st' = (monsters_placed st + length cells)%nat /\
    ((monsters_placed st <= target)%nat -> (monsters_placed st' <= target)%nat) /\
    props_placed st' = props_placed st /\
    groups_placed st' = groups_placed st.
Proof.
  induction floor_positions as [|p rest IH]; intros st st' H; cbn [place_monsters] in H.
  - injection H as <-. exists [], []. cbn. rewrite !app_nil_r.
    repeat split; try tauto; try lia. constructor.
  - destruct (target <=? monsters_placed st)%nat eqn:Et.
    { injection H as <-. exists [], []. cbn. rewrite !app_nil_r.
      repeat split; try tauto; try lia. constructor. }
    apply Nat.leb_gt in Et.
    rewrite distance_from_pair in H. cbn [bind] in H.
    assert (Hskip : place_monsters R rest target spawn_pos st = Ok st' ->
              exists cells es,
                placed_positions st' = placed_positions st ++ map Pair cells /\
                registered 5 (placed_positions st) cells /\
                new_enemies st' = new_enemies st ++ es /\
                map en_position es = cells /\
                (forall c, In c cells -> In c (p :: rest)) /\
                new_props st' = new_props st /\
                monsters_placed st' = (monsters_placed st + length cells)%nat /\
                ((monsters_placed st <= target)%nat -> (monsters_placed st' <= target)%nat) /\
                props_placed st' = props_placed st /\
                groups_placed st' = groups_placed st).
    { intros H'. destruct (IH _ _ H') as (cells & es & H1 & H2 & H3 & H4 & H5 & H6).
      exists cells, es. repeat split; try tauto. intros c Hc. right. now apply H5. }
    destruct (root_lt (euclid p spawn_pos) 15); [now apply Hskip|].
    destruct (is_position_clear p (placed_positions st) 5) as [[|]|] eqn:Eclear;
      cbn [bind negb] in H; [|now apply Hskip|discriminate].
    destruct (choice R _ (gen st)) as [r|] eqn:Echoice; cbn [bind] in H; [|discriminate].
    destruct (boss_override R _ (fst r) (snd r)) as [[[monster_type is_boss] g2]|];
      cbn [bind] in H; [|discriminate].
    destruct (uniform R 0 (628 # 100) g2) as [rotation g3].
    destruct (IH _ _ H) as (cells & es & H1 & H2 & H3 & H4 & H5 & H6 & H7 & H8 & H9 & H10).
    cbn [placed_positions new_enemies new_props monsters_placed props_placed
           groups_placed] in *.
    exists (p :: cells),
      (Enemy monster_type (-1) p (Z.max 1 (get_tier_for_distance (euclid p spawn_pos)))
         is_boss rotation :: es).
    cbn [map length en_position].
    split; [rewrite H1, <- app_assoc; reflexivity|].
    split; [now constructor|].
    split; [rewrite H3, <- app_assoc; reflexivity|].
    split; [now rewrite H4|].
    split; [intros c [<-|Hc]; [now left|right; now apply H5]|].
    repeat split; try assumption; lia.
Qed.

(** What one run of the Phase-B loop does to the locals. *)
Lemma place_props_post (target : nat) (spawn_pos : pos) :
  forall floor_positions (st st' : state rng),
  place_props R floor_positions target spawn_pos st = Ok st' ->
  exists cells ps,
    placed_positions st' = placed_positions st ++ map Pair cells /\
    registered 2 (placed_positions st) cells /\
    new_props st' = new_props st ++ ps /\
    Forall2 on_cell ps cells /\
    (forall c, In c cells -> In c floor_positions) /\
    new_enemies st' = new_enemies st /\
    props_placed st' = (props_placed st + length cells)%nat /\
    ((props_placed st <= target)%nat -> (props_placed st' <= target)%nat) /\
    monsters_placed st' = monsters_placed st /\
    groups_placed st' = groups_placed st.
Proof.
  induction floor_positions as [|p rest IH]; intros st st' H; cbn [place_props] in H.
  - injection H as <-. exists [], []. cbn. rewrite !app_nil_r.
    repeat split; try tauto; try lia; constructor.
  - destruct (target <=? props_placed st)%nat eqn:Et.
    { injection H as <-. exists [], []. cbn. rewrite !app_nil_r.
      repeat split; try tauto; try lia; constructor. }
    apply Nat.leb_gt in Et.
    rewrite distance_from_pair in H. cbn [bind] in H.
    destruct (is_position_clear p (placed_positions st) 2) as [[|]|] eqn:Eclear;
      cbn [bind negb] in H; [| |discriminate].
    2:{ destruct (IH _ _ H) as (cells & ps & H1 & H2 & H3 & H4 & H5 & H6).
        exists cells, ps. repeat split; try tauto. intros c Hc. right. now apply H5. }
    destruct (choice R _ (gen st)) as [r|] eqn:Echoice; cbn [bind] in H; [|discriminate].
    pose proof (uniform_range (- (3 # 10)) (3 # 10) (snd r) ltac:(lra)) as Hjx.
    destruct (uniform R (- (3 # 10)) (3 # 10) (snd r)) as [jx g2]. cbn [fst] in Hjx.
    pose proof (uniform_range (- (3 # 10)) (3 # 10) g2 ltac:(lra)) as Hjz.
    destruct (uniform R (- (3 # 10)) (3 # 10) g2) as [jz g3]. cbn [fst] in Hjz.
    destruct (uniform R 0 (628 # 100) g3) as [rotation g4].
    destruct (uniform R (8 # 10) (12 # 10) g4) as [scale g5].
    destruct (IH _ _ H) as (cells & ps & H1 & H2 & H3 & H4 & H5 & H6 & H7 & H8 & H9 & H10).
    cbn [placed_positions new_enemies new_props monsters_placed props_placed
           groups_placed] in *.
    exists (p :: cells),
      (Prop_ (fst r) (inject_Z (fst p) + jx)%Q 0%Q (inject_Z (snd p) + jz)%Q
         rotation scale :: ps).
    cbn [map length].
    split; [rewrite H1, <- app_assoc; reflexivity|].
    split; [now constructor|].
    split; [rewrite H3, <- app_assoc; reflexivity|].
    split.
    { constructor; [|exact H4]. unfold on_cell. cbn [pr_x pr_z]. repeat split; lra. }
    split; [intros c [<-|Hc]; [now left|right; now apply H5]|].
    repeat split; try assumption; lia.
Qed.

(** The member loop only appends monsters that stand on a floor cell inside
    the grid, none of them a boss, all at the level given by [tier]. *)
Lemma place_cluster_post (tiles : grid) (width depth : Z) (p : pos) (tier : Z)
    (monster_pool : list string) :
  forall cluster_size enemies g enemies' g',
  place_cluster R cluster_size tiles width depth p tier monster_pool enemies g
    = Ok (enemies', g') ->
  exists members,
    enemies' = enemies ++ members /\
    Forall (fun e =>
              0 <= fst (en_position e) < width /\
              0 <= snd (en_position e) < depth /\
              floor_cell tiles (en_position e) /\
              en_isBoss e = false /\
              en_level e = Z.max 1 tier) members.
Proof.
  induction cluster_size as [|n IH]; intros enemies g enemies' g' H;
    cbn [place_cluster] in H.
  - injection H as <- <-. exists []. rewrite app_nil_r. split; [reflexivity|constructor].
  - destruct (uniform R (- 4) 4 g) as [offset_x g1].
    destruct (uniform R (- 4) 4 g1) as [offset_z g2].
    cbn [fst snd] in H.
    set (mx := py_int (inject_Z (fst p) + offset_x)) in *.
    set (mz := py_int (inject_Z (snd p) + offset_z)) in *.
    destruct ((mx <? 0) || (width <=? mx)) eqn:Ex; [now apply IH in H|].
    destruct ((mz <? 0) || (depth <=? mz)) eqn:Ez; [now apply IH in H|].
    apply orb_false_iff in Ex, Ez.
    destruct (getitem2 tiles mx mz) as [t|] eqn:Et; cbn [bind] in H; [|discriminate].
    destruct (Z.eqb_spec t 1) as [->|Hne]; cbn [negb] in H; [|now apply IH in H].
    destruct (choice R monster_pool g2) as [r|]; cbn [bind] in H; [|discriminate].
    destruct (uniform R 0 (628 # 100) (snd r)) as [rotation g4].
    destruct (IH _ _ _ _ H) as (members & -> & Hall).
    exists (Enemy (fst r) (-1) (mx, mz) (Z.max 1 tier) false rotation :: members).
    split; [now rewrite <- app_assoc|].
    constructor; [|exact Hall].
    cbn [en_position en_isBoss en_level fst snd]. unfold floor_cell. cbn [fst snd].
    repeat split; try assumption; lia.
Qed.

(** What one run of the Phase-C loop does to the locals. *)
Lemma place_groups_post (tiles : grid) (width depth : Z) (target : nat)
    (spawn_pos : pos) :
  forall anchors (st st' : state rng),
  place_groups R tiles width depth anchors target spawn_pos st = Ok st' ->
  exists cells members,
    placed_positions st' = placed_positions st ++ map Pair cells /\
    registered 10 (placed_positions st) cells /\
    new_enemies st' = new_enemies st ++ members /\
    Forall (fun e => exists anchor, In anchor cells /\
                       cluster_member tiles width depth spawn_pos anchor e) members /\
    (forall c, In c cells -> In c anchors) /\
    new_props st' = new_props st /\
    groups_placed st' = (groups_placed st + length cells)%nat /\
    ((groups_placed st <= target)%nat -> (groups_placed st' <= target)%nat) /\
    monsters_placed st' = monsters_placed st /\
    props_placed st' = props_placed st.
Proof.
  induction anchors as [|p rest IH]; intros st st' H; cbn [place_groups] in H.
  - injection H as <-. exists [], []. cbn. rewrite !app_nil_r.
    repeat split; try tauto; try lia; constructor.
  - destruct (target <=? groups_placed st)%nat eqn:Et.
    { injection H as <-. exists [], []. cbn. rewrite !app_nil_r.
      repeat split; try tauto; try lia; constructor. }
    apply Nat.leb_gt in Et.
    rewrite distance_from_pair in H. cbn [bind] in H.
    assert (Hskip : place_groups R tiles width depth rest target spawn_pos st = Ok st' ->
              exists cells members,
                placed_positions st' = placed_positions st ++ map Pair cells /\
                registered 10 (placed_positions st) cells /\
                new_enemies st' = new_enemies st ++ members /\
                Forall (fun e => exists anchor, In anchor cells /\
                       cluster_member tiles width depth spawn_pos anchor e) members /\
                (forall c, In c cells -> In c (p :: rest)) /\
                new_props st' = new_props st /\
                groups_placed st' = (groups_placed st + length cells)%nat /\
                ((groups_placed st <= target)%nat -> (groups_placed st' <= target)%nat) /\
                monsters_placed st' = monsters_placed st /\
                props_placed st' = props_placed st).
    { intros H'. destruct (IH _ _ H') as (cells & ms & H1 & H2 & H3 & H4 & H5 & H6).
      exists cells, ms. repeat split; try tauto. intros c Hc. right. now apply H5. }
    destruct (root_lt (euclid p spawn_pos) 40); [now apply Hskip|].
    destruct (is_position_clear p (placed_positions st) 10) as [[|]|] eqn:Eclear;
      cbn [bind negb] in H; [|now apply Hskip|discriminate].
    destruct (randint R 3 5 (gen st)) as [cluster_size g1].
    destruct (place_cluster R _ tiles width depth p _ _ (new_enemies st) g1)
      as [[enemies' g']|] eqn:Ecluster; cbn [bind fst snd] in H; [|discriminate].
    destruct (place_cluster_post _ _ _ _ _ _ _ _ _ _ _ Ecluster) as (ms1 & -> & Hms1).
    destruct (IH _ _ H) as (cells & ms & H1 & H2 & H3 & H4 & H5 & H6 & H7 & H8 & H9 & H10).
    cbn [placed_positions new_enemies new_props monsters_placed props_placed
           groups_placed] in *.
    exists (p :: cells), (ms1 ++ ms).
    cbn [map length].
    split; [rewrite H1, <- app_assoc; reflexivity|].
    split; [now constructor|].
    split; [rewrite H3, <- app_assoc; reflexivity|].
    split.
    { apply Forall_app. split.
      - eapply Forall_impl; [exact Hms1|]. cbn beta.
        intros e (Hx & Hz & Hf & Hb & Hl).
        exists p. split; [now left|].
        split; [exact Hx|]. split; [exact Hz|]. split; [exact Hf|]. split; [exact Hb|].
        rewrite Hl. pose proof (tier_range (euclid p spawn_pos)). lia.
      - eapply Forall_impl; [exact H4|]. cbn beta.
        intros e (a & Ha & Hm). exists a. split; [now right|exact Hm]. }
    split; [intros c [<-|Hc]; [now left|right; now apply H5]|].
    repeat split; try assumption; lia.
Qed.

(** The three loops together. *)
Lemma place_post (tiles : grid) (width depth : Z) (floor_positions : list pos)
    (spawn_pos : pos) (placed : list entry) (g : rng) (r : run rng) :
  place R tiles width depth floor_positions spawn_pos placed g = Ok r ->
  let n := length floor_positions in
  exists monster_cells prop_cells anchors members,
    (* Phase A *)
    placed_positions (after_monsters r) = placed ++ map Pair monster_cells /\
    registered 5 placed monster_cells /\
    map en_position (new_enemies (after_monsters r)) = monster_cells /\
    monsters_placed (after_monsters r) = length monster_cells /\
    (length monster_cells <= n / 100)%nat /\
    (forall c, In c monster_cells -> In c floor_positions) /\
    (* Phase B *)
    placed_positions (after_props r) = placed_positions (after_monsters r) ++ map Pair prop_cells /\
    registered 2 (placed ++ map Pair monster_cells) prop_cells /\
    Forall2 on_cell (new_props (after_props r)) prop_cells /\
    props_placed (after_props r) = length prop_cells /\
    (length prop_cells <= n / 50)%nat /\
    (forall c, In c prop_cells -> In c floor_positions) /\
    (* Phase C *)
    placed_positions (after_groups r) =
      placed ++ map Pair monster_cells ++ map Pair prop_cells ++ map Pair anchors /\
    registered 10 (placed ++ map Pair monster_cells ++ map Pair prop_cells) anchors /\
    new_enemies (after_groups r) = new_enemies (after_monsters r) ++ members /\
    Forall (fun e => exists anchor, In anchor anchors /\
                       cluster_member tiles width depth spawn_pos anchor e) members /\
    new_props (after_groups r) = new_props (after_props r) /\
    groups_placed (after_groups r) = length anchors /\
    (length anchors <= Nat.min 20 (n / 500))%nat /\
    (forall c, In c anchors -> In c floor_positions).
Proof.
  intros H n. unfold place in H.
  pose proof (rs_shuffle_perm R floor_positions g) as Hperm.
  destruct (rs_shuffle R floor_positions g) as [shuffled g0]. cbn [fst] in Hperm.
  assert (Hn : length shuffled = n) by (symmetry; apply Permutation_length, Hperm).
  assert (Hin : forall c, In c shuffled -> In c floor_positions).
  { intros c Hc. eapply Permutation_in; [apply Permutation_sym, Hperm|exact Hc]. }
  rewrite Hn in H.
  destruct (place_monsters R shuffled _ spawn_pos _) as [a|] eqn:Ea;
    cbn [bind] in H; [|discriminate].
  destruct (place_props R shuffled _ spawn_pos a) as [b|] eqn:Eb;
    cbn [bind] in H; [|discriminate].
  destruct (place_groups R tiles width depth _ _ spawn_pos b) as [c|] eqn:Ec;
    cbn [bind] in H; [|discriminate].
  injection H as <-. cbn [after_monsters after_props after_groups].
  destruct (place_monsters_post _ _ _ _ _ Ea)
    as (mc & es & A1 & A2 & A3 & A4 & A5 & A6 & A7 & A8 & A9 & A10).
  destruct (place_props_post _ _ _ _ _ Eb)
    as (pc & ps & B1 & B2 & B3 & B4 & B5 & B6 & B7 & B8 & B9 & B10).
  destruct (place_groups_post _ _ _ _ _ _ _ _ Ec)
    as (gc & ms & C1 & C2 & C3 & C4 & C5 & C6 & C7 & C8 & C9 & C10).
  cbn [placed_positions new_enemies new_props monsters_placed props_placed
         groups_placed app] in *.
  exists mc, pc, gc, ms.
  split; [exact A1|].
  split; [exact A2|].
  split; [rewrite A3; exact A4|].
  split; [lia|].
  split; [lia|].
  split; [auto|].
  split; [exact B1|].
  split; [rewrite <- A1; exact B2|].
  split; [rewrite B3, A6; exact B4|].
  split; [lia|].
  split; [lia|].
  split; [auto|].
  split; [rewrite C1, B1, A1, <- !app_assoc; reflexivity|].
  split; [rewrite app_assoc, <- A1, <- B1; exact C2|].
  split; [rewrite C3, B6; reflexivity|].
  split; [exact C4|].
  split; [exact C6|].
  split; [lia|].
  split; [lia|].
  intros c' Hc'. apply Hin. eapply slice_from_incl. apply C5, Hc'.
Qed.

(** The run of the engine, loop by loop. *)
Lemma place_phases (tiles : grid) (width depth : Z) (floor_positions : list pos)
    (spawn_pos : pos) (placed : list entry) (g : rng) (r : run rng) :
  place R tiles width depth floor_positions spawn_pos placed g = Ok r ->
  exists shuffled g0,
    rs_shuffle R floor_positions g = (shuffled, g0) /\
    place_monsters R shuffled (length shuffled / 100)%nat spawn_pos
      (State placed [] [] 0 0 0 g0) = Ok (after_monsters r) /\
    place_props R shuffled (length shuffled / 50)%nat spawn_pos (after_monsters r)
      = Ok (after_props r) /\
    place_groups R tiles width depth (slice_step 50 shuffled)
      (Nat.min 20 (length shuffled / 500)) spawn_pos (after_props r)
      = Ok (after_groups r).
Proof.
  unfold place. intros H.
  destruct (rs_shuffle R floor_positions g) as [shuffled g0].
  exists shuffled, g0. split; [reflexivity|].
  destruct (place_monsters R shuffled _ spawn_pos _) as [a|]; cbn [bind] in H;
    [|discriminate].
  destruct (place_props R shuffled _ spawn_pos a) as [b|] eqn:Eb;
    cbn [bind] in H; [|discriminate].
  destruct (place_groups R tiles width depth _ _ spawn_pos b) as [c|] eqn:Ec;
    cbn [bind] in H; [|discriminate].
  injection H as <-. cbn [after_monsters after_props after_groups]. auto.
Qed.

(** The groups of Phase C one by one: the anchors are registered in the
    order of the loop, and every member stands with the group of the
    anchor it was drawn around. *)
Lemma place_groups_members (tiles : grid) (width depth : Z) (target : nat)
    (spawn_pos : pos) :
  forall anchors (st st' : state rng),
  place_groups R tiles width depth anchors target spawn_pos st = Ok st' ->
  exists groups : list (pos * list enemy),
    placed_positions st' = placed_positions st ++ map Pair (map fst groups) /\
    new_enemies st' = new_enemies st ++ concat (map snd groups) /\
    groups_placed st' = (groups_placed st + length groups)%nat /\
    sublist (map fst groups) anchors /\
    Forall (fun gr =>
              Forall (cluster_member tiles width depth spawn_pos (fst gr)) (snd gr))
      groups.
Proof.
  induction anchors as [|p rest IH]; intros st st' H; cbn [place_groups] in H.
  - injection H as <-. exists []. cbn. rewrite !app_nil_r.
    repeat split; try lia; constructor.
  - destruct (target <=? groups_placed st)%nat.
    { injection H as <-. exists []. cbn. rewrite !app_nil_r.
      repeat split; [lia|apply sublist_nil_l|constructor]. }
    rewrite distance_from_pair in H. cbn [bind] in H.
    assert (Hskip : place_groups R tiles width depth rest target spawn_pos st = Ok st' ->
              exists groups : list (pos * list enemy),
                placed_positions st' = placed_positions st ++ map Pair (map fst groups) /\
                new_enemies st' = new_enemies st ++ concat (map snd groups) /\
                groups_placed st' = (groups_placed st + length groups)%nat /\
                sublist (map fst groups) (p :: rest) /\
                Forall (fun gr =>
                          Forall (cluster_member tiles width depth spawn_pos (fst gr))
                            (snd gr)) groups).
    { intros H'. destruct (IH _ _ H') as (groups & H1 & H2 & H3 & H4 & H5).
      exists groups. split; [exact H1|]. split; [exact H2|]. split; [exact H3|].
      split; [now apply sublist_cons|exact H5]. }
    destruct (root_lt (euclid p spawn_pos) 40); [now apply Hskip|].
    destruct (is_position_clear p (placed_positions st) 10) as [[|]|];
      cbn [bind negb] in H; [|now apply Hskip|discriminate].
    destruct (randint R 3 5 (gen st)) as [cluster_size g1].
    destruct (place_cluster R _ tiles width depth p _ _ (new_enemies st) g1)
      as [[enemies' g']|] eqn:Ecluster; cbn [bind fst snd] in H; [|discriminate].
    destruct (place_cluster_post _ _ _ _ _ _ _ _ _ _ _ Ecluster) as (ms & -> & Hms).
    destruct (IH _ _ H) as (groups & H1 & H2 & H3 & H4 & H5).
    cbn [placed_positions new_enemies groups_placed] in H1, H2, H3.
    exists ((p, ms) :: groups). cbn [map fst snd concat length].
    split; [rewrite H1, <- app_assoc; reflexivity|].
    split; [rewrite H2, <- !app_assoc; reflexivity|].
    split; [lia|].
    split; [now apply sublist_skip|].
    constructor; [|exact H5]. cbn [fst snd].
    eapply Forall_impl; [exact Hms|]. cbn beta.
    intros e (Hx & Hz & Hf & Hb & Hl). unfold cluster_member.
    pose proof (tier_range (euclid p spawn_pos)) as Htier.
    split; [exact Hx|]. split; [exact Hz|]. split; [exact Hf|]. split; [exact Hb|]. lia.
Qed.

(** A register that begins with a bare integer: Phase A either stops
    without placing anything or fails in its first clearance check. *)
Lemma place_monsters_scalar (target : nat) (spawn_pos : pos) (n : Z) (more : list entry) :
  forall floor_positions (st : state rng),
  placed_positions st = Scalar n :: more ->
  place_monsters R floor_positions target spawn_pos st = Ok st \/
  place_monsters R floor_positions target spawn_pos st = Raise TypeError.
Proof.
  induction floor_positions as [|p rest IH]; intros st Hst; cbn [place_monsters].
  - now left.
  - destruct (target <=? monsters_placed st)%nat; [now left|].
    rewrite distance_from_pair. cbn [bind].
    destruct (root_lt (euclid p spawn_pos) 15); [now apply IH|].
    rewrite Hst, is_position_clear_scalar. now right.
Qed.

(** Phase B fails in its first clearance check. *)
Lemma place_props_scalar (target : nat) (spawn_pos : pos) (n : Z) (more : list entry)
    (p : pos) (rest : list pos) (st : state rng) :
  placed_positions st = Scalar n :: more ->
  (props_placed st < target)%nat ->
  place_props R (p :: rest) target spawn_pos st = Raise TypeError.
Proof.
  intros Hst Ht. cbn [place_props].
  apply Nat.leb_gt in Ht. rewrite Ht.
  rewrite distance_from_pair. cbn [bind].
  rewrite Hst, is_position_clear_scalar. reflexivity.
Qed.

Lemma place_monsters_done (floor_positions : list pos) (target : nat)
    (spawn_pos : pos) (st : state rng) :
  (target <= monsters_placed st)%nat ->
  place_monsters R floor_positions target spawn_pos st = Ok st.
Proof.
  intros Ht. destruct floor_positions; cbn [place_monsters]; [reflexivity|].
  apply Nat.leb_le in Ht. now rewrite Ht.
Qed.

Lemma place_props_done (floor_positions : list pos) (target : nat)
    (spawn_pos : pos) (st : state rng) :
  (target <= props_placed st)%nat ->
  place_props R floor_positions target spawn_pos st = Ok st.
Proof.
  intros Ht. destruct floor_positions; cbn [place_props]; [reflexivity|].
  apply Nat.leb_le in Ht. now rewrite Ht.
Qed.

Lemma place_groups_done (tiles : grid) (width depth : Z) (anchors : list pos)
    (target : nat) (spawn_pos : pos) (st : state rng) :
  (target <= groups_placed st)%nat ->
  place_groups R tiles width depth anchors target spawn_pos st = Ok st.
Proof.
  intros Ht. destruct anchors; cbn [place_groups]; [reflexivity|].
  apply Nat.leb_le in Ht. now rewrite Ht.
Qed.

(** With 50 floor cells or more and a register that begins with a bare
    integer, the engine raises [TypeError]. *)
Lemma place_scalar_raises (tiles : grid) (width depth : Z) (floor_positions : list pos)
    (spawn_pos : pos) (n : Z) (more : list entry) (g : rng) :
  (50 <= length floor_positions)%nat ->
  place R tiles width depth floor_positions spawn_pos (Scalar n :: more) g
    = Raise TypeError.
Proof.
  intros Hlen. unfold place.
  pose proof (rs_shuffle_perm R floor_positions g) as Hperm.
  destruct (rs_shuffle R floor_positions g) as [shuffled g0]. cbn [fst] in Hperm.
  apply Permutation_length in Hperm. rewrite <- Hperm.
  destruct (place_monsters_scalar (length floor_positions / 100)%nat spawn_pos n more
              shuffled (State (Scalar n :: more) [] [] 0 0 0 g0) eq_refl) as [E|E];
    rewrite E; cbn [bind]; [|reflexivity].
  destruct shuffled as [|p rest]; [cbn in Hperm; lia|].
  rewrite (place_props_scalar _ spawn_pos n more); [reflexivity|reflexivity|].
  cbn [props_placed].
  pose proof (Nat.Div0.div_le_mono 50 (length floor_positions) 50 Hlen) as Hdiv.
  change (50 / 50)%nat with 1%nat in Hdiv. lia.
Qed.

(** With fewer than 50 floor cells every target is 0 and nothing is placed. *)
Lemma place_below_50 (tiles : grid) (width depth : Z) (floor_positions : list pos)
    (spawn_pos : pos) (placed : list entry) (g : rng) :
  (length floor_positions < 50)%nat ->
  let st := State placed [] [] 0 0 0 (snd (rs_shuffle R floor_positions g)) in
  place R tiles width depth floor_positions spawn_pos placed g = Ok (Run st st st).
Proof.
  intros Hlen st. subst st. unfold place.
  pose proof (rs_shuffle_perm R floor_positions g) as Hperm.
  destruct (rs_shuffle R floor_positions g) as [shuffled g0]. cbn [fst snd] in *.
  apply Permutation_length in Hperm. rewrite <- Hperm.
  rewrite !Nat.div_small by lia. cbn [Nat.min].
  rewrite place_monsters_done by (cbn; lia). cbn [bind].
  rewrite place_props_done by (cbn; lia). cbn [bind].
  rewrite place_groups_done by (cbn; lia). reflexivity.
Qed.

End Placement.

(** ** The floor list holds floor cells, whatever the grid *)




(** ** The register before placement *)

Lemma fold_append_pairs (enemies : list enemy) :
  forall placed : list entry,
  fold_left (fun placed e => placed ++ [Pair (en_position e)]) enemies placed =
    placed ++ map (fun e => Pair (en_position e)) enemies.
Proof.
  induction enemies as [|e enemies IH]; intros placed; cbn [fold_left map].
  - now rewrite app_nil_r.
  - rewrite IH, <- app_assoc. reflexivity.
Qed.

Lemma initial_positions_eq (map_data : document) :
  initial_positions map_data =
    list_of_tuple (spawn_of map_data) ++
    map (fun e => Pair (en_position e)) (get (doc_enemies map_data) []).
Proof. unfold initial_positions. apply fold_append_pairs. Qed.

Lemma register_as_specified_spawn_then (map_data : document) (placed : list entry) :
  register_as_specified map_data placed ->
  exists prop_cells : list pos,
    length prop_cells = length (get (doc_placedProps map_data) []) /\
    spawn_then (spawn_of map_data)
      (map en_position (get (doc_enemies map_data) []) ++ prop_cells) placed.
Proof.
  intros (prop_cells & Hlen & ->). exists prop_cells. split; [exact Hlen|].
  exists [Pair (spawn_of map_data)]. split.
  - rewrite map_app, map_map. reflexivity.
  - destruct (spawn_of map_data) as [sx sz]. reflexivity.
Qed.

Lemma initial_positions_spawn_then (map_data : document) :
  spawn_then (spawn_of map_data)
    (map en_position (get (doc_enemies map_data) [])) (initial_positions map_data).
Proof.
  exists (list_of_tuple (spawn_of map_data)). split; [|reflexivity].
  rewrite initial_positions_eq, map_map. reflexivity.
Qed.

Lemma spawn_then_pair (spawn_pos : pos) (cells : list pos) (placed : list entry) (q : pos) :
  spawn_then spawn_pos cells placed -> In (Pair q) placed -> q = spawn_pos \/ In q cells.
Proof.
  intros (spawn_entries & -> & Hc) Hq. destruct spawn_pos as [sx sz]. cbn [fst snd] in Hc.
  apply in_app_or in Hq. destruct Hq as [Hq|Hq].
  - left. destruct spawn_entries as [|[n|[a b]] more]; [destruct Hq| |].
    + destruct more as [|[m|[a b]] more']; cbn in Hc; [discriminate| |discriminate].
      destruct more' as [|[k|[a b]] more'']; cbn in Hc; [|discriminate|discriminate].
      destruct Hq as [Hq|[Hq|[]]]; discriminate.
    + destruct more as [|[m|[a' b']] more']; cbn in Hc; [|discriminate|discriminate].
      destruct Hq as [Hq|[]]. injection Hq as <-. now injection Hc as -> ->.
  - right. apply in_map_iff in Hq. destruct Hq as (c & Hc' & Hin). now injection Hc' as <-.
Qed.

(** ** On a register of position pairs the engine always returns *)

Lemma is_position_clear_pairs (p : pos) (min_dist : Z) (placed : list entry) :
  Forall is_pair placed -> exists b, is_position_clear p placed min_dist = Ok b.
Proof.
  induction 1 as [|e more [q ->] _ IH]; cbn [is_position_clear]; [eauto|].
  rewrite distance_from_pair. cbn [bind].
  destruct (root_lt (euclid p q) min_dist); [eauto|exact IH].
Qed.

Lemma apart_distinct (k : Z) (cells : list pos) :
  apart k cells ->
  forall p q, In p cells -> In q cells -> p <> q -> root_ge (euclid p q) k.
Proof.
  intros Ha p q Hp Hq Hne.
  destruct (ForallOrdPairs_In Ha p q Hp Hq) as [Heq|[H|H]];
    [contradiction|exact H|].
  unfold root_ge. rewrite euclid_sym. exact H.
Qed.

Section Totality.

Variable R : RandomSource.
Abbreviation rng := (rs_state R).

Lemma choice_returns (seq : list string) (g : rng) :
  seq <> [] -> exists r, choice R seq g = Ok r.
Proof.
  intros Hne. unfold choice. destruct seq as [|d seq]; [contradiction|].
  destruct (rs_randbelow R (length (d :: seq)) g). eauto.
Qed.

Lemma tier_pool_nonempty (tier : Z) : tier_pool tier <> [].
Proof.
  unfold tier_pool.
  repeat match goal with |- context [?a =? ?b] => destruct (a =? b) end; discriminate.
Qed.

Lemma prop_pool_nonempty (dist : root) : prop_pool dist <> [].
Proof.
  unfold prop_pool.
  repeat match goal with |- context [root_lt ?d ?k] => destruct (root_lt d k) end;
    discriminate.
Qed.

Lemma cluster_pool_nonempty (tier : Z) : cluster_pool tier <> [].
Proof.
  unfold cluster_pool.
  repeat match goal with |- context [?a <=? ?b] => destruct (a <=? b) end; discriminate.
Qed.

Lemma boss_override_returns (dist : root) (monster_type : string) (g : rng) :
  exists b, boss_override R dist monster_type g = Ok b.
Proof.
  unfold boss_override. destruct (root_gt dist 120); [|eauto].
  destruct (rs_random R g) as [u g1]. destruct (Qltb u (2 # 100)); [|eauto].
  destruct (choice_returns BOSSES g1 ltac:(discriminate)) as [r ->]. cbn [bind]. eauto.
Qed.

Lemma place_monsters_returns (target : nat) (spawn_pos : pos) :
  forall floor_positions (st : state rng),
  Forall is_pair (placed_positions st) ->
  exists st', place_monsters R floor_positions target spawn_pos st = Ok st' /\
              Forall is_pair (placed_positions st').
Proof.
  induction floor_positions as [|p rest IH]; intros st Hst; cbn [place_monsters].
  - eauto.
  - destruct (target <=? monsters_placed st)%nat; [eauto|].
    rewrite distance_from_pair. cbn [bind].
    destruct (root_lt (euclid p spawn_pos) 15); [now apply IH|].
    destruct (is_position_clear_pairs p 5 _ Hst) as [[|] ->]; cbn [bind negb];
      [|now apply IH].
    destruct (choice_returns (tier_pool (get_tier_for_distance (euclid p spawn_pos)))
                (gen st) (tier_pool_nonempty _)) as [r ->].
    cbn [bind].
    destruct (boss_override_returns (euclid p spawn_pos) (fst r) (snd r))
      as [[[monster_type is_boss] g2] ->].
    cbn [bind]. destruct (uniform R 0 (628 # 100) g2) as [rotation g3].
    apply IH. cbn [placed_positions]. apply Forall_app. split; [exact Hst|].
    constructor; [|constructor]. now exists p.
Qed.

Lemma place_props_returns (target : nat) (spawn_pos : pos) :
  forall floor_positions (st : state rng),
  Forall is_pair (placed_positions st) ->
  exists st', place_props R floor_positions target spawn_pos st = Ok st' /\
              Forall is_pair (placed_positions st').
Proof.
  induction floor_positions as [|p rest IH]; intros st Hst; cbn [place_props].
  - eauto.
  - destruct (target <=? props_placed st)%nat; [eauto|].
    rewrite distance_from_pair. cbn [bind].
    destruct (is_position_clear_pairs p 2 _ Hst) as [[|] ->]; cbn [bind negb];
      [|now apply IH].
    destruct (choice_returns (prop_pool (euclid p spawn_pos)) (gen st)
                (prop_pool_nonempty _)) as [r ->].
    cbn [bind].
    destruct (uniform R (- (3 # 10)) (3 # 10) (snd r)) as [jx g2].
    destruct (uniform R (- (3 # 10)) (3 # 10) g2) as [jz g3].
    destruct (uniform R 0 (628 # 100) g3) as [rotation g4].
    destruct (uniform R (8 # 10) (12 # 10) g4) as [scale g5].
    apply IH. cbn [placed_positions]. apply Forall_app. split; [exact Hst|].
    constructor; [|constructor]. now exists p.
Qed.

Lemma place_cluster_returns (tiles : grid) (width depth : Z) (p : pos) (tier : Z)
    (monster_pool : list string) :
  shaped width depth tiles -> monster_pool <> [] ->
  forall cluster_size enemies g,
  exists c, place_cluster R cluster_size tiles width depth p tier monster_pool enemies g
            = Ok c.
Proof.
  intros Hs Hpool. induction cluster_size as [|n IH]; intros enemies g;
    cbn [place_cluster]; [eauto|].
  destruct (uniform R (- 4) 4 g) as [offset_x g1].
  destruct (uniform R (- 4) 4 g1) as [offset_z g2].
  cbn [fst snd].
  set (mx := py_int (inject_Z (fst p) + offset_x)).
  set (mz := py_int (inject_Z (snd p) + offset_z)).
  destruct ((mx <? 0) || (width <=? mx)) eqn:Ex; [apply IH|].
  destruct ((mz <? 0) || (depth <=? mz)) eqn:Ez; [apply IH|].
  apply orb_false_iff in Ex, Ez.
  destruct (getitem2_shaped width depth tiles mx mz Hs) as [row [t [_ [_ ->]]]];
    [lia|lia|].
  cbn [bind]. destruct (negb (t =? 1)); [apply IH|].
  destruct (choice_returns monster_pool g2 Hpool) as [r ->]. cbn [bind].
  destruct (uniform R 0 (628 # 100) (snd r)) as [rotation g4]. apply IH.
Qed.

Lemma place_groups_returns (tiles : grid) (width depth : Z) (target : nat)
    (spawn_pos : pos) :
  shaped width depth tiles ->
  forall anchors (st : state rng),
  Forall is_pair (placed_positions st) ->
  exists st', place_groups R tiles width depth anchors target spawn_pos st = Ok st'.
Proof.
  intros Hs. induction anchors as [|p rest IH]; intros st Hst; cbn [place_groups].
  - eauto.
  - destruct (target <=? groups_placed st)%nat; [eauto|].
    rewrite distance_from_pair. cbn [bind].
    destruct (root_lt (euclid p spawn_pos) 40); [now apply IH|].
    destruct (is_position_clear_pairs p 10 _ Hst) as [[|] ->]; cbn [bind negb];
      [|now apply IH].
    destruct (randint R 3 5 (gen st)) as [cluster_size g1].
    destruct (place_cluster_returns tiles width depth p
                (get_tier_for_distance (euclid p spawn_pos))
                (cluster_pool (get_tier_for_distance (euclid p spawn_pos)))
                Hs (cluster_pool_nonempty _) (Z.to_nat cluster_size)
                (new_enemies st) g1) as [c ->].
    cbn [bind]. apply IH. cbn [placed_positions]. apply Forall_app. split; [exact Hst|].
    constructor; [|constructor]. now exists p.
Qed.

(** Started from a register of position pairs, on a grid of the declared
    shape, the placement engine returns. *)
Lemma place_returns (tiles : grid) (width depth : Z) (floor_positions : list pos)
    (spawn_pos : pos) (placed : list entry) (g : rng) :
  shaped width depth tiles -> Forall is_pair placed ->
  exists r, place R tiles width depth floor_positions spawn_pos placed g = Ok r.
Proof.
  intros Hs Hp. unfold place.
  destruct (rs_shuffle R floor_positions g) as [shuffled g0].
  destruct (place_monsters_returns (length shuffled / 100)%nat spawn_pos shuffled
              (State placed [] [] 0 0 0 g0) Hp) as [a [-> Ha]].
  cbn [bind].
  destruct (place_props_returns (length shuffled / 50)%nat spawn_pos shuffled a Ha)
    as [b [-> Hb]].
  cbn [bind].
  destruct (place_groups_returns tiles width depth
              (Nat.min 20 (length shuffled / 500)) spawn_pos Hs
              (slice_step 50 shuffled) b Hb) as [c ->].
  cbn [bind]. eauto.
Qed.

End Totality.

(** * The claims *)

Section Claims.

Variable b64decode : string -> option (list byte).
Variable gzip_decompress : list byte -> option (list byte).
Variable R : RandomSource.
Abbreviation rng := (rs_state R).

Lemma populate_eq (map_data : document) (tile_data : string)
    (compressed decompressed : list byte) (tiles : grid) (floor_positions : list pos)
    (g : rng) :
  b64decode tile_data = Some compressed ->
  gzip_decompress compressed = Some decompressed ->
  rle_decode decompressed (width_of map_data) (depth_of map_data) = Ok tiles ->
  find_floor_positions tiles (width_of map_data) (depth_of map_data) = Ok floor_positions ->
  populate b64decode gzip_decompress R map_data tile_data g =
    (r <- place R tiles (width_of map_data) (depth_of map_data) floor_positions
            (spawn_of map_data) (initial_positions map_data) g ;;
     Ok (merge map_data (new_enemies (after_groups r)) (new_props (after_groups r)))).
Proof.
  intros Hb Hg Hd Hf. unfold populate, decode_tile_data.
  rewrite Hb, Hg, Hd. cbn [bind]. rewrite Hf. reflexivity.
Qed.

Lemma populate_map_eq (input_path output_path : string) (fs : gmap string document)
    (g : rng) (map_data : document) (tile_data : string) :
  fs !! input_path = Some map_data ->
  doc_tileData map_data = Some tile_data ->
  tile_data <> EmptyString ->
  populate_map b64decode gzip_decompress R input_path output_path fs g =
    match populate b64decode gzip_decompress R map_data tile_data g with
    | Ok populated => (<[output_path := populated]> fs, Ok tt)
    | Raise e => (fs, Raise e)
    end.
Proof.
  intros Hin Htd Hne. unfold populate_map. rewrite Hin, Htd. cbn [get].
  apply String.eqb_neq in Hne. rewrite Hne. reflexivity.
Qed.

(** C1: for an input document whose decoded grid has at least 50 floor
    cells, [populate_map] raises [TypeError] and leaves the files as they
    were: the register starts as [list(spawn_pos)], two bare integers, and
    every clearance check against it subscripts an integer.  With fewer
    than 50 floor cells the run completes and writes the document with no
    generated entity. *)
Theorem populate_map_type_error (input_path output_path : string)
    (fs : gmap string document) (g : rng) (map_data : document) (tile_data : string)
    (compressed decompressed : list byte) (tiles : grid) (floor_positions : list pos) :
  fs !! input_path = Some map_data ->
  doc_tileData map_data = Some tile_data ->
  tile_data <> EmptyString ->
  b64decode tile_data = Some compressed ->
  gzip_decompress compressed = Some decompressed ->
  rle_decode decompressed (width_of map_data) (depth_of map_data) = Ok tiles ->
  find_floor_positions tiles (width_of map_data) (depth_of map_data) = Ok floor_positions ->
  initial_positions map_data =
    Scalar (fst (spawn_of map_data)) :: Scalar (snd (spawn_of map_data))
      :: map (fun e => Pair (en_position e)) (get (doc_enemies map_data) []) /\
  (forall p min_dist,
     is_position_clear p (initial_positions map_data) min_dist = Raise TypeError) /\
  ((50 <= length floor_positions)%nat ->
   (1 <= length floor_positions / 50)%nat /\
   populate_map b64decode gzip_decompress R input_path output_path fs g
     = (fs, Raise TypeError)) /\
  ((length floor_positions < 50)%nat ->
   (length floor_positions / 100 = 0)%nat /\
   (length floor_positions / 50 = 0)%nat /\
   Nat.min 20 (length floor_positions / 500) = 0%nat /\
   populate_map b64decode gzip_decompress R input_path output_path fs g
     = (<[output_path := merge map_data [] []]> fs, Ok tt)).
Proof.
  intros Hin Htd Hne Hb Hg Hd Hf.
  assert (Hreg : initial_positions map_data =
            Scalar (fst (spawn_of map_data)) :: Scalar (snd (spawn_of map_data))
              :: map (fun e => Pair (en_position e)) (get (doc_enemies map_data) []))
    by apply initial_positions_eq.
  split; [exact Hreg|]. split.
  { intros p min_dist. rewrite Hreg. apply is_position_clear_scalar. }
  rewrite (populate_map_eq _ _ _ _ _ _ Hin Htd Hne).
  rewrite (populate_eq _ _ _ _ _ _ _ Hb Hg Hd Hf).
  split; intros Hlen.
  - split.
    + pose proof (Nat.Div0.div_le_mono 50 (length floor_positions) 50 Hlen) as Hdiv.
      exact Hdiv.
    + rewrite Hreg, place_scalar_raises by exact Hlen. reflexivity.
  - rewrite !Nat.div_small by lia.
    split; [reflexivity|]. split; [reflexivity|]. split; [reflexivity|].
    rewrite place_below_50 by exact Hlen. reflexivity.
Qed.

(** C2: in every run of the placement engine, the monsters placed in
    Phase A stand pairwise at Euclidean distance at least 5, and the
    positions placed in Phase B, the cells registered one per prop, stand
    pairwise at distance at least 2.  Phase C adds one register entry per
    group, its anchor: the members are not registered. *)
Theorem placement_spacing (tiles : grid) (width depth : Z) (floor_positions : list pos)
    (spawn_pos : pos) (placed : list entry) (g : rng) (r : run rng) :
  place R tiles width depth floor_positions spawn_pos placed g = Ok r ->
  apart 5 (map en_position (new_enemies (after_monsters r))) /\
  placed_positions (after_monsters r) =
    placed ++ map Pair (map en_position (new_enemies (after_monsters r))) /\
  (exists prop_cells,
     placed_positions (after_props r) =
       placed_positions (after_monsters r) ++ map Pair prop_cells /\
     Forall2 on_cell (new_props (after_props r)) prop_cells /\
     apart 2 prop_cells) /\
  exists anchors,
    placed_positions (after_groups r) =
      placed_positions (after_props r) ++ map Pair anchors /\
    length anchors = groups_placed (after_groups r).
Proof.
  intros H.
  destruct (place_post R _ _ _ _ _ _ _ _ H)
    as (mc & pc & gc & ms & A0 & A1 & A2 & A3 & A4 & A5 & B1 & B2 & B3 & B4 & B5 & B6 &
        C1 & C2 & C3 & C4 & C5 & C6 & C7 & C8).
  split; [rewrite A2; apply (registered_far 5 placed mc A1)|].
  split; [rewrite A2; exact A0|].
  split.
  - exists pc. split; [exact B1|]. split; [exact B3|].
    apply (registered_far 2 _ pc B2).
  - exists gc. split; [|now rewrite C6].
    rewrite C1, B1, A0, <- !app_assoc. reflexivity.
Qed.

(** C3, as amended: before Phase A the register holds the coordinates of
    the spawn position first, followed by exactly the positions of the
    pre-existing enemies, in document order, and nothing else.  The placed
    props of the document do not enter it: a position pair of the register
    is the spawn position or the position of a pre-existing enemy.  It is
    the register the placement loops are started from, and the document
    returned is made from the generated lists alone. *)
Theorem initial_register_spawn_then_enemies (map_data : document) :
  spawn_then (spawn_of map_data)
    (map en_position (get (doc_enemies map_data) [])) (initial_positions map_data) /\
  (forall q, In (Pair q) (initial_positions map_data) ->
     q = spawn_of map_data \/ In q (map en_position (get (doc_enemies map_data) []))) /\
  forall tile_data tiles floor_positions g,
    decode_tile_data b64decode gzip_decompress tile_data
      (width_of map_data) (depth_of map_data) = Ok tiles ->
    find_floor_positions tiles (width_of map_data) (depth_of map_data)
      = Ok floor_positions ->
    populate b64decode gzip_decompress R map_data tile_data g =
      (r <- place R tiles (width_of map_data) (depth_of map_data) floor_positions
              (spawn_of map_data) (initial_positions map_data) g ;;
       Ok (merge map_data (new_enemies (after_groups r)) (new_props (after_groups r)))).
Proof.
  split; [apply initial_positions_spawn_then|]. split.
  - intros q. apply spawn_then_pair, initial_positions_spawn_then.
  - intros tile_data tiles floor_positions g Hd Hf. unfold populate.
    rewrite Hd. cbn [bind]. rewrite Hf. reflexivity.
Qed.

(** C4: Phase A places at most [floorCount / 100] monsters, Phase B at
    most [floorCount / 50] props and Phase C at most
    [min 20 (floorCount / 500)] groups; the counters are the numbers of
    entities and of registered anchors. *)
Theorem placement_density (tiles : grid) (width depth : Z) (floor_positions : list pos)
    (spawn_pos : pos) (placed : list entry) (g : rng) (r : run rng) :
  place R tiles width depth floor_positions spawn_pos placed g = Ok r ->
  let floorCount := length floor_positions in
  (length (new_enemies (after_monsters r)) <= floorCount / 100)%nat /\
  monsters_placed (after_monsters r) = length (new_enemies (after_monsters r)) /\
  (length (new_props (after_props r)) <= floorCount / 50)%nat /\
  props_placed (after_props r) = length (new_props (after_props r)) /\
  (groups_placed (after_groups r) <= Nat.min 20 (floorCount / 500))%nat /\
  exists anchors,
    placed_positions (after_groups r) =
      placed_positions (after_props r) ++ map Pair anchors /\
    groups_placed (after_groups r) = length anchors.
Proof.
  intros H floorCount.
  destruct (place_post R _ _ _ _ _ _ _ _ H)
    as (mc & pc & gc & ms & A0 & A1 & A2 & A3 & A4 & A5 & B1 & B2 & B3 & B4 & B5 & B6 &
        C1 & C2 & C3 & C4 & C5 & C6 & C7 & C8).
  assert (Hm : length (new_enemies (after_monsters r)) = length mc)
    by (rewrite <- A2; symmetry; apply length_map).
  assert (Hp : length (new_props (after_props r)) = length pc)
    by (eapply Forall2_length; exact B3).
  fold floorCount in A4, B5, C7.
  split; [lia|]. split; [lia|]. split; [lia|]. split; [lia|]. split; [lia|].
  exists gc. split; [|exact C6].
  rewrite C1, B1, A0, <- !app_assoc. reflexivity.
Qed.

(** C5: when the outer layers decode, the grid returned by
    [decode_tile_data] has exactly [width] rows of exactly [depth] cells
    each (grid dimensions are not negative). *)
Theorem decode_grid_shape (tile_data : string) (compressed decompressed : list byte)
    (width depth : Z) :
  b64decode tile_data = Some compressed ->
  gzip_decompress compressed = Some decompressed ->
  0 <= width -> 0 <= depth ->
  exists tiles,
    decode_tile_data b64decode gzip_decompress tile_data width depth = Ok tiles /\
    Z.of_nat (length tiles) = width /\
    Forall (fun row => Z.of_nat (length row) = depth) tiles.
Proof.
  intros Hb Hg Hw Hd. unfold decode_tile_data. rewrite Hb, Hg.
  destruct (rle_decode_shaped decompressed width depth) as [tiles [E [Hlen Hrows]]].
  exists tiles. split; [exact E|]. split; [lia|].
  eapply Forall_impl; [exact Hrows|]. cbn beta. intros row Hrow. lia.
Qed.

(** C6: the decoder fills the grid in column-major order.  The cell
    [(x, z)] receives the value at index [x * depth + z] of the expanded
    stream; one write at [(x, z)] moves the cursor to [(x, z + 1)], or to
    [(x + 1, 0)] when [z + 1] reaches [depth]; and a stream that starts
    with the run (1, 0xFF, 5), decoded with [depth >= 5], has
    [tiles[0][0..4] = 1] once the first run is written, no cell with
    [x > 0] being written yet, and in the final grid. *)
Theorem decode_column_major (bs : list byte) (width depth : Z) :
  exists tiles, rle_decode bs width depth = Ok tiles /\
    (forall x z, 0 <= x < width -> 0 <= z < depth ->
       getitem2 tiles x z = Ok (nth (Z.to_nat (x * depth + z)) (rle_expand bs) 0)) /\
    (forall grid0 x z value,
       shaped width depth grid0 -> 0 <= x < width -> 0 <= z < depth ->
       exists grid1,
         fill 1 value width depth (Cursor grid0 x z) =
           Ok (if depth <=? z + 1 then Cursor grid1 (x + 1) 0 else Cursor grid1 x (z + 1)) /\
         getitem2 grid1 x z = Ok value) /\
    (forall rest, bs = x01 :: xff :: x05 :: rest -> 1 <= width -> 5 <= depth ->
       (forall z, 0 <= z < 5 -> getitem2 tiles 0 z = Ok 1) /\
       exists c1,
         fill 5 1 width depth (Cursor (blank_grid width depth) 0 0) = Ok c1 /\
         rle_loop bs width depth (Cursor (blank_grid width depth) 0 0)
           = rle_loop rest width depth c1 /\
         (forall z, 0 <= z < 5 -> getitem2 (cur_tiles c1) 0 z = Ok 1) /\
         (forall x z, 0 < x < width -> 0 <= z < depth ->
            getitem2 (cur_tiles c1) x z = Ok 0)).
Proof.
  destruct (rle_decode_cells bs width depth) as [tiles [E [Hs Hcells]]].
  exists tiles. split; [exact E|]. split; [exact Hcells|]. split.
  { intros grid0 x z value Hs0 Hx Hz. cbn [fill cur_x cur_z cur_tiles].
    replace (x <? width) with true by (symmetry; apply Z.ltb_lt; lia).
    replace (z <? depth) with true by (symmetry; apply Z.ltb_lt; lia).
    cbn [andb].
    destruct (setitem2_shaped width depth grid0 x z value Hs0 Hx Hz)
      as [row [Hrow [Hset Hs1]]].
    rewrite Hset. cbn [bind].
    eexists. split; [destruct (depth <=? z + 1); reflexivity|].
    rewrite (getitem2_insert width depth) by assumption.
    now rewrite !Z.eqb_refl. }
  intros rest -> Hw Hd.
  assert (Hfive : forall z, 0 <= z < 5 -> nth (Z.to_nat z) [1; 1; 1; 1; 1] 0 = 1).
  { intros z Hz.
    assert (Hcase : z = 0 \/ z = 1 \/ z = 2 \/ z = 3 \/ z = 4) by lia.
    destruct Hcase as [->|[->|[->|[->| ->]]]]; reflexivity. }
  split.
  { intros z Hz. rewrite (Hcells 0 z) by lia. f_equal.
    cbn [rle_expand]. change (Byte.eqb xff xff) with true. cbn iota.
    change (repeat (byte_val x01) (N.to_nat (Byte.to_N x05))) with [1; 1; 1; 1; 1].
    rewrite app_nth1 by (cbn [length]; lia).
    replace (0 * depth + z) with z by lia. now apply Hfive. }
  destruct (fill_written 5 1 width depth (Cursor (blank_grid width depth) 0 0) [])
    as [c1 [E1 Hw1]]; [apply blank_grid_written; lia|].
  exists c1. split; [exact E1|]. split.
  { cbn [rle_loop cur_x].
    replace (0 <? width) with true by (symmetry; apply Z.ltb_lt; lia).
    change (Byte.eqb xff xff) with true. cbn iota.
    change (N.to_nat (Byte.to_N x05)) with 5%nat.
    change (byte_val x01) with 1. rewrite E1. reflexivity. }
  destruct Hw1 as (_ & Hx1 & Hz1 & _ & Hk & Hc1).
  cbn [app repeat length] in Hk, Hc1.
  assert (Hk5 : cur_x c1 * depth + cur_z c1 = 5) by nia.
  split.
  - intros z Hz. rewrite (Hc1 0 z) by lia. f_equal. rewrite Hk5.
    replace (0 * depth + z) with z by lia.
    replace (z <? 5) with true by (symmetry; apply Z.ltb_lt; lia).
    now apply Hfive.
  - intros x z Hx Hz. rewrite (Hc1 x z) by lia. f_equal. rewrite Hk5.
    replace (x * depth + z <? 5) with false by (symmetry; apply Z.ltb_ge; nia).
    reflexivity.
Qed.

(** C7: decoding tolerates a short stream.  Whatever the inner byte stream,
    also one that ends in a value byte with no count, or in a value byte
    and the sentinel with no count byte (such a run counts once), the
    decoder returns a grid without raising, and every cell past the end of
    the expanded stream holds 0. *)
Theorem decode_truncation_tolerant (tile_data : string)
    (compressed decompressed : list byte) (width depth : Z) :
  b64decode tile_data = Some compressed ->
  gzip_decompress compressed = Some decompressed ->
  exists tiles,
    decode_tile_data b64decode gzip_decompress tile_data width depth = Ok tiles /\
    shaped width depth tiles /\
    (forall x z, 0 <= x < width -> 0 <= z < depth ->
       Z.of_nat (length (rle_expand decompressed)) <= x * depth + z ->
       getitem2 tiles x z = Ok 0) /\
    (forall x z, 0 <= x < width -> 0 <= z < depth ->
       x * depth + z < Z.of_nat (length (rle_expand decompressed)) ->
       getitem2 tiles x z =
         Ok (nth (Z.to_nat (x * depth + z)) (rle_expand decompressed) 0)) /\
    (forall value, rle_expand [value] = [byte_val value]) /\
    (forall value, rle_expand [value; xff] = [byte_val value]) /\
    (forall value count rest,
       rle_expand (value :: xff :: count :: rest) =
         repeat (byte_val value) (N.to_nat (Byte.to_N count)) ++ rle_expand rest).
Proof.
  intros Hb Hg. unfold decode_tile_data. rewrite Hb, Hg.
  destruct (rle_decode_cells decompressed width depth) as [tiles [E [Hs Hcells]]].
  exists tiles. split; [exact E|]. split; [exact Hs|]. split.
  { intros x z Hx Hz Hpast. rewrite (Hcells x z Hx Hz). f_equal.
    apply nth_overflow. lia. }
  split; [intros x z Hx Hz _; apply (Hcells x z Hx Hz)|].
  split; [reflexivity|]. split; [reflexivity|].
  intros value count rest. reflexivity.
Qed.


(** C9: the merge only appends.  When the placement loops and the merge
    return a document, its enemies are the existing ones, each in its place
    and unchanged, followed by the monsters the loops generated in that run,
    its placed props the existing ones followed by the generated props, and
    its name is the old name (["Map"] when the document has none) followed
    by [" (Populated)"].  This holds from whatever register the loops are
    started; [populate] runs them from the register of the document and
    returns what they return. *)
Theorem merge_additive (map_data : document) (tiles : grid) (floor_positions : list pos)
    (placed : list entry) (g : rng) (populated : document) :
  generate R map_data tiles floor_positions placed g = Ok populated ->
  exists r,
    place R tiles (width_of map_data) (depth_of map_data) floor_positions
      (spawn_of map_data) placed g = Ok r /\
    let old_enemies := get (doc_enemies map_data) [] in
    let old_props := get (doc_placedProps map_data) [] in
    let generated_monsters := new_enemies (after_groups r) in
    let generated_props := new_props (after_groups r) in
    populated = merge map_data generated_monsters generated_props /\
    doc_enemies populated = Some (old_enemies ++ generated_monsters) /\
    length (old_enemies ++ generated_monsters)
      = (length old_enemies + length generated_monsters)%nat /\
    firstn (length old_enemies) (old_enemies ++ generated_monsters) = old_enemies /\
    skipn (length old_enemies) (old_enemies ++ generated_monsters) = generated_monsters /\
    doc_placedProps populated = Some (old_props ++ generated_props) /\
    length (old_props ++ generated_props)
      = (length old_props + length generated_props)%nat /\
    firstn (length old_props) (old_props ++ generated_props) = old_props /\
    skipn (length old_props) (old_props ++ generated_props) = generated_props /\
    doc_name populated =
      Some (String.append (get (doc_name map_data) "Map"%string) " (Populated)"%string) /\
    (forall tile_data,
       decode_tile_data b64decode gzip_decompress tile_data
         (width_of map_data) (depth_of map_data) = Ok tiles ->
       find_floor_positions tiles (width_of map_data) (depth_of map_data)
         = Ok floor_positions ->
       placed = initial_positions map_data ->
       populate b64decode gzip_decompress R map_data tile_data g = Ok populated) /\
    (forall tile_data g0 populated0,
       populate b64decode gzip_decompress R map_data tile_data g0 = Ok populated0 ->
       exists tiles0 floor0,
         decode_tile_data b64decode gzip_decompress tile_data
           (width_of map_data) (depth_of map_data) = Ok tiles0 /\
         find_floor_positions tiles0 (width_of map_data) (depth_of map_data)
           = Ok floor0 /\
         generate R map_data tiles0 floor0 (initial_positions map_data) g0
           = Ok populated0).
Proof.
  intros Hgen. pose proof Hgen as Hrun. unfold generate in Hrun.
  destruct (place R tiles _ _ floor_positions _ placed g) as [r|]; cbn [bind] in Hrun;
    [|discriminate].
  injection Hrun as <-. exists r. split; [reflexivity|]. cbv zeta.
  split; [reflexivity|].
  split; [reflexivity|]. split; [apply length_app|].
  split; [apply take_app_length|]. split; [apply drop_app_length|].
  split; [reflexivity|]. split; [apply length_app|].
  split; [apply take_app_length|]. split; [apply drop_app_length|].
  split; [reflexivity|]. split.
  - intros tile_data Hd Hf ->. unfold populate. rewrite Hd. cbn [bind].
    rewrite Hf. cbn [bind]. exact Hgen.
  - clear Hgen. intros tile_data g0 populated0 H. unfold populate in H.
    destruct (decode_tile_data _ _ _ _ _) as [tiles0|]; cbn [bind] in H; [|discriminate].
    destruct (find_floor_positions _ _ _) as [floor0|] eqn:Ef; cbn [bind] in H;
      [|discriminate].
    exists tiles0, floor0. auto.
Qed.

(** C10: when the document has no [tileData], or an empty one, the run
    returns before placement and the files are unchanged, so the
    destination is not written; a run that gets past that guard and
    returns has written the populated document to the destination. *)
Theorem populate_map_output (input_path output_path : string)
    (fs : gmap string document) (g : rng) (map_data : document) :
  fs !! input_path = Some map_data ->
  (doc_tileData map_data = None \/ doc_tileData map_data = Some EmptyString ->
   populate_map b64decode gzip_decompress R input_path output_path fs g = (fs, Ok tt)) /\
  (forall tile_data fs',
     doc_tileData map_data = Some tile_data -> tile_data <> EmptyString ->
     populate_map b64decode gzip_decompress R input_path output_path fs g = (fs', Ok tt) ->
     exists populated,
       populate b64decode gzip_decompress R map_data tile_data g = Ok populated /\
       fs' = <[output_path := populated]> fs /\
       fs' !! output_path = Some populated) /\
  (forall fs' e,
     populate_map b64decode gzip_decompress R input_path output_path fs g = (fs', Raise e) ->
     fs' = fs).
Proof.
  intros Hin. split; [|split].
  - intros Hnone. unfold populate_map. rewrite Hin.
    destruct Hnone as [-> | ->]; reflexivity.
  - intros tile_data fs' Htd Hne H.
    rewrite (populate_map_eq _ _ _ _ _ _ Hin Htd Hne) in H.
    destruct (populate _ _ _ _ _ _) as [populated|]; [|discriminate].
    injection H as <-. exists populated.
    split; [reflexivity|]. split; [reflexivity|]. apply lookup_insert_eq.
  - intros fs' e H. unfold populate_map in H. rewrite Hin in H.
    destruct (String.eqb _ _); [discriminate|].
    destruct (populate _ _ _ _ _ _); [discriminate|]. now injection H as <- _.
Qed.

End Claims.

(** * Worked instances *)

(** C1 at the 10 x 10 all-floor map (100 floor cells): the call raises
    [TypeError] and writes nothing. *)
Lemma populate_map_type_error_witness :
  populate_map plain_b64decode stored_decompress lcg_source
    "in.json" "out.json" fs_all_floor 7%N = (fs_all_floor, Raise TypeError).
Proof.
  refine (proj2 (proj1 (proj2 (proj2
    (populate_map_type_error plain_b64decode stored_decompress lcg_source
       "in.json" "out.json" fs_all_floor 7%N doc_all_floor
       (String.string_of_list_byte [x01; xff; x64]) [x01; xff; x64] [x01; xff; x64]
       tiles_10_10 floor_10_10 _ _ _ _ _ _ _))) _)).
  - vm_compute. reflexivity.
  - reflexivity.
  - vm_compute. discriminate.
  - vm_compute. reflexivity.
  - reflexivity.
  - vm_compute. reflexivity.
  - vm_compute. reflexivity.
  - vm_compute. lia.
Defined.

(** C2 at a 60 x 10 all-floor grid with the spawn registered as a pair: six
    monsters, twelve props and one group are placed. *)
Lemma placement_spacing_witness :
  exists r,
    place lcg_source tiles_60_10 60 10 floor_60_10 (0, 0) [Pair (0, 0)] 7%N = Ok r /\
    map en_position (new_enemies (after_monsters r))
      = [(59, 9); (59, 4); (56, 0); (54, 9); (53, 4); (50, 0)] /\
    apart 5 (map en_position (new_enemies (after_monsters r))) /\
    placed_positions (after_monsters r) =
      [Pair (0, 0)] ++ map Pair (map en_position (new_enemies (after_monsters r))) /\
    (exists prop_cells,
       placed_positions (after_props r) =
         placed_positions (after_monsters r) ++ map Pair prop_cells /\
       Forall2 on_cell (new_props (after_props r)) prop_cells /\
       apart 2 prop_cells) /\
    exists anchors,
      placed_positions (after_groups r) =
        placed_positions (after_props r) ++ map Pair anchors /\
      length anchors = groups_placed (after_groups r).
Proof.
  eexists. split; [vm_compute; reflexivity|]. split; [reflexivity|].
  apply (placement_spacing lcg_source tiles_60_10 60 10 floor_60_10 (0, 0)
           [Pair (0, 0)] 7%N).
  vm_compute. reflexivity.
Defined.

(** C3 fails as stated at the 7 x 7 map with the spawn at (3, 3), one enemy
    and two placed props.  The run gets past the tile guard, builds the
    register and returns; the register is [[3; 3; (1, 1)]].  It is not the
    spawn position followed by one position for each entity; and however
    the coordinates of the spawn are entered, the two entries for the props
    are missing. *)
Lemma initial_register_counterexample :
  populate_map plain_b64decode stored_decompress lcg_source
    "in.json" "out.json" fs_with_prop 7%N
    = (<["out.json"%string := merge doc_with_prop [] []]> fs_with_prop, Ok tt) /\
  initial_positions doc_with_prop = [Scalar 3; Scalar 3; Pair (1, 1)] /\
  ~ register_as_specified doc_with_prop (initial_positions doc_with_prop) /\
  ~ (exists prop_cells : list pos,
       length prop_cells = length (get (doc_placedProps doc_with_prop) []) /\
       spawn_then (spawn_of doc_with_prop)
         (map en_position (get (doc_enemies doc_with_prop) []) ++ prop_cells)
         (initial_positions doc_with_prop)).
Proof.
  assert (Hno : ~ (exists prop_cells : list pos,
                     length prop_cells = length (get (doc_placedProps doc_with_prop) []) /\
                     spawn_then (spawn_of doc_with_prop)
                       (map en_position (get (doc_enemies doc_with_prop) []) ++ prop_cells)
                       (initial_positions doc_with_prop))).
  { intros (prop_cells & Hlen & spawn_entries & Heq & Hc).
    change (initial_positions doc_with_prop) with [Scalar 3; Scalar 3; Pair (1, 1)] in Heq.
    apply (f_equal (@length entry)) in Heq.
    rewrite length_app, length_map, length_app in Heq. cbn in Heq, Hlen.
    destruct spawn_entries as [|e more]; [discriminate Hc|cbn [length] in Heq; lia]. }
  split; [vm_compute; reflexivity|]. split; [reflexivity|]. split; [|exact Hno].
  intros Hspec. apply Hno. now apply register_as_specified_spawn_then.
Qed.

(** C3, as amended, at the same map: the register holds the coordinates
    3, 3 of the spawn and then the position (1, 1) of the enemy, its only
    position pair is that of the enemy, and the run starts the placement
    loops from it. *)
Lemma initial_register_spawn_then_enemies_witness :
  spawn_then (3, 3) [(1, 1)] (initial_positions doc_with_prop) /\
  ((1, 1) = spawn_of doc_with_prop \/ In (1, 1) [(1, 1)]) /\
  populate plain_b64decode stored_decompress lcg_source doc_with_prop
    (String.string_of_list_byte [x01; xff; x31]) 7%N =
    (r <- place lcg_source (repeat (repeat 1 7%nat) 7%nat) 7 7
            (flat_map (fun x => map (fun z => (x, z)) (range 7)) (range 7))
            (3, 3) [Scalar 3; Scalar 3; Pair (1, 1)] 7%N ;;
     Ok (merge doc_with_prop (new_enemies (after_groups r)) (new_props (after_groups r)))).
Proof.
  destruct (initial_register_spawn_then_enemies plain_b64decode stored_decompress
              lcg_source doc_with_prop) as (Hs & Hp & Hrun).
  split; [exact Hs|]. split.
  - apply (Hp (1, 1)). right. right. now left.
  - apply (Hrun (String.string_of_list_byte [x01; xff; x31])
             (repeat (repeat 1 7%nat) 7%nat)
             (flat_map (fun x => map (fun z => (x, z)) (range 7)) (range 7)) 7%N).
    + vm_compute. reflexivity.
    + vm_compute. reflexivity.
Defined.

(** C4 at the same 60 x 10 grid: 600 floor cells allow 6 monsters, 12 props
    and 1 group. *)
Lemma placement_density_witness :
  exists r,
    place lcg_source tiles_60_10 60 10 floor_60_10 (0, 0) [Pair (0, 0)] 7%N = Ok r /\
    (monsters_placed (after_monsters r) = 6 /\
     props_placed (after_props r) = 12 /\
     groups_placed (after_groups r) = 1)%nat /\
    let floorCount := length floor_60_10 in
    (length (new_enemies (after_monsters r)) <= floorCount / 100)%nat /\
    monsters_placed (after_monsters r) = length (new_enemies (after_monsters r)) /\
    (length (new_props (after_props r)) <= floorCount / 50)%nat /\
    props_placed (after_props r) = length (new_props (after_props r)) /\
    (groups_placed (after_groups r) <= Nat.min 20 (floorCount / 500))%nat /\
    exists anchors,
      placed_positions (after_groups r) =
        placed_positions (after_props r) ++ map Pair anchors /\
      groups_placed (after_groups r) = length anchors.
Proof.
  eexists. split; [vm_compute; reflexivity|].
  split; [repeat split; reflexivity|].
  apply (placement_density lcg_source tiles_60_10 60 10 floor_60_10 (0, 0)
           [Pair (0, 0)] 7%N).
  vm_compute. reflexivity.
Defined.

(** C5 at a 2 x 3 grid. *)
Lemma decode_grid_shape_witness :
  exists tiles,
    decode_tile_data plain_b64decode stored_decompress
      (String.string_of_list_byte [x01; xff; x03; x02]) 2 3 = Ok tiles /\
    Z.of_nat (length tiles) = 2 /\
    Forall (fun row => Z.of_nat (length row) = 3) tiles.
Proof.
  apply (decode_grid_shape plain_b64decode stored_decompress
           (String.string_of_list_byte [x01; xff; x03; x02])
           [x01; xff; x03; x02] [x01; xff; x03; x02] 2 3).
  - vm_compute. reflexivity.
  - reflexivity.
  - lia.
  - lia.
Defined.

(** C6 at the stream (1, 0xFF, 5), 2 on a 2 x 5 grid: the first row is all
    floor and the next value opens the second row. *)
Lemma decode_column_major_witness :
  exists tiles,
    rle_decode [x01; xff; x05; x02] 2 5 = Ok tiles /\
    tiles = [[1; 1; 1; 1; 1]; [2; 0; 0; 0; 0]] /\
    forall z, 0 <= z < 5 -> getitem2 tiles 0 z = Ok 1.
Proof.
  destruct (decode_column_major [x01; xff; x05; x02] 2 5)
    as [tiles [E [_ [_ Hrun]]]].
  exists tiles. split; [exact E|]. split.
  - vm_compute in E. now injection E as <-.
  - apply (Hrun [x02]); [reflexivity|lia|lia].
Defined.

(** C7 at a stream that ends in a value byte and the sentinel with no
    count, on a 2 x 3 grid: four cells are written, the last two stay 0. *)
Lemma decode_truncation_tolerant_witness :
  exists tiles,
    decode_tile_data plain_b64decode stored_decompress
      (String.string_of_list_byte [x01; xff; x03; x01; xff]) 2 3 = Ok tiles /\
    tiles = [[1; 1; 1]; [1; 0; 0]] /\
    getitem2 tiles 1 2 = Ok 0.
Proof.
  destruct (decode_truncation_tolerant plain_b64decode stored_decompress
              (String.string_of_list_byte [x01; xff; x03; x01; xff])
              [x01; xff; x03; x01; xff] [x01; xff; x03; x01; xff] 2 3)
    as [tiles [E [_ [Hzero _]]]].
  - vm_compute. reflexivity.
  - reflexivity.
  - exists tiles. split; [exact E|]. split.
    + vm_compute in E. now injection E as <-.
    + apply Hzero; [lia|lia|]. vm_compute. discriminate.
Defined.


(** C9 at the 60 x 10 map with one enemy and one prop, the loops started
    from a register of position pairs: nine monsters and twelve props are
    generated, and the merged lists hold the old entry first. *)
Lemma merge_additive_witness :
  exists populated r,
    generate lcg_source doc_60_10 tiles_60_10 floor_60_10 [Pair (0, 0); Pair (1, 1)] 7%N
      = Ok populated /\
    place lcg_source tiles_60_10 60 10 floor_60_10 (0, 0) [Pair (0, 0); Pair (1, 1)] 7%N
      = Ok r /\
    (length (new_enemies (after_groups r)) = 9 /\
     length (new_props (after_groups r)) = 12)%nat /\
    doc_enemies populated
      = Some (Enemy "slime"%string 3 (1, 1) 1 false 0%Q :: new_enemies (after_groups r)) /\
    doc_placedProps populated
      = Some (Prop_ "barrel"%string (inject_Z 2) 0%Q (inject_Z 2) 0%Q 1%Q
                :: new_props (after_groups r)) /\
    doc_name populated = Some "Steves Place (Populated)"%string.
Proof.
  eexists.
  destruct (merge_additive plain_b64decode stored_decompress lcg_source doc_60_10
              tiles_60_10 floor_60_10 [Pair (0, 0); Pair (1, 1)] 7%N _
              ltac:(vm_compute; reflexivity))
    as (r & Hrun & _ & He & _ & _ & _ & Hp & _ & _ & _ & Hn & _).
  exists r. split; [vm_compute; reflexivity|]. split; [exact Hrun|].
  split; [|split; [exact He|split; [exact Hp|exact Hn]]].
  vm_compute in Hrun. injection Hrun as <-. split; reflexivity.
Defined.

(** C10 at a map without tile data (nothing is written) and at the 7 x 7 map
    (the destination holds the populated document). *)
Lemma populate_map_output_witness :
  populate_map plain_b64decode stored_decompress lcg_source
    "in.json" "out.json" fs_no_tiles 7%N = (fs_no_tiles, Ok tt) /\
  fs_no_tiles !! "out.json"%string = None /\
  exists populated,
    fst (populate_map plain_b64decode stored_decompress lcg_source
           "in.json" "out.json" fs_small 7%N) !! "out.json"%string = Some populated /\
    doc_name populated = Some "Map (Populated)"%string.
Proof.
  split; [|split].
  - apply (populate_map_output plain_b64decode stored_decompress lcg_source
             "in.json" "out.json" fs_no_tiles 7%N doc_no_tiles).
    + vm_compute. reflexivity.
    + left. reflexivity.
  - vm_compute. reflexivity.
  - destruct (populate_map_output plain_b64decode stored_decompress lcg_source
                "in.json" "out.json" fs_small 7%N doc_small) as (_ & Hrun & _).
    + vm_compute. reflexivity.
    + destruct (Hrun (String.string_of_list_byte [x01; xff; x31])
                  (<["out.json"%string := merge doc_small [] []]> fs_small))
        as (populated & Hpop & Hfs & Hout).
      * reflexivity.
      * vm_compute. discriminate.
      * vm_compute. reflexivity.
      * exists populated. split.
        -- vm_compute in Hpop. injection Hpop as <-. vm_compute. reflexivity.
        -- vm_compute in Hpop. injection Hpop as <-. reflexivity.
Defined.

(** * Further properties of [populate_map.py] *)

(** ** Tiers *)

(** X1: the tier is a non-decreasing step function of the distance, with
    values from 1 to 5. *)
Theorem tier_monotone (d1 d2 : root) :
  radicand d1 <= radicand d2 ->
  1 <= get_tier_for_distance d1 /\
  get_tier_for_distance d1 <= get_tier_for_distance d2 /\
  get_tier_for_distance d2 <= 5.
Proof.
  intros Hle. unfold get_tier_for_distance. rewrite !root_lt_literal by lia.
  repeat match goal with
         | |- context [?a <? ?b] => destruct (Z.ltb_spec a b)
         end; lia.
Qed.

Lemma tier_monotone_witness :
  get_tier_for_distance (euclid (20, 20) (0, 0))
    <= get_tier_for_distance (euclid (90, 90) (0, 0)).
Proof.
  apply (tier_monotone (euclid (20, 20) (0, 0)) (euclid (90, 90) (0, 0))).
  vm_compute. discriminate.
Defined.

(** ** The floor indexer, exactly *)

Lemma is_floor_true (tiles : grid) (p : pos) :
  is_floor tiles p = true <-> floor_cell tiles p.
Proof.
  unfold is_floor, floor_cell. destruct (getitem2 tiles (fst p) (snd p)) as [t|e].
  - rewrite Z.eqb_eq. split; congruence.
  - split; discriminate.
Qed.

Lemma scan_row_filter (width depth : Z) (tiles : grid) (x : Z) :
  shaped width depth tiles -> 0 <= x < width ->
  forall zs acc, (forall z, In z zs -> 0 <= z < depth) ->
  scan_row tiles x zs acc =
    Ok (acc ++ List.filter (is_floor tiles) (map (fun z => (x, z)) zs)).
Proof.
  intros Hs Hx. induction zs as [|z zs IH]; intros acc Hzs; cbn [scan_row map List.filter].
  - now rewrite app_nil_r.
  - destruct (getitem2_shaped width depth tiles x z Hs Hx) as [row [v [_ [_ Hget]]]].
    { apply Hzs. now left. }
    rewrite Hget. cbn [bind]. rewrite IH by (intros z' Hz'; apply Hzs; now right).
    unfold is_floor at 2. cbn [fst snd]. rewrite Hget.
    destruct (v =? 1); [now rewrite <- app_assoc|reflexivity].
Qed.

Lemma scan_rows_filter (width depth : Z) (tiles : grid) :
  shaped width depth tiles ->
  forall xs acc, (forall x, In x xs -> 0 <= x < width) ->
  scan_rows tiles depth xs acc =
    Ok (acc ++ List.filter (is_floor tiles)
                 (flat_map (fun x => map (fun z => (x, z)) (range depth)) xs)).
Proof.
  intros Hs. induction xs as [|x xs IH]; intros acc Hxs; cbn [scan_rows flat_map].
  - cbn. now rewrite app_nil_r.
  - rewrite (scan_row_filter width depth);
      [|exact Hs|apply Hxs; now left|intros z; apply in_range].
    cbn [bind]. rewrite IH by (intros x' Hx'; apply Hxs; now right).
    rewrite List.filter_app, app_assoc. reflexivity.
Qed.

Lemma range_length (n : Z) : length (range n) = Z.to_nat n.
Proof. unfold range. now rewrite length_map, length_seq. Qed.

Lemma cells_length (width depth : Z) :
  length (cells width depth) = (Z.to_nat width * Z.to_nat depth)%nat.
Proof.
  unfold cells. rewrite <- (range_length width).
  induction (range width) as [|x xs IH]; cbn [flat_map length]; [reflexivity|].
  rewrite length_app, length_map, range_length.
  etransitivity; [apply f_equal; exact IH|lia].
Qed.

(** X2: on a grid of the declared shape [find_floor_positions] returns the
    cells holding code 1 in scan order, [x] outermost and [z] innermost, each
    once; so there are at most [width * depth] of them. *)
Theorem find_floor_positions_exact (width depth : Z) (tiles : grid) :
  shaped width depth tiles ->
  find_floor_positions tiles width depth
    = Ok (List.filter (is_floor tiles) (cells width depth)) /\
  (length (List.filter (is_floor tiles) (cells width depth))
     <= Z.to_nat width * Z.to_nat depth)%nat.
Proof.
  intros Hs. split.
  - unfold find_floor_positions, cells.
    rewrite (scan_rows_filter width depth); [|exact Hs|intros x; apply in_range].
    reflexivity.
  - rewrite <- cells_length. apply List.filter_length_le.
Qed.

Lemma find_floor_positions_exact_witness :
  find_floor_positions [[1; 0; 1]; [0; 1; 2]] 2 3 = Ok [(0, 0); (0, 2); (1, 1)].
Proof.
  refine (eq_trans (proj1 (find_floor_positions_exact 2 3 [[1; 0; 1]; [0; 1; 2]] _)) _).
  - split; [reflexivity|]. repeat constructor.
  - reflexivity.
Defined.

(** ** The clearance check, exactly *)




(** ** The decoder, exactly *)

Lemma range_lookup (n : Z) (i : nat) :
  (i < Z.to_nat n)%nat -> range n !! i = Some (Z.of_nat i).
Proof.
  intros Hi. unfold range. change (map Z.of_nat (seq 0 (Z.to_nat n)))
    with (Z.of_nat <$> seq 0 (Z.to_nat n)).
  rewrite list_lookup_fmap, lookup_seq_lt by exact Hi. reflexivity.
Qed.

Lemma reshape_shaped (ws : list Z) (width depth : Z) :
  shaped width depth (reshape ws width depth).
Proof.
  unfold shaped, reshape. split.
  - now rewrite length_map, range_length.
  - apply Forall_forall. intros row Hrow. apply list_elem_of_In, in_map_iff in Hrow.
    destruct Hrow as [x [<- _]]. now rewrite length_map, range_length.
Qed.

Lemma getitem2_reshape (ws : list Z) (width depth x z : Z) :
  0 <= x < width -> 0 <= z < depth ->
  getitem2 (reshape ws width depth) x z = Ok (nth (Z.to_nat (x * depth + z)) ws 0).
Proof.
  intros Hx Hz.
  destruct (getitem2_shaped width depth _ x z (reshape_shaped ws width depth) Hx Hz)
    as [row [v [Hrow [Hv Hget]]]].
  rewrite Hget. f_equal.
  unfold reshape in Hrow.
  change (map ?f ?l) with (f <$> l) in Hrow.
  rewrite list_lookup_fmap, range_lookup in Hrow by lia.
  cbn in Hrow. injection Hrow as <-.
  change (map ?f ?l) with (f <$> l) in Hv.
  rewrite list_lookup_fmap, range_lookup in Hv by lia.
  cbn in Hv. injection Hv as <-.
  rewrite !Z2Nat.id by lia. reflexivity.
Qed.

Lemma grid_ext (width depth : Z) (g1 g2 : grid) :
  shaped width depth g1 -> shaped width depth g2 ->
  (forall x z, 0 <= x < width -> 0 <= z < depth -> getitem2 g1 x z = getitem2 g2 x z) ->
  g1 = g2.
Proof.
  intros Hs1 Hs2 Hcells. apply list_eq. intros i.
  destruct (Nat.lt_ge_cases i (Z.to_nat width)) as [Hi|Hi].
  2:{ destruct Hs1 as [Hl1 _], Hs2 as [Hl2 _].
      rewrite !lookup_ge_None_2 by lia. reflexivity. }
  assert (Hx : 0 <= Z.of_nat i < width) by lia.
  destruct (shaped_row _ _ _ _ Hs1 Hx) as [r1 [Hr1 [_ Hlen1]]].
  destruct (shaped_row _ _ _ _ Hs2 Hx) as [r2 [Hr2 [_ Hlen2]]].
  rewrite Nat2Z.id in Hr1, Hr2. rewrite Hr1, Hr2. f_equal.
  apply list_eq. intros j.
  destruct (Nat.lt_ge_cases j (Z.to_nat depth)) as [Hj|Hj].
  2:{ rewrite !lookup_ge_None_2 by lia. reflexivity. }
  assert (Hz : 0 <= Z.of_nat j < depth) by lia.
  specialize (Hcells _ _ Hx Hz).
  destruct (getitem2_shaped _ _ _ _ _ Hs1 Hx Hz) as [r1' [v1 [Hr1' [Hv1 Hg1]]]].
  destruct (getitem2_shaped _ _ _ _ _ Hs2 Hx Hz) as [r2' [v2 [Hr2' [Hv2 Hg2]]]].
  rewrite Nat2Z.id in Hr1', Hr2', Hv1, Hv2.
  assert (r1' = r1) by congruence. assert (r2' = r2) by congruence. subst r1' r2'.
  rewrite Hv1, Hv2. congruence.
Qed.

(** X4: the decoded grid is the expanded stream laid out over the grid with
    [z] running fastest, padded with 0: a run that reaches the end of a row
    continues in the next one, and what exceeds the grid is dropped. *)
Theorem rle_decode_reshape (bs : list byte) (width depth : Z) :
  rle_decode bs width depth = Ok (reshape (rle_expand bs) width depth).
Proof.
  destruct (rle_decode_cells bs width depth) as [tiles [E [Hs Hcells]]].
  rewrite E. f_equal. apply (grid_ext width depth); [exact Hs|apply reshape_shaped|].
  intros x z Hx Hz. rewrite (Hcells x z Hx Hz), getitem2_reshape by assumption.
  reflexivity.
Qed.

Lemma nth_firstn_lt (l : list Z) (n i : nat) :
  (i < n)%nat -> nth i (firstn n l) 0 = nth i l 0.
Proof.
  revert n i. induction l as [|a l IH]; intros n i Hi.
  - rewrite firstn_nil. reflexivity.
  - destruct n as [|n]; [lia|]. destruct i as [|i]; [reflexivity|].
    cbn [firstn nth]. apply IH. lia.
Qed.

(** X5: the decoded grid depends only on the first [width * depth] values
    of the expanded stream; whatever the stream holds beyond the capacity of
    the grid is ignored. *)
Theorem rle_decode_capacity (bs1 bs2 : list byte) (width depth : Z) :
  firstn (Z.to_nat (width * depth)) (rle_expand bs1)
    = firstn (Z.to_nat (width * depth)) (rle_expand bs2) ->
  rle_decode bs1 width depth = rle_decode bs2 width depth.
Proof.
  intros Hpre.
  destruct (rle_decode_cells bs1 width depth) as [t1 [E1 [Hs1 Hc1]]].
  destruct (rle_decode_cells bs2 width depth) as [t2 [E2 [Hs2 Hc2]]].
  rewrite E1, E2. f_equal. apply (grid_ext width depth); try assumption.
  intros x z Hx Hz. rewrite (Hc1 x z Hx Hz), (Hc2 x z Hx Hz). f_equal.
  assert (Hi : (Z.to_nat (x * depth + z) < Z.to_nat (width * depth))%nat) by nia.
  rewrite <- (nth_firstn_lt (rle_expand bs1) _ _ Hi).
  rewrite <- (nth_firstn_lt (rle_expand bs2) _ _ Hi).
  now rewrite Hpre.
Qed.

Lemma rle_decode_capacity_witness :
  rle_decode [x01; xff; x09] 2 3 = rle_decode [x01; xff; x06; x02; x03] 2 3.
Proof.
  apply (rle_decode_capacity [x01; xff; x09] [x01; xff; x06; x02; x03] 2 3).
  reflexivity.
Defined.

(** ** What the placement loops emit *)

Lemma py_int_between (a b : Z) (q : Q) :
  (inject_Z a <= q)%Q -> (q <= inject_Z b)%Q -> a <= py_int q <= b.
Proof.
  unfold Qle, py_int. destruct q as [n d]. cbn [Qnum Qden inject_Z]. intros Ha Hb.
  split.
  - rewrite <- (Z.quot_mul a (Z.pos d)) by lia. apply Z.quot_le_mono; lia.
  - rewrite <- (Z.quot_mul b (Z.pos d)) by lia. apply Z.quot_le_mono; lia.
Qed.

Lemma py_int_offset (a : Z) (o : Q) :
  (- 4 <= o)%Q -> (o <= 4)%Q -> a - 4 <= py_int (inject_Z a + o) <= a + 4.
Proof.
  intros Hlo Hhi. apply py_int_between.
  - unfold Qle, Qplus, inject_Z in *. destruct o as [n d]. cbn in *. lia.
  - unfold Qle, Qplus, inject_Z in *. destruct o as [n d]. cbn in *. lia.
Qed.

Section Emitted.

Variable R : RandomSource.
Abbreviation rng := (rs_state R).

Lemma choice_In (seq : list string) (g : rng) (r : string * rng) :
  choice R seq g = Ok r -> In (fst r) seq.
Proof.
  unfold choice. destruct seq as [|d seq]; [discriminate|].
  pose proof (rs_randbelow_lt R (length (d :: seq)) g ltac:(cbn; lia)) as Hlt.
  destruct (rs_randbelow R (length (d :: seq)) g) as [i g']. cbn [fst] in Hlt.
  intros H. injection H as <-. exact (nth_In (d :: seq) d Hlt).
Qed.

Lemma randint_range (a b : Z) (g : rng) :
  a <= b -> a <= fst (randint R a b g) <= b.
Proof.
  intros Hab. unfold randint.
  pose proof (rs_randbelow_lt R (Z.to_nat (b - a + 1)) g ltac:(lia)) as Hlt.
  destruct (rs_randbelow R (Z.to_nat (b - a + 1)) g) as [i g']. cbn [fst] in *. lia.
Qed.

Lemma boss_override_spec (dist : root) (monster_type : string) (g : rng)
    (b : string * bool * rng) :
  boss_override R dist monster_type g = Ok b ->
  (snd (fst b) = true -> root_gt dist 120 = true /\ In (fst (fst b)) BOSSES) /\
  (snd (fst b) = false -> fst (fst b) = monster_type).
Proof.
  unfold boss_override. destruct (root_gt dist 120).
  - destruct (rs_random R g) as [u g1]. destruct (Qltb u (2 # 100)).
    + destruct (choice R BOSSES g1) as [r|] eqn:E; cbn [bind]; [|discriminate].
      intros H. injection H as <-. cbn [fst snd]. split; [|discriminate].
      intros _. split; [reflexivity|]. now apply choice_In in E.
    + intros H. injection H as <-. cbn [fst snd]. split; [discriminate|reflexivity].
  - intros H. injection H as <-. cbn [fst snd]. split; [discriminate|reflexivity].
Qed.

Lemma place_monsters_emits (target : nat) (spawn_pos : pos) :
  forall floor_positions (st st' : state rng),
  place_monsters R floor_positions target spawn_pos st = Ok st' ->
  exists es, new_enemies st' = new_enemies st ++ es /\
             Forall (single_monster spawn_pos) es.
Proof.
  induction floor_positions as [|p rest IH]; intros st st' H; cbn [place_monsters] in H.
  - injection H as <-. exists []. now rewrite app_nil_r.
  - destruct (target <=? monsters_placed st)%nat.
    { injection H as <-. exists []. now rewrite app_nil_r. }
    rewrite distance_from_pair in H. cbn [bind] in H.
    destruct (root_lt (euclid p spawn_pos) 15) eqn:Esafe; [now apply IH|].
    destruct (is_position_clear p (placed_positions st) 5) as [[|]|];
      cbn [bind negb] in H; [|now apply IH|discriminate].
    destruct (choice R _ (gen st)) as [r|] eqn:Echoice; cbn [bind] in H; [|discriminate].
    destruct (boss_override R _ (fst r) (snd r)) as [[[monster_type is_boss] g2]|] eqn:Eboss;
      cbn [bind] in H; [|discriminate].
    pose proof (uniform_range R 0 (628 # 100) g2 ltac:(lra)) as Hrot.
    destruct (uniform R 0 (628 # 100) g2) as [rotation g3]. cbn [fst] in Hrot.
    destruct (IH _ _ H) as (es & Hes & Hall). cbn [new_enemies] in Hes.
    eexists (_ :: es). split; [rewrite Hes, <- app_assoc; reflexivity|].
    constructor; [|exact Hall].
    pose proof (tier_range (euclid p spawn_pos)) as Htier.
    apply choice_In in Echoice. apply boss_override_spec in Eboss.
    cbn [fst snd] in Eboss. destruct Eboss as [Hboss Hplain].
    unfold single_monster.
    cbn [en_position en_level en_roomId en_rotationY en_isBoss en_type].
    replace (Z.max 1 (get_tier_for_distance (euclid p spawn_pos)))
      with (get_tier_for_distance (euclid p spawn_pos)) by lia.
    split; [now apply root_lt_false|]. split; [reflexivity|]. split; [reflexivity|].
    split; [exact Hrot|]. split; [exact Hboss|].
    intros Hb. rewrite (Hplain Hb). exact Echoice.
Qed.

Lemma place_props_emits (target : nat) (spawn_pos : pos) :
  forall floor_positions (st st' : state rng),
  place_props R floor_positions target spawn_pos st = Ok st' ->
  exists cells ps,
    placed_positions st' = placed_positions st ++ map Pair cells /\
    new_props st' = new_props st ++ ps /\
    Forall2 (placed_prop spawn_pos) ps cells.
Proof.
  induction floor_positions as [|p rest IH]; intros st st' H; cbn [place_props] in H.
  - injection H as <-. exists [], []. cbn. rewrite !app_nil_r. repeat split. constructor.
  - destruct (target <=? props_placed st)%nat.
    { injection H as <-. exists [], []. cbn. rewrite !app_nil_r. repeat split. constructor. }
    rewrite distance_from_pair in H. cbn [bind] in H.
    destruct (is_position_clear p (placed_positions st) 2) as [[|]|];
      cbn [bind negb] in H; [|now apply IH|discriminate].
    destruct (choice R _ (gen st)) as [r|] eqn:Echoice; cbn [bind] in H; [|discriminate].
    pose proof (uniform_range R (- (3 # 10)) (3 # 10) (snd r) ltac:(lra)) as Hjx.
    destruct (uniform R (- (3 # 10)) (3 # 10) (snd r)) as [jx g2]. cbn [fst] in Hjx.
    pose proof (uniform_range R (- (3 # 10)) (3 # 10) g2 ltac:(lra)) as Hjz.
    destruct (uniform R (- (3 # 10)) (3 # 10) g2) as [jz g3]. cbn [fst] in Hjz.
    pose proof (uniform_range R 0 (628 # 100) g3 ltac:(lra)) as Hrot.
    destruct (uniform R 0 (628 # 100) g3) as [rotation g4]. cbn [fst] in Hrot.
    pose proof (uniform_range R (8 # 10) (12 # 10) g4 ltac:(lra)) as Hscale.
    destruct (uniform R (8 # 10) (12 # 10) g4) as [scale g5]. cbn [fst] in Hscale.
    destruct (IH _ _ H) as (cells & ps & H1 & H2 & H3).
    cbn [placed_positions new_props] in H1, H2.
    exists (p :: cells). eexists (_ :: ps). cbn [map].
    split; [rewrite H1, <- app_assoc; reflexivity|].
    split; [rewrite H2, <- app_assoc; reflexivity|].
    constructor; [|exact H3].
    apply choice_In in Echoice.
    unfold placed_prop, on_cell.
    cbn [pr_x pr_y pr_z pr_rotationY pr_scale pr_type].
    split; [repeat split; lra|]. split; [reflexivity|].
    split; [exact Hrot|]. split; [exact Hscale|]. exact Echoice.
Qed.

Lemma place_cluster_emits (tiles : grid) (width depth : Z) (p : pos) (tier : Z)
    (monster_pool : list string) :
  forall cluster_size enemies g enemies' g',
  place_cluster R cluster_size tiles width depth p tier monster_pool enemies g
    = Ok (enemies', g') ->
  exists members,
    enemies' = enemies ++ members /\
    (length members <= cluster_size)%nat /\
    Forall (fun e =>
              within 4 (en_position e) p /\
              en_level e = Z.max 1 tier /\
              en_roomId e = -1 /\
              en_isBoss e = false /\
              (0 <= en_rotationY e /\ en_rotationY e <= 628 # 100)%Q /\
              In (en_type e) monster_pool) members.
Proof.
  induction cluster_size as [|n IH]; intros enemies g enemies' g' H;
    cbn [place_cluster] in H.
  - injection H as <- <-. exists []. rewrite app_nil_r.
    split; [reflexivity|]. split; [cbn; lia|constructor].
  - assert (Hskip : forall g2,
              place_cluster R n tiles width depth p tier monster_pool enemies g2
                = Ok (enemies', g') ->
              exists members,
                enemies' = enemies ++ members /\
                (length members <= S n)%nat /\
                Forall (fun e =>
                          within 4 (en_position e) p /\
                          en_level e = Z.max 1 tier /\
                          en_roomId e = -1 /\
                          en_isBoss e = false /\
                          (0 <= en_rotationY e /\ en_rotationY e <= 628 # 100)%Q /\
                          In (en_type e) monster_pool) members).
    { intros g2 H2. destruct (IH _ _ _ _ H2) as (ms & E & Hlen & Hall).
      exists ms. split; [exact E|]. split; [lia|exact Hall]. }
    pose proof (uniform_range R (- 4) 4 g ltac:(lra)) as Hox.
    destruct (uniform R (- 4) 4 g) as [offset_x g1]. cbn [fst] in Hox.
    pose proof (uniform_range R (- 4) 4 g1 ltac:(lra)) as Hoz.
    destruct (uniform R (- 4) 4 g1) as [offset_z g2]. cbn [fst] in Hoz.
    cbn [fst snd] in H.
    assert (Hmx : fst p - 4 <= py_int (inject_Z (fst p) + offset_x) <= fst p + 4).
    { apply py_int_offset; lra. }
    assert (Hmz : snd p - 4 <= py_int (inject_Z (snd p) + offset_z) <= snd p + 4).
    { apply py_int_offset; lra. }
    set (mx := py_int (inject_Z (fst p) + offset_x)) in *.
    set (mz := py_int (inject_Z (snd p) + offset_z)) in *.
    destruct ((mx <? 0) || (width <=? mx)); [now apply Hskip in H|].
    destruct ((mz <? 0) || (depth <=? mz)); [now apply Hskip in H|].
    destruct (getitem2 tiles mx mz) as [t|]; cbn [bind] in H; [|discriminate].
    destruct (negb (t =? 1)); [now apply Hskip in H|].
    destruct (choice R monster_pool g2) as [r|] eqn:Echoice; cbn [bind] in H; [|discriminate].
    pose proof (uniform_range R 0 (628 # 100) (snd r) ltac:(lra)) as Hrot.
    destruct (uniform R 0 (628 # 100) (snd r)) as [rotation g4]. cbn [fst] in Hrot.
    destruct (IH _ _ _ _ H) as (ms & -> & Hlen & Hall).
    eexists (_ :: ms). split; [now rewrite <- app_assoc|].
    split; [cbn [length]; lia|].
    constructor; [|exact Hall].
    apply choice_In in Echoice.
    cbn [en_position en_level en_roomId en_rotationY en_isBoss en_type].
    unfold within. cbn [fst snd].
    split; [lia|]. repeat split; try assumption; apply Hrot.
Qed.

Lemma place_groups_emits (tiles : grid) (width depth : Z) (target : nat)
    (spawn_pos : pos) :
  forall anchors (st st' : state rng),
  place_groups R tiles width depth anchors target spawn_pos st = Ok st' ->
  exists groups : list (pos * list enemy),
    placed_positions st' = placed_positions st ++ map Pair (map fst groups) /\
    new_enemies st' = new_enemies st ++ concat (map snd groups) /\
    groups_placed st' = (groups_placed st + length groups)%nat /\
    Forall (fun gr =>
              root_ge (euclid (fst gr) spawn_pos) 40 /\
              (length (snd gr) <= 5)%nat /\
              Forall (group_member spawn_pos (fst gr)) (snd gr)) groups.
Proof.
  induction anchors as [|p rest IH]; intros st st' H; cbn [place_groups] in H.
  - injection H as <-. exists []. cbn. rewrite !app_nil_r.
    repeat split; try lia. constructor.
  - destruct (target <=? groups_placed st)%nat.
    { injection H as <-. exists []. cbn. rewrite !app_nil_r.
      repeat split; try lia. constructor. }
    rewrite distance_from_pair in H. cbn [bind] in H.
    destruct (root_lt (euclid p spawn_pos) 40) eqn:Efar; [now apply IH|].
    destruct (is_position_clear p (placed_positions st) 10) as [[|]|];
      cbn [bind negb] in H; [|now apply IH|discriminate].
    pose proof (randint_range 3 5 (gen st) ltac:(lia)) as Hsize.
    destruct (randint R 3 5 (gen st)) as [cluster_size g1]. cbn [fst] in Hsize.
    destruct (place_cluster R _ tiles width depth p _ _ (new_enemies st) g1)
      as [[enemies' g']|] eqn:Ecluster; cbn [bind fst snd] in H; [|discriminate].
    destruct (place_cluster_emits _ _ _ _ _ _ _ _ _ _ _ Ecluster) as (ms & -> & Hlen & Hms).
    destruct (IH _ _ H) as (groups & H1 & H2 & H3 & H4).
    cbn [placed_positions new_enemies groups_placed] in H1, H2, H3.
    exists ((p, ms) :: groups). cbn [map fst snd concat length].
    split; [rewrite H1, <- app_assoc; reflexivity|].
    split; [rewrite H2, <- !app_assoc; reflexivity|].
    split; [lia|].
    constructor; [|exact H4]. cbn [fst snd].
    apply root_lt_false in Efar.
    split; [exact Efar|]. split; [lia|].
    eapply Forall_impl; [exact Hms|]. cbn beta.
    intros e (Hw & Hl & Hroom & Hboss & Hrot & Htype).
    pose proof (tier_range (euclid p spawn_pos)) as Htier.
    assert (Htier2 : 2 <= get_tier_for_distance (euclid p spawn_pos)).
    { unfold get_tier_for_distance. rewrite !root_lt_literal by lia.
      apply root_ge_literal in Efar; [|lia].
      destruct (Z.ltb_spec (radicand (euclid p spawn_pos)) (30 * 30)); [lia|].
      repeat match goal with |- context [?a <? ?b] => destruct (a <? b) end; lia. }
    unfold group_member.
    split; [exact Hw|]. split; [lia|]. split; [lia|]. split; [exact Hroom|].
    split; [exact Hboss|]. split; [exact Hrot|]. exact Htype.
Qed.

End Emitted.

Section Engine.

Variable R : RandomSource.
Abbreviation rng := (rs_state R).

(** X6: every monster of Phase A stands outside the safe zone, at distance
    15 or more from the spawn; its level is the tier of its distance; its
    room id is -1; a boss only occurs beyond distance 120 and carries a boss
    tag, any other monster carries a tag from the pool of its tier. *)
Theorem single_monsters_emitted (tiles : grid) (width depth : Z)
    (floor_positions : list pos) (spawn_pos : pos) (placed : list entry) (g : rng)
    (r : run rng) :
  place R tiles width depth floor_positions spawn_pos placed g = Ok r ->
  Forall (single_monster spawn_pos) (new_enemies (after_monsters r)).
Proof.
  intros H. destruct (place_phases R _ _ _ _ _ _ _ _ H) as (sh & g0 & _ & Ha & _).
  destruct (place_monsters_emits R _ _ _ _ _ Ha) as (es & -> & Hall). exact Hall.
Qed.

(** X7: every prop of Phase B lies on the floor at height 0, within 0.3 per
    axis of the cell registered for it, with a rotation in [0, 6.28] and a
    scale in [0.8, 1.2], and carries a tag from the pool of its distance
    band; Phase C adds no prop. *)
Theorem props_emitted (tiles : grid) (width depth : Z)
    (floor_positions : list pos) (spawn_pos : pos) (placed : list entry) (g : rng)
    (r : run rng) :
  place R tiles width depth floor_positions spawn_pos placed g = Ok r ->
  new_props (after_monsters r) = [] /\
  new_props (after_groups r) = new_props (after_props r) /\
  exists cells,
    placed_positions (after_props r) =
      placed_positions (after_monsters r) ++ map Pair cells /\
    Forall2 (placed_prop spawn_pos) (new_props (after_props r)) cells.
Proof.
  intros H. destruct (place_phases R _ _ _ _ _ _ _ _ H) as (sh & g0 & _ & Ha & Hb & Hc).
  destruct (place_monsters_post R _ _ _ _ _ Ha) as (_ & _ & _ & _ & _ & _ & _ & A6 & _).
  destruct (place_groups_post R _ _ _ _ _ _ _ _ Hc) as (_ & _ & _ & _ & _ & _ & _ & C6 & _).
  destruct (place_props_emits R _ _ _ _ _ Hb) as (cells & ps & B1 & B2 & B3).
  cbn [new_props] in A6. rewrite A6 in B2. cbn [app] in B2.
  split; [exact A6|]. split; [exact C6|].
  exists cells. split; [exact B1|]. now rewrite B2.
Qed.

(** X8: Phase C places its groups around anchors at distance 40 or more
    from the spawn.  A group has at most 5 members, each within 4 cells of
    the anchor on both axes, never a boss, at the level of the anchor's
    tier, which is 2 or more, with a tag from the cluster pool of that tier.
    Props do not change the enemies. *)
Theorem groups_emitted (tiles : grid) (width depth : Z)
    (floor_positions : list pos) (spawn_pos : pos) (placed : list entry) (g : rng)
    (r : run rng) :
  place R tiles width depth floor_positions spawn_pos placed g = Ok r ->
  new_enemies (after_props r) = new_enemies (after_monsters r) /\
  exists groups : list (pos * list enemy),
    placed_positions (after_groups r) =
      placed_positions (after_props r) ++ map Pair (map fst groups) /\
    new_enemies (after_groups r) =
      new_enemies (after_monsters r) ++ concat (map snd groups) /\
    groups_placed (after_groups r) = length groups /\
    Forall (fun gr =>
              root_ge (euclid (fst gr) spawn_pos) 40 /\
              (length (snd gr) <= 5)%nat /\
              Forall (group_member spawn_pos (fst gr)) (snd gr)) groups.
Proof.
  intros H. destruct (place_phases R _ _ _ _ _ _ _ _ H) as (sh & g0 & _ & Ha & Hb & Hc).
  destruct (place_monsters_post R _ _ _ _ _ Ha)
    as (_ & _ & _ & _ & _ & _ & _ & _ & _ & _ & _ & A10).
  destruct (place_props_post R _ _ _ _ _ Hb)
    as (_ & _ & _ & _ & _ & _ & _ & B6 & _ & _ & _ & B10).
  destruct (place_groups_emits R _ _ _ _ _ _ _ _ Hc) as (groups & G1 & G2 & G3 & G4).
  cbn [groups_placed] in A10. rewrite B10, A10 in G3. rewrite B6 in G2.
  split; [exact B6|]. exists groups. auto.
Qed.

(** X9: spacing across the phases.  The positions each phase adds to the
    register are the monsters of Phase A, then the cells of Phase B, then
    the anchors of Phase C.  A monster of Phase A is at distance 5 or more
    from every position registered before the run; a cell of Phase B is at
    distance 2 or more from those and from every monster of Phase A; an
    anchor of Phase C is at distance 10 or more from all of these and from
    every cell of Phase B. *)
Theorem spacing_across_phases (tiles : grid) (width depth : Z)
    (floor_positions : list pos) (spawn_pos : pos) (placed : list entry) (g : rng)
    (r : run rng) :
  place R tiles width depth floor_positions spawn_pos placed g = Ok r ->
  exists monster_cells prop_cells anchors,
    monster_cells = map en_position (new_enemies (after_monsters r)) /\
    placed_positions (after_monsters r) = placed ++ map Pair monster_cells /\
    placed_positions (after_props r) =
      placed_positions (after_monsters r) ++ map Pair prop_cells /\
    placed_positions (after_groups r) =
      placed_positions (after_props r) ++ map Pair anchors /\
    placed_positions (after_groups r) =
      placed ++ map Pair monster_cells ++ map Pair prop_cells ++ map Pair anchors /\
    Forall2 on_cell (new_props (after_props r)) prop_cells /\
    length anchors = groups_placed (after_groups r) /\
    (forall m q, In m monster_cells -> In (Pair q) placed -> root_ge (euclid m q) 5) /\
    (forall c q, In c prop_cells -> In (Pair q) placed \/ In q monster_cells ->
                 root_ge (euclid c q) 2) /\
    (forall a q, In a anchors ->
                 In (Pair q) placed \/ In q monster_cells \/ In q prop_cells ->
                 root_ge (euclid a q) 10).
Proof.
  intros H.
  destruct (place_post R _ _ _ _ _ _ _ _ H)
    as (mc & pc & gc & ms & A0 & A1 & A2 & A3 & A4 & A5 & B1 & B2 & B3 & B4 & B5 & B6 &
        C1 & C2 & C3 & C4 & C5 & C6 & _).
  exists mc, pc, gc. split; [now rewrite A2|]. split; [exact A0|]. split; [exact B1|].
  split; [rewrite C1, B1, A0, <- !app_assoc; reflexivity|]. split; [exact C1|].
  split; [exact B3|]. split; [now rewrite C6|].
  destruct (registered_far _ _ _ A1) as [_ HA].
  destruct (registered_far _ _ _ B2) as [_ HB].
  destruct (registered_far _ _ _ C2) as [_ HC].
  split; [exact HA|]. split.
  - intros c q Hc [Hq|Hq]; apply (HB c q Hc); apply in_or_app; [now left|right].
    now apply in_map.
  - intros a q Ha Hq. apply (HC a q Ha).
    rewrite !in_app_iff. destruct Hq as [Hq|[Hq|Hq]]; [now left| |].
    + right. left. now apply in_map.
    + right. right. now apply in_map.
Qed.

(** X10: the anchors of Phase C are taken, in order, from every 50th
    position of the list that [random.shuffle] made of the floor list: the
    positions at the indices 0, 50, 100, ... of that list and no other. *)
Theorem anchors_at_stride (tiles : grid) (width depth : Z)
    (floor_positions : list pos) (spawn_pos : pos) (placed : list entry) (g : rng)
    (r : run rng) :
  place R tiles width depth floor_positions spawn_pos placed g = Ok r ->
  let shuffled := fst (rs_shuffle R floor_positions g) in
  Permutation floor_positions shuffled /\
  (forall i, slice_step 50 shuffled !! i = shuffled !! (50 * i)%nat) /\
  exists anchors,
    placed_positions (after_groups r) =
      placed_positions (after_props r) ++ map Pair anchors /\
    length anchors = groups_placed (after_groups r) /\
    sublist anchors (slice_step 50 shuffled) /\
    forall a, In a anchors -> exists i, shuffled !! (50 * i)%nat = Some a.
Proof.
  intros H shuffled. subst shuffled.
  destruct (place_phases R _ _ _ _ _ _ _ _ H) as (sh & g0 & Hsh & Ha & Hb & Hc).
  rewrite Hsh. cbn [fst].
  split.
  { pose proof (rs_shuffle_perm R floor_positions g) as Hperm. now rewrite Hsh in Hperm. }
  split; [intros i; apply slice_step_stride; lia|].
  destruct (place_monsters_post R _ _ _ _ _ Ha)
    as (_ & _ & _ & _ & _ & _ & _ & _ & _ & _ & _ & A10).
  destruct (place_props_post R _ _ _ _ _ Hb)
    as (_ & _ & _ & _ & _ & _ & _ & _ & _ & _ & _ & B10).
  destruct (place_groups_members R _ _ _ _ _ _ _ _ Hc) as (groups & G1 & _ & G3 & G4 & _).
  cbn [groups_placed] in A10. rewrite B10, A10 in G3.
  exists (map fst groups). split; [exact G1|]. split; [now rewrite G3, length_map|].
  split; [exact G4|].
  intros a Hin. apply list_elem_of_In in Hin.
  pose proof (elem_of_sublist _ _ _ Hin G4) as Hs.
  apply list_elem_of_lookup in Hs. destruct Hs as [i Hi]. exists i.
  now rewrite <- slice_step_stride by lia.
Qed.

End Engine.

Lemma single_monsters_emitted_witness :
  exists r,
    place lcg_source tiles_60_10 60 10 floor_60_10 (0, 0) [Pair (0, 0)] 7%N = Ok r /\
    map en_level (new_enemies (after_monsters r)) = [2; 2; 2; 2; 2; 2] /\
    Forall (single_monster (0, 0)) (new_enemies (after_monsters r)).
Proof.
  eexists. split; [vm_compute; reflexivity|]. split; [reflexivity|].
  apply (single_monsters_emitted lcg_source tiles_60_10 60 10 floor_60_10 (0, 0)
           [Pair (0, 0)] 7%N).
  vm_compute. reflexivity.
Defined.

Lemma props_emitted_witness :
  exists r,
    place lcg_source tiles_60_10 60 10 floor_60_10 (0, 0) [Pair (0, 0)] 7%N = Ok r /\
    length (new_props (after_props r)) = 12%nat /\
    new_props (after_monsters r) = [] /\
    new_props (after_groups r) = new_props (after_props r) /\
    exists cells,
      placed_positions (after_props r) =
        placed_positions (after_monsters r) ++ map Pair cells /\
      Forall2 (placed_prop (0, 0)) (new_props (after_props r)) cells.
Proof.
  eexists. split; [vm_compute; reflexivity|]. split; [reflexivity|].
  apply (props_emitted lcg_source tiles_60_10 60 10 floor_60_10 (0, 0)
           [Pair (0, 0)] 7%N).
  vm_compute. reflexivity.
Defined.

Lemma groups_emitted_witness :
  exists r,
    place lcg_source tiles_60_10 60 10 floor_60_10 (0, 0) [Pair (0, 0)] 7%N = Ok r /\
    groups_placed (after_groups r) = 1%nat /\
    new_enemies (after_props r) = new_enemies (after_monsters r) /\
    exists groups : list (pos * list enemy),
      placed_positions (after_groups r) =
        placed_positions (after_props r) ++ map Pair (map fst groups) /\
      new_enemies (after_groups r) =
        new_enemies (after_monsters r) ++ concat (map snd groups) /\
      groups_placed (after_groups r) = length groups /\
      Forall (fun gr =>
                root_ge (euclid (fst gr) (0, 0)) 40 /\
                (length (snd gr) <= 5)%nat /\
                Forall (group_member (0, 0) (fst gr)) (snd gr)) groups.
Proof.
  eexists. split; [vm_compute; reflexivity|]. split; [reflexivity|].
  apply (groups_emitted lcg_source tiles_60_10 60 10 floor_60_10 (0, 0)
           [Pair (0, 0)] 7%N).
  vm_compute. reflexivity.
Defined.

Lemma spacing_across_phases_witness :
  exists r,
    place lcg_source tiles_60_10 60 10 floor_60_10 (0, 0) [Pair (0, 0); Pair (59, 8)] 7%N
      = Ok r /\
    map en_position (new_enemies (after_monsters r))
      = [(59, 3); (55, 0); (54, 9); (52, 4); (49, 9); (49, 0)] /\
    exists monster_cells prop_cells anchors,
      monster_cells = map en_position (new_enemies (after_monsters r)) /\
      placed_positions (after_monsters r) =
        [Pair (0, 0); Pair (59, 8)] ++ map Pair monster_cells /\
      placed_positions (after_props r) =
        placed_positions (after_monsters r) ++ map Pair prop_cells /\
      placed_positions (after_groups r) =
        placed_positions (after_props r) ++ map Pair anchors /\
      placed_positions (after_groups r) =
        [Pair (0, 0); Pair (59, 8)]
          ++ map Pair monster_cells ++ map Pair prop_cells ++ map Pair anchors /\
      Forall2 on_cell (new_props (after_props r)) prop_cells /\
      length anchors = groups_placed (after_groups r) /\
      (forall m q, In m monster_cells -> In (Pair q) [Pair (0, 0); Pair (59, 8)] ->
                   root_ge (euclid m q) 5) /\
      (forall c q, In c prop_cells ->
                   In (Pair q) [Pair (0, 0); Pair (59, 8)] \/ In q monster_cells ->
                   root_ge (euclid c q) 2) /\
      (forall a q, In a anchors ->
                   In (Pair q) [Pair (0, 0); Pair (59, 8)] \/ In q monster_cells
                   \/ In q prop_cells ->
                   root_ge (euclid a q) 10).
Proof.
  eexists. split; [vm_compute; reflexivity|]. split; [reflexivity|].
  apply (spacing_across_phases lcg_source tiles_60_10 60 10 floor_60_10 (0, 0)
           [Pair (0, 0); Pair (59, 8)] 7%N).
  vm_compute. reflexivity.
Defined.

Lemma anchors_at_stride_witness :
  exists r,
    place lcg_source tiles_60_10 60 10 floor_60_10 (0, 0) [Pair (0, 0)] 7%N = Ok r /\
    skipn (length (placed_positions (after_props r))) (placed_positions (after_groups r))
      = [Pair (39, 9)] /\
    rev floor_60_10 !! (50 * 4)%nat = Some (39, 9) /\
    let shuffled := fst (rs_shuffle lcg_source floor_60_10 7%N) in
    Permutation floor_60_10 shuffled /\
    (forall i, slice_step 50 shuffled !! i = shuffled !! (50 * i)%nat) /\
    exists anchors,
      placed_positions (after_groups r) =
        placed_positions (after_props r) ++ map Pair anchors /\
      length anchors = groups_placed (after_groups r) /\
      sublist anchors (slice_step 50 shuffled) /\
      forall a, In a anchors -> exists i, shuffled !! (50 * i)%nat = Some a.
Proof.
  eexists. split; [vm_compute; reflexivity|]. split; [reflexivity|].
  split; [reflexivity|].
  apply (anchors_at_stride lcg_source tiles_60_10 60 10 floor_60_10 (0, 0)
           [Pair (0, 0)] 7%N).
  vm_compute. reflexivity.
Defined.

(** ** The files and the merged document *)

Section Files.

Variable b64decode : string -> option (list byte).
Variable gzip_decompress : list byte -> option (list byte).
Variable R : RandomSource.
Abbreviation rng := (rs_state R).

Lemma populate_is_merge (map_data populated : document) (tile_data : string) (g : rng) :
  populate b64decode gzip_decompress R map_data tile_data g = Ok populated ->
  exists enemies props, populated = merge map_data enemies props.
Proof.
  unfold populate. intros H.
  destruct (decode_tile_data _ _ _ _ _) as [tiles|]; cbn [bind] in H; [|discriminate].
  destruct (find_floor_positions _ _ _) as [floor|]; cbn [bind] in H; [|discriminate].
  unfold generate in H.
  destruct (place R _ _ _ _ _ _ _) as [r|]; cbn [bind] in H; [|discriminate].
  injection H as <-. eauto.
Qed.

(** X11: whatever happens, [populate_map] leaves every file other than the
    destination as it was. *)
Theorem populate_map_other_paths (input_path output_path path : string)
    (fs : gmap string document) (g : rng) :
  path <> output_path ->
  fst (populate_map b64decode gzip_decompress R input_path output_path fs g) !! path
    = fs !! path.
Proof.
  intros Hne. unfold populate_map.
  destruct (fs !! input_path) as [map_data|]; [|reflexivity].
  destruct (String.eqb _ _); [reflexivity|].
  destruct (populate _ _ _ _ _ _); [|reflexivity].
  cbn [fst]. apply lookup_insert_ne. congruence.
Qed.

(** X12: how a run fails before placement.  A missing input file raises
    [FileNotFoundError]; a tile blob that the base64 or the gzip layer
    rejects raises [DecodeError]; in both cases no file is written. *)
Theorem populate_map_failures (input_path output_path : string)
    (fs : gmap string document) (g : rng) :
  (fs !! input_path = None ->
   populate_map b64decode gzip_decompress R input_path output_path fs g
     = (fs, Raise FileNotFoundError)) /\
  (forall map_data tile_data,
     fs !! input_path = Some map_data ->
     doc_tileData map_data = Some tile_data ->
     tile_data <> EmptyString ->
     b64decode tile_data = None \/
     (exists compressed, b64decode tile_data = Some compressed /\
                         gzip_decompress compressed = None) ->
     populate_map b64decode gzip_decompress R input_path output_path fs g
       = (fs, Raise DecodeError)).
Proof.
  split.
  - intros Hin. unfold populate_map. now rewrite Hin.
  - intros map_data tile_data Hin Htd Hne Hbad. unfold populate_map.
    rewrite Hin, Htd. cbn [get]. apply String.eqb_neq in Hne. rewrite Hne.
    unfold populate, decode_tile_data.
    destruct Hbad as [-> | (compressed & -> & ->)]; reflexivity.
Qed.

(** X13: the pipeline is not idempotent.  Populating the output of a run
    again keeps the first run's entities and appends the second run's, and
    the name ends in the suffix twice; the grid, the spawn and the tile blob
    pass through both runs unchanged. *)
Theorem populate_twice (map_data once twice : document) (tile_data tile_data' : string)
    (g g' : rng) :
  populate b64decode gzip_decompress R map_data tile_data g = Ok once ->
  populate b64decode gzip_decompress R once tile_data' g' = Ok twice ->
  (exists e1 e2 p1 p2,
     doc_enemies once = Some (get (doc_enemies map_data) [] ++ e1) /\
     doc_enemies twice = Some ((get (doc_enemies map_data) [] ++ e1) ++ e2) /\
     doc_placedProps once = Some (get (doc_placedProps map_data) [] ++ p1) /\
     doc_placedProps twice = Some ((get (doc_placedProps map_data) [] ++ p1) ++ p2)) /\
  doc_name twice =
    Some (String.append
            (String.append (get (doc_name map_data) "Map"%string) " (Populated)"%string)
            " (Populated)"%string) /\
  doc_width twice = doc_width map_data /\
  doc_depth twice = doc_depth map_data /\
  doc_spawnPosition twice = doc_spawnPosition map_data /\
  doc_tileData twice = doc_tileData map_data.
Proof.
  intros H1 H2.
  destruct (populate_is_merge _ _ _ _ H1) as (e1 & p1 & ->).
  destruct (populate_is_merge _ _ _ _ H2) as (e2 & p2 & ->).
  split; [exists e1, e2, p1, p2; repeat split|]. repeat split.
Qed.

End Files.

Lemma populate_map_other_paths_witness :
  fst (populate_map plain_b64decode stored_decompress lcg_source
         "in.json" "out.json" fs_small 7%N) !! "in.json"%string = Some doc_small.
Proof.
  refine (eq_trans
            (populate_map_other_paths plain_b64decode stored_decompress lcg_source
               "in.json" "out.json" "in.json" fs_small 7%N _) _).
  - discriminate.
  - vm_compute. reflexivity.
Defined.

Lemma populate_map_failures_witness :
  populate_map plain_b64decode stored_decompress lcg_source
    "missing.json" "out.json" fs_small 7%N = (fs_small, Raise FileNotFoundError).
Proof.
  apply (proj1 (populate_map_failures plain_b64decode stored_decompress lcg_source
                  "missing.json" "out.json" fs_small 7%N)).
  vm_compute. reflexivity.
Defined.

Lemma populate_twice_witness :
  exists twice,
    populate plain_b64decode stored_decompress lcg_source
      (merge doc_small [] []) (String.string_of_list_byte [x01; xff; x31]) 9%N = Ok twice /\
    doc_name twice = Some "Map (Populated) (Populated)"%string.
Proof.
  eexists. split; [vm_compute; reflexivity|].
  refine (eq_trans (proj1 (proj2
    (populate_twice plain_b64decode stored_decompress lcg_source
       doc_small (merge doc_small [] []) _
       (String.string_of_list_byte [x01; xff; x31])
       (String.string_of_list_byte [x01; xff; x31]) 7%N 9%N _ _))) _).
  - vm_compute. reflexivity.
  - vm_compute. reflexivity.
  - reflexivity.
Defined.

(** * Properties of the source-patching scripts *)

(** ** Text *)

Local Arguments String.append : simpl nomatch.

Lemma string_length_append (a b : string) :
  String.length (String.append a b) = (String.length a + String.length b)%nat.
Proof. induction a as [|c a IH]; simpl; [reflexivity|now rewrite IH]. Qed.

Lemma string_append_assoc (a b c : string) :
  String.append (String.append a b) c = String.append a (String.append b c).
Proof. induction a as [|x a IH]; simpl; [reflexivity|now rewrite IH]. Qed.

Lemma string_append_nil_r (a : string) : String.append a EmptyString = a.
Proof. induction a as [|x a IH]; simpl; [reflexivity|now rewrite IH]. Qed.

Lemma substring_whole (s : string) (m : nat) :
  (String.length s <= m)%nat -> String.substring 0 m s = s.
Proof.
  revert m. induction s as [|c s IH]; intros m Hm.
  - destruct m; reflexivity.
  - destruct m as [|m]; [cbn in Hm; lia|]. cbn. rewrite IH; [reflexivity|cbn in Hm; lia].
Qed.

Lemma substring_append_l (a b : string) :
  String.substring 0 (String.length a) (String.append a b) = a.
Proof.
  induction a as [|c a IH]; cbn.
  - destruct b; reflexivity.
  - now rewrite IH.
Qed.

Lemma substring_append_r (a b : string) (m : nat) :
  String.substring (String.length a) m (String.append a b) = String.substring 0 m b.
Proof.
  induction a as [|c a IH]; cbn; [|exact IH].
  destruct b; destruct m; reflexivity.
Qed.

Lemma slice_bound_in (len i : Z) : 0 <= i <= len -> slice_bound len i = Z.to_nat i.
Proof.
  intros Hi. unfold slice_bound.
  destruct (Z.ltb_spec i 0); [lia|]. f_equal. lia.
Qed.

Lemma str_to_append (a b : string) :
  str_to (String.append a b) (Z.of_nat (String.length a)) = a.
Proof.
  unfold str_to. rewrite slice_bound_in, Nat2Z.id by (rewrite string_length_append; lia).
  apply substring_append_l.
Qed.

Lemma str_from_append (a b : string) :
  str_from (String.append a b) (Z.of_nat (String.length a)) = b.
Proof.
  unfold str_from. rewrite slice_bound_in, Nat2Z.id by (rewrite string_length_append; lia).
  rewrite substring_append_r. apply substring_whole.
  rewrite string_length_append. lia.
Qed.

Lemma prefix_split (sub s : string) :
  String.prefix sub s = true <-> exists rest, s = String.append sub rest.
Proof.
  revert s. induction sub as [|c sub IH]; intros s.
  - split; [intros _; now exists s|]. intros _. destruct s; reflexivity.
  - destruct s as [|d s]; simpl.
    + split; [discriminate|]. intros [rest H]. discriminate.
    + destruct (Ascii.ascii_dec c d) as [->|Hne].
      * rewrite IH. split; intros [rest H]; exists rest; [now rewrite H|congruence].
      * split; [discriminate|]. intros [rest H]. congruence.
Qed.

Lemma index_split (sub s : string) (n : nat) :
  String.index 0 sub s = Some n ->
  exists a b, s = String.append a b /\ String.length a = n /\ String.prefix sub b = true.
Proof.
  revert n. induction s as [|c s IH]; intros n; cbn [String.index].
  - destruct sub; [|discriminate]. intros H. injection H as <-.
    exists EmptyString, EmptyString. auto.
  - change (String.index 0 sub (String c s)) with
      (if String.prefix sub (String c s) then Some 0%nat
       else match String.index 0 sub s with Some k => Some (S k) | None => None end).
    destruct (String.prefix sub (String c s)) eqn:Ep.
    + intros H. injection H as <-. exists EmptyString, (String c s). auto.
    + destruct (String.index 0 sub s) as [k|]; [|discriminate].
      intros H. injection H as <-.
      destruct (IH k eq_refl) as (a & b & -> & <- & Hp).
      exists (String c a), b. auto.
Qed.

Lemma readlines_writelines (s : string) : writelines (readlines s) = s.
Proof.
  induction s as [|c s IH]; cbn [readlines]; [reflexivity|].
  destruct (Ascii.eqb c newline).
  - cbn. unfold writelines in IH. now rewrite IH.
  - unfold writelines in *. destruct (readlines s) as [|line lines].
    + cbn in *. now rewrite <- IH.
    + cbn in *. now rewrite IH.
Qed.

(** ** [replace_method] *)

Section ReplaceMethod.

Import ReplaceSkeleton.

Variables start_marker end_marker : string.

Lemma find_markers_no_start (lines : list string) (i : Z) :
  Forall (fun line => str_in start_marker line = false) lines ->
  find_markers start_marker end_marker lines i (-1) = (-1, -1).
Proof.
  intros H. revert i. induction H as [|line lines Hline _ IH]; intros i; cbn [find_markers].
  - reflexivity.
  - rewrite Hline. cbn. apply IH.
Qed.

Lemma find_markers_no_end (lines : list string) :
  Forall (fun line => str_in end_marker line = false) lines ->
  forall i start_idx, snd (find_markers start_marker end_marker lines i start_idx) = -1.
Proof.
  induction 1 as [|line lines Hline _ IH]; intros i start_idx; cbn [find_markers].
  - reflexivity.
  - rewrite Hline, andb_false_r. cbn [andb]. apply IH.
Qed.

(** X14: [replace_method] returns the lines unchanged when no line holds
    the start marker, and also when no line holds the end marker. *)
Theorem replace_method_unchanged (lines new_content : list string) :
  Forall (fun line => str_in start_marker line = false) lines \/
  Forall (fun line => str_in end_marker line = false) lines ->
  replace_method lines start_marker end_marker new_content = lines.
Proof.
  intros [H|H]; unfold replace_method.
  - rewrite find_markers_no_start by exact H. reflexivity.
  - pose proof (find_markers_no_end lines H 0 (-1)) as He.
    destruct (find_markers start_marker end_marker lines 0 (-1)) as [s e].
    cbn [snd] in He. subst e. now rewrite orb_true_r.
Qed.

End ReplaceMethod.

Section ReplaceMethodShape.

Import ReplaceSkeleton.

Variables start_marker end_marker : string.

Lemma replace_method_no_start (lines new_content : list string) :
  Forall (fun line => str_in start_marker line = false) lines ->
  replace_method lines start_marker end_marker new_content = lines.
Proof.
  intros H. unfold replace_method. now rewrite find_markers_no_start.
Qed.

Lemma find_markers_spec (lines : list string) :
  forall (pre : list string) (s0 s e : Z),
  find_markers start_marker end_marker lines (Z.of_nat (length pre)) s0 = (s, e) ->
  (s0 = -1 \/
   exists a : nat, s0 = Z.of_nat a /\
     (exists l, pre !! a = Some l /\ str_in start_marker l = true) /\
     (forall j l, (a < j)%nat -> pre !! j = Some l -> str_in start_marker l = false)) ->
  e = -1 \/
  exists a b : nat,
    s = Z.of_nat a /\ e = Z.of_nat b /\ (S a < b)%nat /\
    (b <= length (pre ++ lines))%nat /\
    (exists l, (pre ++ lines) !! a = Some l /\ str_in start_marker l = true) /\
    (exists l, (pre ++ lines) !! (b - 1)%nat = Some l /\ str_in end_marker l = true) /\
    (forall j l, (a < j < b)%nat -> (pre ++ lines) !! j = Some l ->
                 str_in start_marker l = false).
Proof.
  induction lines as [|line rest IH]; intros pre s0 s e H Hinv; cbn [find_markers] in H.
  - left. congruence.
  - destruct (negb ((if str_in start_marker line then Z.of_nat (length pre) else s0) =? -1)
              && str_in end_marker line
              && ((if str_in start_marker line then Z.of_nat (length pre) else s0)
                    <? Z.of_nat (length pre))) eqn:Econd.
    + apply andb_prop in Econd. destruct Econd as [Econd Hlt].
      apply andb_prop in Econd. destruct Econd as [Hset Hend].
      destruct (str_in start_marker line) eqn:Estart; [lia|].
      apply negb_true_iff, Z.eqb_neq in Hset.
      destruct Hinv as [->|(a & -> & (l & Hl & Hstart) & Hlater)]; [contradiction|].
      injection H as <- <-. right.
      pose proof (lookup_lt_Some _ _ _ Hl) as Ha.
      exists a, (S (length pre)).
      split; [reflexivity|]. split; [lia|]. split; [lia|].
      split; [rewrite length_app; cbn [length]; lia|].
      split; [exists l; split; [now rewrite lookup_app_l|exact Hstart]|].
      split.
      * exists line. split; [|exact Hend].
        replace (S (length pre) - 1)%nat with (length pre) by lia.
        apply list_lookup_middle. reflexivity.
      * intros j l' Hj Hl'.
        destruct (Nat.eq_dec j (length pre)) as [->|Hne].
        -- rewrite list_lookup_middle in Hl' by reflexivity. congruence.
        -- rewrite lookup_app_l in Hl' by lia. apply (Hlater j l'); [lia|exact Hl'].
    + replace (pre ++ line :: rest) with ((pre ++ [line]) ++ rest)
        by (now rewrite <- app_assoc).
      apply (IH (pre ++ [line])
               (if str_in start_marker line then Z.of_nat (length pre) else s0) s e).
      * rewrite length_app. cbn [length].
        replace (Z.of_nat (length pre + 1)) with (Z.of_nat (length pre) + 1) by lia.
        exact H.
      * destruct (str_in start_marker line) eqn:Estart.
        -- right. exists (length pre). split; [reflexivity|]. split.
           ++ exists line. split; [|exact Estart]. apply list_lookup_middle. reflexivity.
           ++ intros j l' Hj Hl'. apply lookup_lt_Some in Hl'.
              rewrite length_app in Hl'. cbn [length] in Hl'. lia.
        -- destruct Hinv as [->|(a & -> & (l & Hl & Hstart) & Hlater)]; [now left|].
           right. exists a. split; [reflexivity|].
           pose proof (lookup_lt_Some _ _ _ Hl) as Ha. split.
           ++ exists l. split; [now rewrite lookup_app_l|exact Hstart].
           ++ intros j l' Hj Hl'.
              destruct (Nat.eq_dec j (length pre)) as [->|Hne].
              ** rewrite list_lookup_middle in Hl' by reflexivity. congruence.
              ** assert (j < length pre)%nat.
                 { apply lookup_lt_Some in Hl'. rewrite length_app in Hl'.
                   cbn [length] in Hl'. lia. }
                 rewrite lookup_app_l in Hl' by lia. apply (Hlater j l'); [lia|exact Hl'].
Qed.

(** X15: what [replace_method] can return.  Either the lines unchanged, or
    the lines with one block replaced by [new_content]: the block runs from
    a line that holds the start marker, the last such line before its end,
    through a later line that holds the end marker, this line included. *)
Theorem replace_method_shape (lines new_content : list string) :
  replace_method lines start_marker end_marker new_content = lines \/
  exists a b : nat,
    (S a < b)%nat /\ (b <= length lines)%nat /\
    (exists l, lines !! a = Some l /\ str_in start_marker l = true) /\
    (exists l, lines !! (b - 1)%nat = Some l /\ str_in end_marker l = true) /\
    (forall j l, (a < j < b)%nat -> lines !! j = Some l -> str_in start_marker l = false) /\
    replace_method lines start_marker end_marker new_content
      = firstn a lines ++ new_content ++ skipn b lines /\
    length (replace_method lines start_marker end_marker new_content)
      = (length lines - (b - a) + length new_content)%nat.
Proof.
  unfold replace_method.
  destruct (find_markers start_marker end_marker lines 0 (-1)) as [s e] eqn:E.
  destruct (find_markers_spec lines [] (-1) s e E (or_introl eq_refl))
    as [->|(a & b & -> & -> & Hab & Hb & Hs & He & Hmid)].
  - left. now rewrite orb_true_r.
  - right. cbn [app] in *. exists a, b.
    split; [exact Hab|]. split; [exact Hb|]. split; [exact Hs|]. split; [exact He|].
    split; [exact Hmid|].
    replace ((Z.of_nat a =? -1) || (Z.of_nat b =? -1)) with false
      by (symmetry; apply orb_false_iff; split; apply Z.eqb_neq; lia).
    unfold list_to, list_from. rewrite !slice_bound_in, !Nat2Z.id by lia.
    split; [reflexivity|].
    rewrite !length_app, length_take, length_drop. lia.
Qed.

Lemma find_markers_app_no_start (pre rest : list string) (i : Z) :
  Forall (fun line => str_in start_marker line = false) pre ->
  find_markers start_marker end_marker (pre ++ rest) i (-1)
    = find_markers start_marker end_marker rest (i + Z.of_nat (length pre)) (-1).
Proof.
  intros H. revert i. induction H as [|line pre Hline _ IH]; intros i; cbn [app length].
  - f_equal. lia.
  - cbn [find_markers]. rewrite Hline. cbn. rewrite IH. f_equal. lia.
Qed.

Lemma find_markers_app_plain (mid rest : list string) (i start_idx : Z) :
  Forall (fun line => str_in start_marker line = false /\
                      str_in end_marker line = false) mid ->
  find_markers start_marker end_marker (mid ++ rest) i start_idx
    = find_markers start_marker end_marker rest (i + Z.of_nat (length mid)) start_idx.
Proof.
  intros H. revert i. induction H as [|line mid [Hs He] _ IH]; intros i; cbn [app length].
  - f_equal. lia.
  - cbn [find_markers]. rewrite Hs, He, andb_false_r. cbn [andb]. rewrite IH. f_equal. lia.
Qed.

(** X16: the usual case of [replace_method].  When the first line holding
    the start marker is followed, after lines holding neither marker, by a
    line holding the end marker and not the start marker, the lines from the
    former through the latter are replaced by [new_content]: the end-marker
    line goes too, everything before and after stays. *)
Theorem replace_method_block (pre mid post new_content : list string)
    (first last : string) :
  Forall (fun line => str_in start_marker line = false) pre ->
  str_in start_marker first = true ->
  Forall (fun line => str_in start_marker line = false /\
                      str_in end_marker line = false) mid ->
  str_in end_marker last = true ->
  str_in start_marker last = false ->
  replace_method (pre ++ [first] ++ mid ++ [last] ++ post)
    start_marker end_marker new_content
    = pre ++ new_content ++ post.
Proof.
  intros Hpre Hfirst Hmid Hlast Hlast'. unfold replace_method.
  rewrite find_markers_app_no_start by exact Hpre.
  cbn [app find_markers]. rewrite Hfirst.
  rewrite Z.ltb_irrefl, andb_false_r.
  rewrite find_markers_app_plain by exact Hmid.
  cbn [app find_markers]. rewrite Hlast', Hlast.
  replace (negb (0 + Z.of_nat (length pre) =? -1)) with true
    by (symmetry; apply negb_true_iff, Z.eqb_neq; lia).
  replace (0 + Z.of_nat (length pre) <? 0 + Z.of_nat (length pre) + 1 + Z.of_nat (length mid))
    with true by (symmetry; apply Z.ltb_lt; lia).
  cbn [andb].
  replace ((0 + Z.of_nat (length pre) =? -1)
           || (0 + Z.of_nat (length pre) + 1 + Z.of_nat (length mid) + 1 =? -1))
    with false by (symmetry; apply orb_false_iff; split; apply Z.eqb_neq; lia).
  unfold list_to, list_from.
  assert (Hlen : length (pre ++ first :: mid ++ last :: post)
                 = (length pre + 1 + length mid + 1 + length post)%nat).
  { rewrite length_app. cbn [length]. rewrite length_app. cbn [length]. lia. }
  rewrite !slice_bound_in by (rewrite Hlen; lia).
  replace (Z.to_nat (0 + Z.of_nat (length pre))) with (length pre) by lia.
  rewrite take_app_length. f_equal. f_equal.
  replace (pre ++ first :: mid ++ last :: post)
    with ((pre ++ first :: mid ++ [last]) ++ post)
    by (rewrite <- !app_assoc; cbn; rewrite <- !app_assoc; reflexivity).
  replace (Z.to_nat (0 + Z.of_nat (length pre) + 1 + Z.of_nat (length mid) + 1))
    with (length (pre ++ first :: mid ++ [last]))
    by (rewrite !length_app; cbn [length]; rewrite length_app; cbn [length]; lia).
  apply drop_app_length.
Qed.

End ReplaceMethodShape.

Lemma replace_method_unchanged_witness :
  ReplaceSkeleton.replace_method
    ["void A()"%string; "void End()"%string; "}"%string]
    "void Start()" "void End()" ["new"%string]
  = ["void A()"%string; "void End()"%string; "}"%string].
Proof.
  apply (replace_method_unchanged "void Start()" "void End()").
  left. repeat constructor.
Defined.

Lemma replace_method_block_witness :
  ReplaceSkeleton.replace_method
    (["using X;"%string] ++ ["void Start()"%string] ++ ["{"%string; "}"%string]
       ++ ["void End()"%string] ++ ["{ }"%string])
    "void Start()" "void End()" ["void New()"%string; "{ }"%string]
  = ["using X;"%string] ++ ["void New()"%string; "{ }"%string] ++ ["{ }"%string].
Proof.
  apply (replace_method_block "void Start()" "void End()").
  - repeat constructor.
  - reflexivity.
  - repeat constructor.
  - reflexivity.
  - reflexivity.
Defined.

(** ** [main] of replace_skeleton.py *)

(** X17: [main] fails with [FileNotFoundError], writing nothing, when one of
    its three files is missing.  When all are there and no line of the
    factory file holds either start marker, it writes the factory file back
    with the text it had. *)
Theorem skeleton_main_unchanged (fs : gmap string string) :
  (fs !! ReplaceSkeleton.factory_path = None \/
   fs !! ReplaceSkeleton.skeleton_path = None \/
   fs !! ReplaceSkeleton.skeleton_lord_path = None ->
   ReplaceSkeleton.main fs = (fs, Raise FileNotFoundError)) /\
  (forall text,
     fs !! ReplaceSkeleton.factory_path = Some text ->
     is_Some (fs !! ReplaceSkeleton.skeleton_path) ->
     is_Some (fs !! ReplaceSkeleton.skeleton_lord_path) ->
     Forall (fun line => str_in ReplaceSkeleton.skeleton_start line = false /\
                         str_in ReplaceSkeleton.skeleton_lord_start line = false)
       (readlines text) ->
     ReplaceSkeleton.main fs = (<[ReplaceSkeleton.factory_path := text]> fs, Ok tt)).
Proof.
  split.
  - intros Hmiss. unfold ReplaceSkeleton.main.
    destruct (fs !! ReplaceSkeleton.factory_path); [|reflexivity].
    destruct (fs !! ReplaceSkeleton.skeleton_path); [|reflexivity].
    destruct (fs !! ReplaceSkeleton.skeleton_lord_path); [|reflexivity].
    destruct Hmiss as [H|[H|H]]; discriminate.
  - intros text Htext [sk Hsk] [ld Hld] Hlines. unfold ReplaceSkeleton.main.
    rewrite Htext, Hsk, Hld.
    rewrite (replace_method_no_start ReplaceSkeleton.skeleton_start)
      by (eapply Forall_impl; [exact Hlines|]; cbn beta; tauto).
    rewrite (replace_method_no_start ReplaceSkeleton.skeleton_lord_start)
      by (eapply Forall_impl; [exact Hlines|]; cbn beta; tauto).
    now rewrite readlines_writelines.
Qed.

(** ** replace_slime.py *)

Lemma string_app_inv (a b c d : string) :
  String.append a b = String.append c d ->
  (String.length c <= String.length a)%nat ->
  exists m, a = String.append c m /\ d = String.append m b.
Proof.
  revert a. induction c as [|x c IH]; intros a H Hlen.
  - exists a. simpl in *. auto.
  - destruct a as [|y a]; [simpl in Hlen; lia|].
    simpl in H. injection H as -> H.
    destruct (IH a H ltac:(simpl in Hlen; lia)) as (m & -> & ->).
    now exists m.
Qed.

Lemma str_find_split (content sub : string) :
  str_in sub content = true ->
  exists a b,
    content = String.append a (String.append sub b) /\
    str_find content sub = Z.of_nat (String.length a).
Proof.
  unfold str_in, str_find. destruct (String.index 0 sub content) as [n|] eqn:E;
    [|discriminate].
  intros _. destruct (index_split _ _ _ E) as (a & b & -> & <- & Hp).
  apply prefix_split in Hp. destruct Hp as [rest ->]. now exists a, rest.
Qed.

(** X18: replace_slime.py gives up with exit status 1, writing nothing,
    when the factory text lacks the start marker or the end marker. *)
Theorem slime_missing_marker (fs : gmap string string) (content enhanced : string) :
  fs !! ReplaceSlime.factory_path = Some content ->
  fs !! ReplaceSlime.enhanced_path = Some enhanced ->
  str_in ReplaceSlime.start_marker content = false \/
  str_in ReplaceSlime.end_marker content = false ->
  ReplaceSlime.script fs = (fs, SystemExit 1).
Proof.
  intros Hc He Hmiss. unfold ReplaceSlime.script. rewrite Hc, He.
  unfold str_find, str_in in *.
  destruct (String.index 0 ReplaceSlime.start_marker content);
    destruct (String.index 0 ReplaceSlime.end_marker content);
    destruct Hmiss as [H|H]; try discriminate; try reflexivity.
  now rewrite orb_true_r.
Qed.

(** X19: when both markers occur, replace_slime.py keeps the text before
    the first start marker, puts the enhanced methods and an empty line
    after it, and continues with the text from the first end marker on: the
    end marker stays. *)
Theorem slime_replaces (fs : gmap string string) (content enhanced : string) :
  fs !! ReplaceSlime.factory_path = Some content ->
  fs !! ReplaceSlime.enhanced_path = Some enhanced ->
  str_in ReplaceSlime.start_marker content = true ->
  str_in ReplaceSlime.end_marker content = true ->
  exists a b c d,
    content = String.append a (String.append ReplaceSlime.start_marker b) /\
    str_find content ReplaceSlime.start_marker = Z.of_nat (String.length a) /\
    content = String.append c (String.append ReplaceSlime.end_marker d) /\
    str_find content ReplaceSlime.end_marker = Z.of_nat (String.length c) /\
    ReplaceSlime.script fs =
      (<[ReplaceSlime.factory_path :=
           String.append a
             (String.append enhanced
                (String.append (String newline (String newline EmptyString))
                   (String.append ReplaceSlime.end_marker d)))]> fs,
       Completed).
Proof.
  intros Hc He Hs Hend.
  destruct (str_find_split _ _ Hs) as (a & b & Hab & Hfa).
  destruct (str_find_split _ _ Hend) as (c & d & Hcd & Hfc).
  exists a, b, c, d. split; [exact Hab|]. split; [exact Hfa|].
  split; [exact Hcd|]. split; [exact Hfc|].
  unfold ReplaceSlime.script. rewrite Hc, He. cbv zeta.
  rewrite Hfa at 1. rewrite Hfc at 1.
  replace ((Z.of_nat (String.length a) =? -1) || (Z.of_nat (String.length c) =? -1))
    with false by (symmetry; apply orb_false_iff; split; apply Z.eqb_neq; lia).
  rewrite Hfa, Hfc.
  rewrite Hab at 1. rewrite str_to_append.
  rewrite Hcd at 1. rewrite str_from_append. reflexivity.
Qed.

(** X20: replace_slime.py does not check the order of the markers.  When
    the end marker comes first, nothing of the factory text is removed and
    the stretch from the end marker up to the start marker is there twice,
    before and after the inserted methods. *)
Theorem slime_markers_reversed (fs : gmap string string) (content enhanced : string) :
  fs !! ReplaceSlime.factory_path = Some content ->
  fs !! ReplaceSlime.enhanced_path = Some enhanced ->
  str_in ReplaceSlime.start_marker content = true ->
  str_in ReplaceSlime.end_marker content = true ->
  str_find content ReplaceSlime.end_marker < str_find content ReplaceSlime.start_marker ->
  exists c m b,
    content = String.append c (String.append m b) /\
    Z.of_nat (String.length m) =
      str_find content ReplaceSlime.start_marker
      - str_find content ReplaceSlime.end_marker /\
    ReplaceSlime.script fs =
      (<[ReplaceSlime.factory_path :=
           String.append (String.append c m)
             (String.append enhanced
                (String.append (String newline (String newline EmptyString))
                   (String.append m b)))]> fs,
       Completed).
Proof.
  intros Hc He Hs Hend Hlt.
  destruct (str_find_split _ _ Hs) as (a & b & Hab & Hfa).
  destruct (str_find_split _ _ Hend) as (c & d & Hcd & Hfc).
  rewrite Hfa, Hfc in Hlt.
  destruct (string_app_inv a (String.append ReplaceSlime.start_marker b) c
              (String.append ReplaceSlime.end_marker d)) as (m & Ha & Hd);
    [congruence|lia|].
  exists c, m, (String.append ReplaceSlime.start_marker b).
  split; [rewrite Hab, Ha; apply string_append_assoc|].
  split; [rewrite Hfa, Hfc, Ha, string_length_append; lia|].
  unfold ReplaceSlime.script. rewrite Hc, He. cbv zeta.
  rewrite Hfa at 1. rewrite Hfc at 1.
  replace ((Z.of_nat (String.length a) =? -1) || (Z.of_nat (String.length c) =? -1))
    with false by (symmetry; apply orb_false_iff; split; apply Z.eqb_neq; lia).
  rewrite Hfa, Hfc.
  rewrite Hab at 1. rewrite str_to_append.
  rewrite Hcd at 1. rewrite str_from_append. rewrite <- Hd, <- Ha. reflexivity.
Qed.

(** ** replace_mushroom.py *)

Section Mushroom.

Import ReplaceMushroom.

Local Opaque closing header.

Lemma fits_cons (bol : bool) (c : Ascii.ascii) (body : string) :
  fits bol (String c body) <-> fits (Ascii.eqb c newline) body.
Proof.
  unfold fits, ends_line. split.
  - intros [[_ H]|[b H]]; [discriminate|].
    destruct b as [|x b]; simpl in H; injection H as -> ->.
    + left. split; [apply Ascii.eqb_refl|reflexivity].
    + right. now exists b.
  - intros [[Hc ->]|[b ->]]; right.
    + apply Ascii.eqb_eq in Hc. subst c. now exists EmptyString.
    + now exists (String c b).
Qed.

Lemma match_tail_unfold (bol : bool) (s : string) :
  match_tail bol s =
    if bol && String.prefix closing s then Some (String.length closing)
    else match s with
         | EmptyString => None
         | String c s' => option_map S (match_tail (Ascii.eqb c newline) s')
         end.
Proof. destruct s; reflexivity. Qed.

Lemma prefix_closing_nil : String.prefix closing EmptyString = false.
Proof. reflexivity. Qed.

Lemma match_tail_sound (s : string) :
  forall bol n, match_tail bol s = Some n ->
  exists body rest,
    s = String.append body (String.append closing rest) /\
    n = (String.length body + String.length closing)%nat /\
    fits bol body /\
    forall body' rest',
      s = String.append body' (String.append closing rest') -> fits bol body' ->
      (String.length body <= String.length body')%nat.
Proof.
  induction s as [|c s IH]; intros bol n H.
  - rewrite match_tail_unfold, prefix_closing_nil, andb_false_r in H. discriminate.
  - rewrite match_tail_unfold in H.
    destruct (bol && String.prefix closing (String c s)) eqn:E.
    + injection H as <-. apply andb_prop in E. destruct E as [-> Hp].
      apply prefix_split in Hp. destruct Hp as [rest Hrest].
      exists EmptyString, rest. split; [exact Hrest|]. split; [reflexivity|].
      split; [now left|]. intros. simpl. lia.
    + destruct (match_tail (Ascii.eqb c newline) s) as [k|] eqn:Ek; [|discriminate].
      injection H as <-.
      destruct (IH _ _ Ek) as (body & rest & -> & -> & Hfit & Hmin).
      exists (String c body), rest. split; [reflexivity|]. split; [reflexivity|].
      split; [now apply fits_cons|].
      intros body' rest' Heq Hfit'. destruct body' as [|x body'].
      * exfalso. destruct Hfit' as [[-> _]|[b Hb]].
        -- change (String c (String.append body (String.append closing rest))
                   = String.append closing rest') in Heq.
           rewrite Heq in E. cbn [andb] in E.
           assert (String.prefix closing (String.append closing rest') = true)
             by (apply prefix_split; now exists rest').
           congruence.
        -- destruct b; discriminate.
      * change (String c (String.append body (String.append closing rest))
                = String x (String.append body' (String.append closing rest'))) in Heq.
        injection Heq as <- Heq. apply fits_cons in Hfit'.
        specialize (Hmin body' rest' Heq Hfit'). simpl. lia.
Qed.

Lemma match_tail_complete (body rest : string) :
  forall bol, fits bol body ->
  match_tail bol (String.append body (String.append closing rest)) <> None.
Proof.
  induction body as [|c body IH]; intros bol Hfit.
  - destruct Hfit as [[-> _]|[b Hb]]; [|destruct b; discriminate].
    change (String.append EmptyString (String.append closing rest))
      with (String.append closing rest).
    rewrite match_tail_unfold.
    replace (String.prefix closing (String.append closing rest)) with true
      by (symmetry; apply prefix_split; now exists rest).
    discriminate.
  - change (String.append (String c body) (String.append closing rest))
      with (String c (String.append body (String.append closing rest))).
    rewrite match_tail_unfold.
    destruct (bol && _); [discriminate|].
    apply fits_cons in Hfit. specialize (IH _ Hfit).
    destruct (match_tail _ _); [discriminate|contradiction].
Qed.

Lemma match_here_sound (s : string) (n : nat) :
  match_here s = Some n ->
  exists body rest,
    s = String.append header (String.append body (String.append closing rest)) /\
    n = (String.length header + String.length body + String.length closing)%nat /\
    ends_line body /\
    forall body' rest',
      s = String.append header (String.append body' (String.append closing rest')) ->
      ends_line body' -> (String.length body <= String.length body')%nat.
Proof.
  unfold match_here. destruct (String.prefix header s) eqn:Ep; [|discriminate].
  apply prefix_split in Ep. destruct Ep as [t ->].
  rewrite substring_append_r, substring_whole
    by (rewrite !string_length_append; lia).
  destruct (match_tail false t) as [k|] eqn:Ek; [|discriminate].
  intros H. injection H as <-.
  destruct (match_tail_sound _ _ _ Ek) as (body & rest & -> & -> & Hfit & Hmin).
  exists body, rest. split; [reflexivity|]. split; [lia|].
  split; [destruct Hfit as [[? _]|?]; [discriminate|assumption]|].
  intros body' rest' Heq Hends.
  apply (Hmin body' rest'); [|now right].
  clear -Heq. revert Heq. generalize header. intros h.
  induction h as [|x h IHh]; simpl; intros Heq; [exact Heq|].
  injection Heq as Heq. now apply IHh.
Qed.

Lemma match_here_complete (body rest : string) :
  ends_line body ->
  match_here (String.append header (String.append body (String.append closing rest)))
    <> None.
Proof.
  intros Hends. unfold match_here.
  assert (Hp : String.prefix header
                 (String.append header (String.append body (String.append closing rest)))
               = true) by (apply prefix_split; eauto).
  rewrite Hp, substring_append_r, substring_whole
    by (rewrite !string_length_append; lia).
  pose proof (match_tail_complete body rest false (or_intror Hends)) as Hc.
  destruct (match_tail false _); [discriminate|contradiction].
Qed.

Lemma search_sound (s : string) :
  forall i j, search s = Some (i, j) ->
  exists a body rest,
    s = String.append a
          (String.append header (String.append body (String.append closing rest))) /\
    i = String.length a /\
    j = (String.length a + String.length header + String.length body
         + String.length closing)%nat /\
    ends_line body /\
    (forall a' body' rest',
       s = String.append a'
             (String.append header (String.append body' (String.append closing rest'))) ->
       ends_line body' -> (String.length a <= String.length a')%nat) /\
    (forall body' rest',
       s = String.append a
             (String.append header (String.append body' (String.append closing rest'))) ->
       ends_line body' -> (String.length body <= String.length body')%nat).
Proof.
  induction s as [|c s IH]; intros i j H.
  - simpl in H. destruct (match_here EmptyString) eqn:E; [|discriminate].
    unfold match_here in E. discriminate.
  - change (search (String c s)) with
      (match match_here (String c s) with
       | Some n => Some (0%nat, n)
       | None => option_map (fun m => (S (fst m), S (snd m))) (search s)
       end) in H.
    destruct (match_here (String c s)) as [n|] eqn:E.
    + injection H as <- <-.
      destruct (match_here_sound _ _ E) as (body & rest & Heq & -> & Hends & Hmin).
      exists EmptyString, body, rest. split; [exact Heq|]. split; [reflexivity|].
      split; [simpl; lia|]. split; [exact Hends|]. split; [intros; simpl; lia|].
      intros body' rest' Heq'. apply (Hmin body' rest'). exact Heq'.
    + destruct (search s) as [[i' j']|] eqn:Es; [|discriminate].
      injection H as <- <-. cbn [fst snd].
      destruct (IH _ _ eq_refl) as (a & body & rest & -> & -> & -> & Hends & Hleft & Hmin).
      exists (String c a), body, rest. split; [reflexivity|]. split; [reflexivity|].
      split; [simpl; lia|]. split; [exact Hends|]. split.
      * intros a' body' rest' Heq Hends'. destruct a' as [|x a'].
        -- exfalso.
           change (String.append EmptyString ?t) with t in Heq.
           rewrite Heq in E.
           now apply (match_here_complete body' rest').
        -- change (String c (String.append a
                     (String.append header
                        (String.append body (String.append closing rest))))
                   = String x (String.append a'
                       (String.append header
                          (String.append body' (String.append closing rest'))))) in Heq.
           injection Heq as _ Heq.
           specialize (Hleft a' body' rest' Heq Hends'). simpl. lia.
      * intros body' rest' Heq.
        change (String c (String.append a
                  (String.append header
                     (String.append body (String.append closing rest))))
                = String c (String.append a
                    (String.append header
                       (String.append body' (String.append closing rest'))))) in Heq.
        injection Heq as Heq. now apply (Hmin body' rest').
Qed.

Lemma search_none (s : string) :
  String.index 0 header s = None -> search s = None.
Proof.
  induction s as [|c s IH]; intros H.
  - reflexivity.
  - change (String.index 0 header (String c s)) with
      (if String.prefix header (String c s) then Some 0%nat
       else match String.index 0 header s with Some k => Some (S k) | None => None end)
      in H.
    change (search (String c s)) with
      (match match_here (String c s) with
       | Some n => Some (0%nat, n)
       | None => option_map (fun m => (S (fst m), S (snd m))) (search s)
       end).
    unfold match_here.
    destruct (String.prefix header (String c s)); [discriminate|].
    destruct (String.index 0 header s); [discriminate|].
    now rewrite IH.
Qed.

Lemma rstrip_prefix (isspace : Ascii.ascii -> bool) (s : string) :
  exists ws, s = String.append (rstrip isspace s) ws.
Proof.
  induction s as [|c s [ws IH]]; [now exists EmptyString|].
  simpl. destruct (rstrip isspace s) as [|x t] eqn:E.
  - destruct (isspace c).
    + now exists (String c s).
    + exists s. reflexivity.
  - exists ws. change (String c s = String c (String.append (String x t) ws)).
    f_equal. exact IH.
Qed.

End Mushroom.

Lemma index_complete (sub a b : string) :
  String.index 0 sub (String.append a (String.append sub b)) <> None.
Proof.
  induction a as [|c a IH].
  - change (String.append EmptyString (String.append sub b)) with (String.append sub b).
    assert (Hp : String.prefix sub (String.append sub b) = true)
      by (apply prefix_split; now exists b).
    destruct (String.append sub b) as [|x t] eqn:E.
    + destruct sub; [discriminate|discriminate].
    + change (String.index 0 sub (String x t)) with
        (if String.prefix sub (String x t) then Some 0%nat
         else match String.index 0 sub t with Some k => Some (S k) | None => None end).
      now rewrite Hp.
  - change (String.append (String c a) (String.append sub b))
      with (String c (String.append a (String.append sub b))).
    change (String.index 0 sub (String c (String.append a (String.append sub b)))) with
      (if String.prefix sub (String c (String.append a (String.append sub b)))
       then Some 0%nat
       else match String.index 0 sub (String.append a (String.append sub b)) with
            | Some k => Some (S k)
            | None => None
            end).
    destruct (String.prefix sub _); [discriminate|].
    destruct (String.index 0 sub (String.append a (String.append sub b)));
      [discriminate|contradiction].
Qed.

Lemma search_unfold (s : string) :
  ReplaceMushroom.search s =
    match ReplaceMushroom.match_here s with
    | Some n => Some (0%nat, n)
    | None =>
        match s with
        | EmptyString => None
        | String _ s' =>
            option_map (fun m => (S (fst m), S (snd m))) (ReplaceMushroom.search s')
        end
    end.
Proof. destruct s; reflexivity. Qed.

Lemma search_complete (a body rest : string) :
  ends_line body ->
  ReplaceMushroom.search
    (String.append a
       (String.append ReplaceMushroom.header
          (String.append body (String.append ReplaceMushroom.closing rest)))) <> None.
Proof.
  intros Hends. induction a as [|c a IH].
  - change (String.append EmptyString ?t) with t.
    pose proof (match_here_complete body rest Hends) as Hc.
    rewrite search_unfold.
    destruct (ReplaceMushroom.match_here _); [discriminate|contradiction].
  - change (String.append (String c a) ?t) with (String c (String.append a t)).
    rewrite search_unfold.
    destruct (ReplaceMushroom.match_here _); [discriminate|].
    destruct (ReplaceMushroom.search _); [discriminate|contradiction].
Qed.

(** X21: replace_mushroom.py leaves the factory file alone, and ends
    normally, when the text does not hold the method header, and also when
    it holds no line that begins with "    }". *)
Theorem mushroom_not_found (isspace : Ascii.ascii -> bool) (fs : gmap string string)
    (content new_methods : string) :
  fs !! ReplaceMushroom.factory_path = Some content ->
  fs !! ReplaceMushroom.methods_path = Some new_methods ->
  str_in ReplaceMushroom.header content = false \/
  str_in (String newline ReplaceMushroom.closing) content = false ->
  ReplaceMushroom.script isspace fs = (fs, Completed).
Proof.
  intros Hc Hm Hno. unfold ReplaceMushroom.script. rewrite Hc, Hm.
  destruct (ReplaceMushroom.search content) as [[i j]|] eqn:E; [|reflexivity].
  exfalso. destruct (search_sound _ _ _ E) as (a & body & rest & -> & _ & _ & [b ->] & _).
  unfold str_in in Hno. destruct Hno as [Hno|Hno].
  - pose proof (index_complete ReplaceMushroom.header a
                  (String.append (String.append b (String newline EmptyString))
                     (String.append ReplaceMushroom.closing rest))) as Hi.
    destruct (String.index 0 ReplaceMushroom.header _); [discriminate|contradiction].
  - pose proof (index_complete (String newline ReplaceMushroom.closing)
                  (String.append a (String.append ReplaceMushroom.header b)) rest) as Hi.
    replace (String.append (String.append a (String.append ReplaceMushroom.header b))
               (String.append (String newline ReplaceMushroom.closing) rest))
      with (String.append a
              (String.append ReplaceMushroom.header
                 (String.append (String.append b (String newline EmptyString))
                    (String.append ReplaceMushroom.closing rest)))) in Hi
      by (rewrite !string_append_assoc; reflexivity).
    destruct (String.index 0 (String newline ReplaceMushroom.closing) _);
      [discriminate|contradiction].
Qed.

(** X22: when the factory text holds the method header followed, after
    some full lines, by a line that begins with "    }",
    replace_mushroom.py replaces one stretch of the text by the new methods
    without their trailing whitespace.  The stretch starts at the leftmost
    header that such a line follows and ends with the first such line after
    it, up to its brace; the text before and after stays. *)
Theorem mushroom_replaces (isspace : Ascii.ascii -> bool) (fs : gmap string string)
    (content new_methods a0 body0 rest0 : string) :
  fs !! ReplaceMushroom.factory_path = Some content ->
  fs !! ReplaceMushroom.methods_path = Some new_methods ->
  content = String.append a0
              (String.append ReplaceMushroom.header
                 (String.append body0 (String.append ReplaceMushroom.closing rest0))) ->
  ends_line body0 ->
  exists a body rest,
    content = String.append a
                (String.append ReplaceMushroom.header
                   (String.append body (String.append ReplaceMushroom.closing rest))) /\
    ends_line body /\
    (String.length a <= String.length a0)%nat /\
    (a = a0 -> (String.length body <= String.length body0)%nat) /\
    (exists ws, new_methods = String.append (ReplaceMushroom.rstrip isspace new_methods) ws) /\
    ReplaceMushroom.script isspace fs =
      (<[ReplaceMushroom.factory_path :=
           String.append a
             (String.append (ReplaceMushroom.rstrip isspace new_methods) rest)]> fs,
       Completed).
Proof.
  intros Hc Hm Hcontent Hends.
  pose proof (search_complete a0 body0 rest0 Hends) as Hfound.
  rewrite <- Hcontent in Hfound.
  destruct (ReplaceMushroom.search content) as [[i j]|] eqn:E; [|contradiction].
  destruct (search_sound _ _ _ E)
    as (a & body & rest & Heq & -> & -> & Hb & Hleft & Hmin).
  exists a, body, rest. split; [exact Heq|]. split; [exact Hb|].
  split; [apply (Hleft a0 body0 rest0); [congruence|exact Hends]|].
  split; [intros ->; apply (Hmin body0 rest0); [congruence|exact Hends]|].
  split; [apply rstrip_prefix|].
  unfold ReplaceMushroom.script. rewrite Hc, Hm, E.
  rewrite Heq at 1. rewrite str_to_append.
  replace content
    with (String.append
            (String.append a
               (String.append ReplaceMushroom.header
                  (String.append body ReplaceMushroom.closing))) rest) at 1
    by (rewrite Heq, !string_append_assoc; reflexivity).
  replace (Z.of_nat (String.length a + String.length ReplaceMushroom.header
                     + String.length body + String.length ReplaceMushroom.closing))
    with (Z.of_nat (String.length
                      (String.append a
                         (String.append ReplaceMushroom.header
                            (String.append body ReplaceMushroom.closing)))))
    by (rewrite !string_length_append; lia).
  rewrite str_from_append. reflexivity.
Qed.

(** ** Worked instances for the scripts *)

Lemma skeleton_main_unchanged_witness :
  ReplaceSkeleton.main (fs_skeleton (String.append "class A" (String.append nl "{ }")))
  = (<[ReplaceSkeleton.factory_path := String.append "class A" (String.append nl "{ }")]>
       (fs_skeleton (String.append "class A" (String.append nl "{ }"))),
     Ok tt).
Proof.
  apply (proj2 (skeleton_main_unchanged
                  (fs_skeleton (String.append "class A" (String.append nl "{ }"))))).
  - vm_compute. reflexivity.
  - eexists. vm_compute. reflexivity.
  - eexists. vm_compute. reflexivity.
  - vm_compute. repeat constructor.
Defined.

Lemma slime_missing_marker_witness :
  ReplaceSlime.script (fs_slime "class A { }") = (fs_slime "class A { }", SystemExit 1).
Proof.
  apply (slime_missing_marker (fs_slime "class A { }") "class A { }" "    NEW SLIME").
  - vm_compute. reflexivity.
  - vm_compute. reflexivity.
  - left. vm_compute. reflexivity.
Defined.

Lemma slime_replaces_witness :
  exists a b c d,
    slime_text = String.append a (String.append ReplaceSlime.start_marker b) /\
    str_find slime_text ReplaceSlime.start_marker = Z.of_nat (String.length a) /\
    slime_text = String.append c (String.append ReplaceSlime.end_marker d) /\
    str_find slime_text ReplaceSlime.end_marker = Z.of_nat (String.length c) /\
    ReplaceSlime.script (fs_slime slime_text) =
      (<[ReplaceSlime.factory_path :=
           String.append a
             (String.append "    NEW SLIME"
                (String.append (String newline (String newline EmptyString))
                   (String.append ReplaceSlime.end_marker d)))]> (fs_slime slime_text),
       Completed).
Proof.
  apply (slime_replaces (fs_slime slime_text) slime_text "    NEW SLIME").
  - vm_compute. reflexivity.
  - vm_compute. reflexivity.
  - vm_compute. reflexivity.
  - vm_compute. reflexivity.
Defined.

Lemma slime_markers_reversed_witness :
  exists c m b,
    slime_text_reversed = String.append c (String.append m b) /\
    Z.of_nat (String.length m) =
      str_find slime_text_reversed ReplaceSlime.start_marker
      - str_find slime_text_reversed ReplaceSlime.end_marker /\
    ReplaceSlime.script (fs_slime slime_text_reversed) =
      (<[ReplaceSlime.factory_path :=
           String.append (String.append c m)
             (String.append "    NEW SLIME"
                (String.append (String newline (String newline EmptyString))
                   (String.append m b)))]> (fs_slime slime_text_reversed),
       Completed).
Proof.
  apply (slime_markers_reversed (fs_slime slime_text_reversed) slime_text_reversed
           "    NEW SLIME").
  - vm_compute. reflexivity.
  - vm_compute. reflexivity.
  - vm_compute. reflexivity.
  - vm_compute. reflexivity.
  - vm_compute. reflexivity.
Defined.

Lemma mushroom_not_found_witness :
  ReplaceMushroom.script ascii_space (fs_mushroom "class A { }")
  = (fs_mushroom "class A { }", Completed).
Proof.
  apply (mushroom_not_found ascii_space (fs_mushroom "class A { }") "class A { }"
           (String.append "    NEW MUSHROOM  " nl)).
  - vm_compute. reflexivity.
  - vm_compute. reflexivity.
  - left. vm_compute. reflexivity.
Defined.

Lemma mushroom_replaces_witness :
  exists a body rest,
    mushroom_text = String.append a
                      (String.append ReplaceMushroom.header
                         (String.append body (String.append ReplaceMushroom.closing rest))) /\
    ends_line body /\
    (String.length a <= 11)%nat /\
    ReplaceMushroom.script ascii_space (fs_mushroom mushroom_text) =
      (<[ReplaceMushroom.factory_path :=
           String.append a
             (String.append
                (ReplaceMushroom.rstrip ascii_space (String.append "    NEW MUSHROOM  " nl))
                rest)]> (fs_mushroom mushroom_text),
       Completed).
Proof.
  destruct (mushroom_replaces ascii_space (fs_mushroom mushroom_text) mushroom_text
              (String.append "    NEW MUSHROOM  " nl)
              (String.append "// factory" nl)
              (String.append nl
                 (String.append "    {"
                    (String.append nl (String.append "        if (x) { }" nl))))
              (String.append nl "    // after"))
    as (a & body & rest & Heq & Hends & Hlen & _ & _ & Hscript).
  - vm_compute. reflexivity.
  - vm_compute. reflexivity.
  - vm_compute. reflexivity.
  - exists (String.append nl
              (String.append "    {" (String.append nl "        if (x) { }"))).
    vm_compute. reflexivity.
  - exists a, body, rest. auto.
Defined.
